(** * FPL league sync: a shallow embedding of the serverless handlers

    The repository holds serverless functions that read the Fantasy Premier
    League API and write standings into a Supabase table.  Three of them
    carry the sync pipeline and are modelled here:

    - [Legacy]  : [src/api/cron/sync-fpl-data.js], the cron job with the
                  recursive paginator and the per-manager detail loop;
    - [Cron]    : [src/unnamed/part_000], the cron job marked FIXED VERSION,
                  with the iterative paginator;
    - [Manual]  : [src/unnamed/part_001], the manual trigger, which also joins
                  the two secondary leagues onto the classic league.

    JavaScript values coming out of [response.json()] are modelled by the
    type [value]; asynchronous code is modelled in a state-and-exception
    monad [M] whose state records the upstream requests and the store writes
    that were issued.  The upstream, the store client, the clock and the
    environment are parameters of every run ([world], [env]); loops and
    recursion carry a budget ([fuel]) and [Diverge] stands for a run that
    exceeds it. *)

From Stdlib Require Import ZArith NArith List String Ascii Bool Lia DecimalString
  Permutation.
Import ListNotations.

Open Scope string_scope.
Open Scope Z_scope.

(* ===================================================================== *)
(** ** JavaScript values *)
(* ===================================================================== *)

Module Js.

(** What [JSON.parse] can produce, plus [undefined].  Numbers are the
    integer-valued ones; fractional numbers do not occur in the fields the
    handlers read.  [VNum n] stands for the JavaScript number [n] when [n] is
    a safe integer (below 2^53 in absolute value): in that range the
    arithmetic of [Z] and the decimal printing of [Z_to_string] are those of
    the engine.  Beyond it they are not (the engine rounds, and prints in
    exponent form from 1e21); statements that depend on printing a number
    the upstream sent ask for [plain] values. *)
#[warnings="-register-all"]
Inductive value : Type :=
| VUndefined
| VNull
| VBool (b : bool)
| VNum (n : Z)
| VStr (s : string)
| VArr (items : list value)
| VObj (fields : list (string * value)).

(** A thrown JavaScript error: its constructor name and its [message]. *)
Record exn : Type := mkExn { exn_name : string; message : string }.

Definition Error (msg : string) : exn := mkExn "Error" msg.
(** The text of a [TypeError] is chosen by the engine; the model keeps a
    short description of the operation that failed. *)
Definition TypeError (what : string) : exn := mkExn "TypeError" what.
Definition RangeError (what : string) : exn := mkExn "RangeError" what.
Definition SyntaxError (msg : string) : exn := mkExn "SyntaxError" msg.

(** [ToBoolean]. Arrays and objects are truthy, also when empty. *)
Definition truthy (v : value) : bool :=
  match v with
  | VUndefined | VNull => false
  | VBool b => b
  | VNum n => negb (n =? 0)
  | VStr s => negb (String.eqb s EmptyString)
  | VArr _ | VObj _ => true
  end.

Definition nullish (v : value) : bool :=
  match v with
  | VUndefined | VNull => true
  | _ => false
  end.

(** [a || b] on values. *)
Definition or_else (a b : value) : value := if truthy a then a else b.

(** The value under key [name]; parsed objects hold each key once. *)
Fixpoint lookup (name : string) (fields : list (string * value)) : value :=
  match fields with
  | [] => VUndefined
  | (k, v) :: rest => if String.eqb k name then v else lookup name rest
  end.

(** [v.name] for a [v] that is neither [null] nor [undefined].  The property
    names the handlers read ([standings], [results], [has_next], [events],
    [is_current], [id], [entry], [rank], ...) are own properties of parsed
    objects only: on a primitive or an array they are [undefined]. *)
Definition field (v : value) (name : string) : value :=
  match v with
  | VObj fields => lookup name fields
  | _ => VUndefined
  end.

(** [a === b] for values that come from different parsed responses: primitives
    compare by value, two objects or arrays are never the same reference. *)
Definition strict_eq (a b : value) : bool :=
  match a, b with
  | VUndefined, VUndefined => true
  | VNull, VNull => true
  | VBool x, VBool y => Bool.eqb x y
  | VNum x, VNum y => x =? y
  | VStr x, VStr y => String.eqb x y
  | _, _ => false
  end.

(** The decimal digits of an integer: what the engine prints for a safe
    integer.  From 1e21 on the engine prints in exponent form, which this
    does not follow. *)
Definition Z_to_string (n : Z) : string := NilZero.string_of_int (Z.to_int n).

(** [String(v)], as a template literal computes it. *)
Fixpoint to_string (v : value) : string :=
  match v with
  | VUndefined => "undefined"
  | VNull => "null"
  | VBool true => "true"
  | VBool false => "false"
  | VNum n => Z_to_string n
  | VStr s => s
  | VArr items =>
      (fix join (l : list value) : string :=
         match l with
         | [] => EmptyString
         | x :: rest =>
             let sx := if nullish x then EmptyString else to_string x in
             match rest with
             | [] => sx
             | _ :: _ => sx ++ "," ++ join rest
             end
         end) items
  | VObj _ => "[object Object]"
  end.

(** An environment variable or a request header: a string or [undefined]. *)
Definition opt_to_string (o : option string) : string :=
  match o with
  | Some s => s
  | None => "undefined"
  end.

Definition opt_truthy (o : option string) : bool :=
  match o with
  | Some s => negb (String.eqb s EmptyString)
  | None => false
  end.

Definition opt_strict_eq (a b : option string) : bool :=
  match a, b with
  | Some x, Some y => String.eqb x y
  | None, None => true
  | _, _ => false
  end.

Fixpoint drop_chars (n : nat) (s : string) : string :=
  match n, s with
  | O, _ => s
  | S n', String _ s' => drop_chars n' s'
  | S _, EmptyString => EmptyString
  end.

(** [s.replace(pat, rep)] with a string pattern: the first occurrence only. *)
Fixpoint replace_first (pat rep s : string) : string :=
  if prefix pat s then rep ++ drop_chars (String.length pat) s
  else match s with
       | EmptyString => EmptyString
       | String c s' => String c (replace_first pat rep s')
       end.

(** The characters of a string, one string each (exact for ASCII text). *)
Fixpoint chars (s : string) : list value :=
  match s with
  | EmptyString => []
  | String c s' => VStr (String c EmptyString) :: chars s'
  end.

End Js.
Export Js.

(* ===================================================================== *)
(** ** The outside world and the effect monad *)
(* ===================================================================== *)

(** What [fetch(url, {headers})] does: it rejects, or it resolves to a
    response with a status and a body that [response.json()] parses or not. *)
Inductive fetch_outcome : Type :=
| FetchReject (e : exn)
| FetchResponse (status : Z) (body : option value).

(** What [supabase.from(table).upsert(rows, {onConflict})] does: it resolves
    to [{data, error}], where [error] is [null] or carries a message, or the
    call itself throws. *)
Inductive upsert_outcome : Type :=
| UpsertResolved (error : option string)
| UpsertThrows (e : exn).

Record world : Type := mkWorld {
  fetch : string -> list (string * string) -> fetch_outcome;
  upsert : string -> value -> string -> upsert_outcome;
  (** [createClient(url, key)]: [Some e] when the constructor throws [e]. *)
  createClient : option string -> option string -> option exn;
  (** the [n]-th reading of the clock, in milliseconds *)
  clock : nat -> Z;
  (** [Date.prototype.toISOString] *)
  toISOString : Z -> string;
  (** the most arguments the engine passes to one call; it depends on the
      engine and on its stack size *)
  max_arguments : N;
  (** the timing of the upstream: of the tasks that wait for an answer under
      one [Promise.all], the one that the [n]-th answer to arrive resumes *)
  arrival : nat -> nat
}.

Record env : Type := mkEnv {
  SUPABASE_URL : option string;
  SUPABASE_KEY : option string;
  CRON_SECRET : option string
}.

Record request : Type := mkRequest {
  x_vercel_cron_secret : option string;
  authorization : option string
}.

Record response : Type := mkResponse { status : Z; body : value }.

Inductive event : Type :=
| EFetch (url : string)
| EUpsert (table : string) (rows : value) (onConflict : string).

Record state : Type := mkState { trace : list event; tick : nat }.

Definition initial : state := mkState [] 0.

(** The result of running a piece of code: a value, a thrown error, or no
    answer within the loop budget. *)
Inductive outcome (A : Type) : Type :=
| Ret (a : A)
| Throw (e : exn)
| Diverge.
Arguments Ret {A} a.
Arguments Throw {A} e.
Arguments Diverge {A}.

Definition M (A : Type) : Type := state -> outcome A * state.

Definition ret {A} (a : A) : M A := fun s => (Ret a, s).
Definition throw {A} (e : exn) : M A := fun s => (Throw e, s).
Definition diverge {A} : M A := fun s => (Diverge, s).

Definition bind {A B} (m : M A) (k : A -> M B) : M B :=
  fun s =>
    match m s with
    | (Ret a, s') => k a s'
    | (Throw e, s') => (Throw e, s')
    | (Diverge, s') => (Diverge, s')
    end.

(** [try { m } catch (error) { h error }] *)
Definition try_catch {A} (m : M A) (h : exn -> M A) : M A :=
  fun s =>
    match m s with
    | (Throw e, s') => h e s'
    | r => r
    end.

Declare Scope js_scope.
Delimit Scope js_scope with js.
Notation "x <- m ;; k" := (bind m (fun x => k))
  (at level 100, m at next level, right associativity) : js_scope.
Notation "m ;;; k" := (bind m (fun _ => k))
  (at level 100, right associativity) : js_scope.
Open Scope js_scope.

(** The state after further requests or writes were issued. *)
Definition logged (s : state) (es : list event) : state :=
  mkState (trace s ++ es) (tick s).

Definition emit (e : event) : M unit := fun s => (Ret tt, logged s [e]).

(** Reading the clock: [Date.now()] or [new Date()]. *)
Definition now (w : world) : M Z :=
  fun s => (Ret (clock w (tick s)), mkState (trace s) (S (tick s))).

(** [v.name]: a [TypeError] on [null] and [undefined]. *)
Definition getprop (v : value) (name : string) : M value :=
  if nullish v then throw (TypeError ("read " ++ name)) else ret (field v name).

(** [v?.name] *)
Definition optchain (v : value) (name : string) : value :=
  if nullish v then VUndefined else field v name.

(** More elements than the engine passes to one call. *)
Definition too_many (w : world) (items : list value) : bool :=
  (max_arguments w <? N.of_nat (List.length items))%N.

(** [f(...v)] for a truthy [v]: the elements of an array or the characters
    of a string become the arguments of the call; any other value is not
    iterable.  With more elements than [max_arguments] the call throws a
    [RangeError] before [f] runs. *)
Definition spread (w : world) (v : value) : M (list value) :=
  match v with
  | VArr items =>
      if too_many w items then throw (RangeError "too many arguments")
      else ret items
  | VStr s =>
      if too_many w (chars s) then throw (RangeError "too many arguments")
      else ret (chars s)
  | _ => throw (TypeError "spread of a non-iterable")
  end.

(** [managers.concat(v)]: an array is appended element by element, any other
    value as one element. *)
Definition concat_value (managers : list value) (v : value) : list value :=
  match v with
  | VArr items => managers ++ items
  | _ => managers ++ [v]
  end.

(** [items.find(pred)], where [pred] may throw. *)
Fixpoint find_first (pred : value -> M value) (items : list value) : M value :=
  match items with
  | [] => ret VUndefined
  | x :: rest =>
      b <- pred x ;;
      if truthy b then ret x else find_first pred rest
  end.

(** [v.find(pred)]: only arrays have the method. *)
Definition call_find (v : value) (pred : value -> M value) : M value :=
  match v with
  | VArr items => find_first pred items
  | _ => throw (TypeError "find is not a function")
  end.

(** [items.map(f)], where [f] may throw and may read the clock. *)
Fixpoint map_m {A B} (f : A -> M B) (items : list A) : M (list B) :=
  match items with
  | [] => ret []
  | x :: rest =>
      y <- f x ;;
      ys <- map_m f rest ;;
      ret (y :: ys)
  end.

(** *** [Promise.all] over three tasks *)

(** [Promise.all]: fulfilled with the three results when every task is;
    rejected when a task is (which rejection comes first depends on the
    timing; the model takes the first in the list); pending while a task is
    pending and none is rejected. *)
Definition settle {A} (oa ob oc : outcome A) : outcome (A * A * A) :=
  match oa, ob, oc with
  | Ret x, Ret y, Ret z => Ret (x, y, z)
  | Throw e, _, _ => Throw e
  | _, Throw e, _ => Throw e
  | _, _, Throw e => Throw e
  | _, _, _ => Diverge
  end.

Definition or_next {A} (x y : option A) : option A :=
  match x with
  | Some _ => x
  | None => y
  end.

(** The next event to be issued by one of three waiting tasks, whose events
    to come are [qa], [qb], [qc]: the head of queue [k], or of the first
    queue after it, cyclically, that is not empty. *)
Definition choose (k : nat) (qa qb qc : list event)
  : option (event * (list event * list event * list event)) :=
  let from_a := match qa with
                | e :: rest => Some (e, (rest, qb, qc))
                | [] => None
                end in
  let from_b := match qb with
                | e :: rest => Some (e, (qa, rest, qc))
                | [] => None
                end in
  let from_c := match qc with
                | e :: rest => Some (e, (qa, qb, rest))
                | [] => None
                end in
  match k with
  | O => or_next from_a (or_next from_b from_c)
  | S O => or_next from_b (or_next from_c from_a)
  | _ => or_next from_c (or_next from_a from_b)
  end.

(** The events of three tasks in the order the scheduler [pick] makes them
    happen, each task's own events in their order; [n] answers have arrived
    so far. *)
Fixpoint interleave (pick : nat -> nat) (n fuel : nat)
    (qa qb qc : list event) : list event :=
  match fuel with
  | O => []
  | S fuel' =>
      match choose (pick n mod 3) qa qb qc with
      | Some (e, (qa', qb', qc')) =>
          e :: interleave pick (S n) fuel' qa' qb' qc'
      | None => []
      end
  end.

(** [await Promise.all([a, b, c])] for three tasks that wait for the
    upstream.  A task only appends to the trace, and what it computes
    depends on the answers of the upstream, not on when they arrive: so each
    task is run apart, on an empty trace, and the three traces are merged.
    Calling a task runs it up to its first [await], which comes right after
    its first request: the first requests of [a], [b], [c] are issued in that
    order.  From then on a task goes on when its answer arrives, and the
    requests that remain are issued in the order [arrival] gives. *)
Definition all_three {A} (w : world) (a b c : M A) : M (A * A * A) :=
  fun s =>
    let '(oa, sa) := a (mkState [] (tick s)) in
    let '(ob, sb) := b (mkState [] (tick sa)) in
    let '(oc, sc) := c (mkState [] (tick sb)) in
    let qa := skipn 1 (trace sa) in
    let qb := skipn 1 (trace sb) in
    let qc := skipn 1 (trace sc) in
    (settle oa ob oc,
     mkState
       (trace s
          ++ (firstn 1 (trace sa) ++ firstn 1 (trace sb) ++ firstn 1 (trace sc))
          ++ interleave (arrival w) 0
               (List.length qa + List.length qb + List.length qc) qa qb qc)
       (tick sc)).

Definition is_ok (status : Z) : bool := (200 <=? status) && (status <=? 299).

Definition api_base : string := "https://fantasy.premierleague.com/api".

(* ===================================================================== *)
(** ** [src/unnamed/part_000]: the scheduled trigger, FIXED VERSION *)
(* ===================================================================== *)

Module Cron.

Definition classicLeagueId : Z := 1229613.
Definition lmsLeagueId : Z := 1190208.
Definition h2hLeagueId : Z := 1190166.

Definition headers : list (string * string) :=
  [("User-Agent", "Mozilla/5.0 (Macintosh; Intel Mac OS X 10_15_7)");
   ("Accept", "application/json")].

(** The module-level [supabase] handle: [true] when it holds a client,
    [false] when it was left [undefined]. *)
Definition supabase (w : world) (e : env) : bool :=
  if negb (opt_truthy (SUPABASE_URL e)) || negb (opt_truthy (SUPABASE_KEY e))
  then false
  else match createClient w (SUPABASE_URL e) (SUPABASE_KEY e) with
       | None => true
       | Some _ => false
       end.

Definition fetchFPL (w : world) (endpoint : string) : M value :=
  let url := api_base ++ endpoint in
  emit (EFetch url) ;;;
  match fetch w url headers with
  | FetchReject e => throw e
  | FetchResponse st body =>
      if negb (is_ok st)
      then throw (Error ("FPL API " ++ endpoint ++ " returned " ++ Z_to_string st))
      else match body with
           | Some v => ret v
           | None => throw (SyntaxError "invalid JSON body")
           end
  end.

Definition getCurrentGW (w : world) : M value :=
  try_catch
    (bootstrap <- fetchFPL w "/bootstrap-static/" ;;
     events <- getprop bootstrap "events" ;;
     found <- call_find events (fun e => getprop e "is_current") ;;
     ret (or_else (optchain found "id") (VNum 11)))
    (fun _ => ret (VNum 11)).

Definition standings_endpoint (leagueId page : Z) : string :=
  "/leagues-classic/" ++ Z_to_string leagueId
    ++ "/standings/?page_standings=" ++ Z_to_string page.

(** One turn of the [while (hasMore)] loop: the new [managers], [page] and
    [hasMore].  Every statement of the [try] block that can throw comes
    before the first assignment, and a [push] that throws for its number of
    arguments has not run, so the [catch] block sees the variables as they
    were when the turn began. *)
Definition fetchAllManagers_turn (w : world) (leagueId : Z)
    (managers : list value) (page : Z) : M (list value * Z * value) :=
  try_catch
    (data <- fetchFPL w (standings_endpoint leagueId page) ;;
     standings <- getprop data "standings" ;;
     if truthy (optchain standings "results") then
       results <- getprop standings "results" ;;
       items <- spread w results ;;
       has_next <- getprop standings "has_next" ;;
       ret ((managers ++ items)%list, page + 1, has_next)
     else ret (managers, page, VBool false))
    (fun _ => ret (managers, page, VBool false)).

Fixpoint fetchAllManagers_loop (fuel : nat) (w : world) (leagueId : Z)
    (managers : list value) (page : Z) : M (list value) :=
  match fuel with
  | O => diverge
  | S fuel' =>
      r <- fetchAllManagers_turn w leagueId managers page ;;
      let '(managers', page', hasMore) := r in
      if truthy hasMore
      then fetchAllManagers_loop fuel' w leagueId managers' page'
      else ret managers'
  end.

Definition fetchAllManagers (fuel : nat) (w : world) (leagueId : Z)
  : M (list value) :=
  fetchAllManagers_loop fuel w leagueId [] 1.

Definition managerRecord (w : world) (currentGW m : value) : M value :=
  entry <- getprop m "entry" ;;
  player_name <- getprop m "player_name" ;;
  entry_name <- getprop m "entry_name" ;;
  event_total <- getprop m "event_total" ;;
  total <- getprop m "total" ;;
  rank <- getprop m "rank" ;;
  t <- now w ;;
  ret (VObj [("manager_id", entry);
             ("manager_name", player_name);
             ("team_name", entry_name);
             ("gw", currentGW);
             ("gw_points", or_else event_total (VNum 0));
             ("total_points", or_else total (VNum 0));
             ("overall_rank", or_else rank (VNum 0));
             ("last_updated", VStr (toISOString w t))]).

Definition unauthorized : response :=
  mkResponse 401 (VObj [("error", VStr "Unauthorized")]).

Definition failure (error : exn) : response :=
  mkResponse 500 (VObj [("success", VBool false);
                        ("error", VStr (message error))]).

Definition success (currentGW : value) (managersProcessed : nat)
    (duration : Z) : response :=
  mkResponse 200 (VObj [("success", VBool true);
                        ("gw", currentGW);
                        ("managersProcessed", VNum (Z.of_nat managersProcessed));
                        ("duration", VStr (Z_to_string duration ++ "ms"))]).

(** [x-vercel-cron-secret], or else the [authorization] header with its
    first ["Bearer "] removed. *)
Definition cronSecret (req : request) : option string :=
  if opt_truthy (x_vercel_cron_secret req)
  then x_vercel_cron_secret req
  else option_map (replace_first "Bearer " EmptyString) (authorization req).

Definition handler (fuel : nat) (w : world) (e : env) (req : request)
  : M response :=
  startTime <- now w ;;
  _ <- now w ;;
  if negb (opt_strict_eq (cronSecret req) (CRON_SECRET e)) then
    ret unauthorized
  else
    try_catch
      ((if negb (supabase w e)
        then throw (Error "Supabase client not initialized")
        else ret tt) ;;;
       currentGW <- getCurrentGW w ;;
       leagues <- all_three w (fetchAllManagers fuel w classicLeagueId)
                    (fetchAllManagers fuel w lmsLeagueId)
                    (fetchAllManagers fuel w h2hLeagueId) ;;
       let '(classicManagers, lmsManagers, h2hManagers) := leagues in
       managerData <- map_m (managerRecord w currentGW) classicManagers ;;
       emit (EUpsert "manager_data" (VArr managerData) "manager_id,gw") ;;;
       match upsert w "manager_data" (VArr managerData) "manager_id,gw" with
       | UpsertThrows ex => throw ex
       | UpsertResolved (Some msg) =>
           throw (Error ("Supabase insert failed: " ++ msg))
       | UpsertResolved None =>
           endTime <- now w ;;
           ret (success currentGW (List.length managerData)
                        (endTime - startTime))
       end)
      (fun error => ret (failure error)).

End Cron.

(* ===================================================================== *)
(** ** [src/unnamed/part_001]: the manual trigger *)
(* ===================================================================== *)

Module Manual.

Definition classicLeagueId : Z := 1229613.
Definition lmsLeagueId : Z := 1190208.
Definition h2hLeagueId : Z := 1190166.

Definition headers : list (string * string) :=
  [("User-Agent", "Mozilla/5.0 (Macintosh; Intel Mac OS X 10_15_7)");
   ("Accept", "application/json")].

Definition supabase (w : world) (e : env) : bool :=
  if negb (opt_truthy (SUPABASE_URL e)) || negb (opt_truthy (SUPABASE_KEY e))
  then false
  else match createClient w (SUPABASE_URL e) (SUPABASE_KEY e) with
       | None => true
       | Some _ => false
       end.

Definition fetchFPL (w : world) (endpoint : string) : M value :=
  let url := api_base ++ endpoint in
  emit (EFetch url) ;;;
  match fetch w url headers with
  | FetchReject e => throw e
  | FetchResponse st body =>
      if negb (is_ok st)
      then throw (Error ("FPL API " ++ endpoint ++ " returned " ++ Z_to_string st))
      else match body with
           | Some v => ret v
           | None => throw (SyntaxError "invalid JSON body")
           end
  end.

Definition getCurrentGW (w : world) : M value :=
  try_catch
    (bootstrap <- fetchFPL w "/bootstrap-static/" ;;
     events <- getprop bootstrap "events" ;;
     found <- call_find events (fun e => getprop e "is_current") ;;
     ret (or_else (optchain found "id") (VNum 11)))
    (fun _ => ret (VNum 11)).

Definition standings_endpoint (leagueId page : Z) : string :=
  "/leagues-classic/" ++ Z_to_string leagueId
    ++ "/standings/?page_standings=" ++ Z_to_string page.

(** One turn of the [while (hasMore)] loop.  The test is
    [data.standings && data.standings.results]; the records are added with
    [managers.concat], which cannot throw. *)
Definition fetchAllManagers_turn (w : world) (leagueId : Z)
    (managers : list value) (page : Z) : M (list value * Z * value) :=
  try_catch
    (data <- fetchFPL w (standings_endpoint leagueId page) ;;
     standings <- getprop data "standings" ;;
     test <- (if truthy standings then getprop standings "results"
              else ret standings) ;;
     if truthy test then
       results <- getprop standings "results" ;;
       has_next <- getprop standings "has_next" ;;
       ret (concat_value managers results, page + 1, has_next)
     else ret (managers, page, VBool false))
    (fun _ => ret (managers, page, VBool false)).

Fixpoint fetchAllManagers_loop (fuel : nat) (w : world) (leagueId : Z)
    (managers : list value) (page : Z) : M (list value) :=
  match fuel with
  | O => diverge
  | S fuel' =>
      r <- fetchAllManagers_turn w leagueId managers page ;;
      let '(managers', page', hasMore) := r in
      if truthy hasMore
      then fetchAllManagers_loop fuel' w leagueId managers' page'
      else ret managers'
  end.

Definition fetchAllManagers (fuel : nat) (w : world) (leagueId : Z)
  : M (list value) :=
  fetchAllManagers_loop fuel w leagueId [] 1.

(** [league.find(x => x.entry === m.entry)?.rank || null] *)
Definition rank_in (league : list value) (m : value) : M value :=
  found <- find_first
             (fun x =>
                a <- getprop x "entry" ;;
                b <- getprop m "entry" ;;
                ret (VBool (strict_eq a b)))
             league ;;
  ret (or_else (optchain found "rank") VNull).

Definition managerRecord (w : world) (currentGW : value)
    (lmsManagers h2hManagers : list value) (m : value) : M value :=
  entry <- getprop m "entry" ;;
  entry_name <- getprop m "entry_name" ;;
  player_name <- getprop m "player_name" ;;
  rank <- getprop m "rank" ;;
  total <- getprop m "total" ;;
  event_total <- getprop m "event_total" ;;
  lms_rank <- rank_in lmsManagers m ;;
  h2h_rank <- rank_in h2hManagers m ;;
  t <- now w ;;
  ret (VObj [("manager_id", entry);
             ("gw", currentGW);
             ("team_name", entry_name);
             ("player_name", player_name);
             ("classic_rank", rank);
             ("classic_total", total);
             ("classic_gw_points", or_else event_total (VNum 0));
             ("lms_rank", lms_rank);
             ("h2h_rank", h2h_rank);
             ("last_updated", VStr (toISOString w t))]).

(** The [managerData] array of the handler: the reconciliation of the classic
    league with the two secondary leagues. *)
Definition managerData (w : world) (currentGW : value)
    (classicManagers lmsManagers h2hManagers : list value) : M (list value) :=
  map_m (managerRecord w currentGW lmsManagers h2hManagers) classicManagers.

Definition failure (error : exn) : response :=
  mkResponse 500 (VObj [("success", VBool false);
                        ("error", VStr (message error))]).

Definition success (currentGW : value) (managersProcessed : nat)
    (duration : Z) : response :=
  mkResponse 200 (VObj [("success", VBool true);
                        ("gw", currentGW);
                        ("managersProcessed", VNum (Z.of_nat managersProcessed));
                        ("duration", VStr (Z_to_string duration ++ "ms"))]).

Definition handler (fuel : nat) (w : world) (e : env) (req : request)
  : M response :=
  startTime <- now w ;;
  _ <- now w ;;
  try_catch
    ((if negb (supabase w e)
      then throw (Error "Supabase client not initialized")
      else ret tt) ;;;
     currentGW <- getCurrentGW w ;;
     leagues <- all_three w (fetchAllManagers fuel w classicLeagueId)
                  (fetchAllManagers fuel w lmsLeagueId)
                  (fetchAllManagers fuel w h2hLeagueId) ;;
     let '(classicManagers, lmsManagers, h2hManagers) := leagues in
     rows <- managerData w currentGW classicManagers lmsManagers h2hManagers ;;
     emit (EUpsert "manager_data" (VArr rows) "manager_id,gw") ;;;
     match upsert w "manager_data" (VArr rows) "manager_id,gw" with
     | UpsertThrows ex => throw ex
     | UpsertResolved (Some msg) =>
         throw (Error ("Supabase insert failed: " ++ msg))
     | UpsertResolved None =>
         endTime <- now w ;;
         ret (success currentGW (List.length rows) (endTime - startTime))
     end)
    (fun error => ret (failure error)).

End Manual.

(* ===================================================================== *)
(** ** [src/api/cron/sync-fpl-data.js]: the cron job with per-manager detail *)
(* ===================================================================== *)

Module Legacy.

Definition classicLeagueId : Z := 1229613.
Definition lmsLeagueId : Z := 1190208.
Definition h2hLeagueId : Z := 1190166.

(** The module-level [createClient] call is not guarded: when it throws, the
    module does not load and no handler runs. *)
Definition supabase (w : world) (e : env) : outcome unit :=
  match createClient w (SUPABASE_URL e) (SUPABASE_KEY e) with
  | None => Ret tt
  | Some ex => Throw ex
  end.

Definition fetchFPL (w : world) (endpoint : string) : M value :=
  let url := api_base ++ endpoint in
  emit (EFetch url) ;;;
  match fetch w url [] with
  | FetchReject e => throw e
  | FetchResponse st body =>
      if negb (is_ok st)
      then throw (Error ("FPL API error: " ++ Z_to_string st))
      else match body with
           | Some v => ret v
           | None => throw (SyntaxError "invalid JSON body")
           end
  end.

Definition getCurrentGW (w : world) : M value :=
  try_catch
    (bootstrap <- fetchFPL w "/bootstrap-static/" ;;
     events <- getprop bootstrap "events" ;;
     found <- call_find events (fun e => getprop e "is_current") ;;
     ret (or_else (optchain found "id") (VNum 11)))
    (fun _ => ret (VNum 11)).

Definition standings_endpoint (leagueId page : Z) : string :=
  "/leagues-classic/" ++ Z_to_string leagueId
    ++ "/standings/?page_standings=" ++ Z_to_string page.

(** The recursive paginator.  [managers] is declared before the [try]
    block and the [catch] block returns it as it is at the throw: still
    empty when the throw comes before the first [push] has run, and holding
    the records of this page when it comes from the second [push], the only
    statement after the first that can throw.  The inner [try_catch] is that
    second case. *)
Fixpoint getAllManagersFromLeague (fuel : nat) (w : world) (leagueId : Z)
    (pageStandings : Z) : M (list value) :=
  match fuel with
  | O => diverge
  | S fuel' =>
      try_catch
        (response <- fetchFPL w (standings_endpoint leagueId pageStandings) ;;
         standings <- getprop response "standings" ;;
         managers <- (if truthy (optchain standings "results")
                      then spread w (optchain standings "results")
                      else ret []) ;;
         try_catch
           (if truthy (optchain standings "has_next") then
              nextPageManagers <-
                getAllManagersFromLeague fuel' w leagueId (pageStandings + 1) ;;
              more <- spread w (VArr nextPageManagers) ;;
              ret (managers ++ more)%list
            else ret managers)
           (fun _ => ret managers))
        (fun _ => ret [])
  end.

Definition getManagerDetails (w : world) (managerId : value) : M value :=
  try_catch
    (fetchFPL w ("/entry/" ++ to_string managerId ++ "/"))
    (fun _ => ret VNull).

Definition getManagerGWPicks (w : world) (managerId gw : value) : M value :=
  try_catch
    (fetchFPL w ("/entry/" ++ to_string managerId ++ "/event/"
                   ++ to_string gw ++ "/picks/"))
    (fun _ => ret VNull).

(** [picks?.picks?.find(p => p.is_captain)] *)
Definition findCaptain (picks : value) : M value :=
  if nullish picks then ret VUndefined
  else
    let list := field picks "picks" in
    if nullish list then ret VUndefined
    else call_find list (fun p => getprop p "is_captain").

Definition managerRow (w : world) (manager details captainId : value)
  : M value :=
  manager_id <- getprop manager "entry" ;;
  entry_id <- getprop manager "entry" ;;
  player_name <- getprop manager "player_name" ;;
  entry_name <- getprop manager "entry_name" ;;
  total <- getprop manager "total" ;;
  rank <- getprop manager "rank" ;;
  event_total <- getprop manager "event_total" ;;
  last_name <- getprop details "last_name" ;;
  value_ <- getprop details "value" ;;
  bank <- getprop details "bank" ;;
  transfers_made <- getprop details "transfers_made" ;;
  t <- now w ;;
  ret (VObj [("manager_id", manager_id);
             ("entry_id", entry_id);
             ("manager_name", player_name);
             ("team_name", entry_name);
             ("total_points", total);
             ("overall_rank", rank);
             ("gw_points", or_else event_total (VNum 0));
             ("captain_id", captainId);
             ("captain_name", or_else last_name (VStr "Unknown"));
             ("value", or_else value_ (VNum 0));
             ("bank", or_else bank (VNum 0));
             ("transfers_made", or_else transfers_made (VNum 0));
             ("last_updated", VStr (toISOString w t))]).

(** [await supabase.from(table).upsert(rows, {onConflict})] with the resolved
    value dropped, as both call sites of this file do. *)
Definition upsert_ignoring_result (w : world) (table : string) (rows : value)
    (onConflict : string) : M unit :=
  emit (EUpsert table rows onConflict) ;;;
  match upsert w table rows onConflict with
  | UpsertThrows ex => throw ex
  | UpsertResolved _ => ret tt
  end.

(** The body of the [for (const manager of allManagers)] loop, with its own
    [try]/[catch].  The [catch] block logs [manager.entry], and so throws in
    its turn when [manager] is [null] or [undefined]. *)
Definition syncOneManager (w : world) (currentGW manager : value) : M unit :=
  try_catch
    (entry <- getprop manager "entry" ;;
     details <- getManagerDetails w entry ;;
     if negb (truthy details) then ret tt
     else
       entry' <- getprop manager "entry" ;;
       picks <- getManagerGWPicks w entry' currentGW ;;
       captain <- findCaptain picks ;;
       let captainId := or_else (optchain captain "element") VNull in
       row <- managerRow w manager details captainId ;;
       upsert_ignoring_result w "manager_data" row "manager_id")
    (fun _ => getprop manager "entry" ;;; ret tt).

Fixpoint syncEachManager (w : world) (currentGW : value)
    (allManagers : list value) : M unit :=
  match allManagers with
  | [] => ret tt
  | manager :: rest =>
      syncOneManager w currentGW manager ;;;
      syncEachManager w currentGW rest
  end.

Definition syncManagerData (fuel : nat) (w : world) : M value :=
  try_catch
    (currentGW <- getCurrentGW w ;;
     allManagers <- getAllManagersFromLeague fuel w classicLeagueId 1 ;;
     if (List.length allManagers =? 0)%nat then
       ret (VObj [("success", VBool false);
                  ("message", VStr "No managers found")])
     else
       syncEachManager w currentGW allManagers ;;;
       t <- now w ;;
       upsert_ignoring_result w "season_snapshot"
         (VObj [("id", VNum 1);
                ("current_gw", currentGW);
                ("updated_at", VStr (toISOString w t))])
         "id" ;;;
       ret (VObj [("success", VBool true);
                  ("managers", VNum (Z.of_nat (List.length allManagers)));
                  ("gw", currentGW)]))
    (fun error =>
       ret (VObj [("success", VBool false);
                  ("error", VStr (message error))])).

Definition unauthorized : response :=
  mkResponse 401 (VObj [("error", VStr "Unauthorized")]).

Definition handler (fuel : nat) (w : world) (e : env) (req : request)
  : M response :=
  if negb (opt_strict_eq (authorization req)
             (Some ("Bearer " ++ opt_to_string (CRON_SECRET e))))
  then ret unauthorized
  else
    result <- syncManagerData fuel w ;;
    ret (mkResponse 200 result).

(** One invocation of the deployed function: the module is loaded, then the
    handler runs. *)
Definition invoke (fuel : nat) (w : world) (e : env) (req : request)
  : M response :=
  match supabase w e with
  | Ret _ => handler fuel w e req
  | Throw ex => throw ex
  | Diverge => diverge
  end.

End Legacy.

(* ===================================================================== *)
(** ** Vocabulary of the statements *)
(* ===================================================================== *)

Definition standings_url (leagueId page : Z) : string :=
  api_base ++ "/leagues-classic/" ++ Z_to_string leagueId
    ++ "/standings/?page_standings=" ++ Z_to_string page.

(** The upstream answers [url] with a success status and a body whose
    [standings.results] is the array [records] and whose [standings.has_next]
    is truthy exactly when [more] holds. *)
Definition serves (w : world) (hdrs : list (string * string)) (url : string)
    (records : list value) (more : bool) : Prop :=
  exists st data,
    fetch w url hdrs = FetchResponse st (Some data)
    /\ is_ok st = true
    /\ field (field data "standings") "results" = VArr records
    /\ truthy (field (field data "standings") "has_next") = more.

(** The request for [url] fails: the connection is refused, the status is
    not a success status, or the body is not JSON. *)
Definition fails (w : world) (hdrs : list (string * string)) (url : string)
  : Prop :=
  match fetch w url hdrs with
  | FetchReject _ => True
  | FetchResponse st body => is_ok st = false \/ body = None
  end.

(** A list short enough to be spread into the arguments of one call. *)
Definition fits (w : world) (items : list value) : Prop :=
  too_many w items = false.

(** What the recursive paginator needs of the pages it collects: at every
    page, the records of the page fit into one call, and so do the records
    of all later pages together. *)
Fixpoint pushable (w : world) (pages : list (list value)) : Prop :=
  match pages with
  | [] => True
  | records :: rest =>
      fits w records /\ fits w (List.concat rest) /\ pushable w rest
  end.


(** The requests for [n] consecutive pages of a league, from page [first]. *)
Definition page_requests (leagueId first : Z) (n : nat) : list event :=
  map (fun i => EFetch (standings_url leagueId (first + Z.of_nat i))) (seq 0 n).

(** The parsed body of a successful answer. *)
Definition page_of (o : fetch_outcome) : option value :=
  match o with
  | FetchResponse st (Some data) => if is_ok st then Some data else None
  | _ => None
  end.

Definition results_of (data : value) : value :=
  field (field data "standings") "results".

Definition has_next_of (data : value) : value :=
  field (field data "standings") "has_next".

(** The answer to [url] is a page whose has-more flag is truthy. *)
Definition announces_more (w : world) (hdrs : list (string * string))
    (url : string) : bool :=
  match page_of (fetch w url hdrs) with
  | Some data => truthy (has_next_of data)
  | None => false
  end.

(** The answer to [url] is a page whose result field is present (truthy);
    the empty array counts as present. *)
Definition has_results (w : world) (hdrs : list (string * string))
    (url : string) : bool :=
  match page_of (fetch w url hdrs) with
  | Some data => truthy (results_of data)
  | None => false
  end.

(** The answer to [url], if it is a page at all, carries no record: its
    result field is absent or is the empty array. *)
Definition no_records (w : world) (hdrs : list (string * string))
    (url : string) : Prop :=
  forall data,
    page_of (fetch w url hdrs) = Some data ->
    results_of data = VArr [] \/ truthy (results_of data) = false.

(** A league without managers: no page the upstream serves for it carries a
    record, and page [1 + last] does not announce a further page. *)
Definition zero_managers (w : world) (hdrs : list (string * string))
    (leagueId : Z) (last : nat) : Prop :=
  (forall page, no_records w hdrs (standings_url leagueId page))
  /\ announces_more w hdrs (standings_url leagueId (1 + Z.of_nat last)) = false.

(** *** What one turn of each paginator computes from the upstream's answer *)

(** What one turn of the scheduled trigger's loop computes from the answer
    of the upstream. *)
Definition cron_turn_result (w : world) (o : fetch_outcome)
    (managers : list value) (page : Z) : list value * Z * value :=
  match page_of o with
  | None => (managers, page, VBool false)
  | Some data =>
      if truthy (results_of data) then
        match results_of data with
        | VArr items =>
            if too_many w items then (managers, page, VBool false)
            else ((managers ++ items)%list, page + 1, has_next_of data)
        | VStr str =>
            if too_many w (chars str) then (managers, page, VBool false)
            else ((managers ++ chars str)%list, page + 1, has_next_of data)
        | _ => (managers, page, VBool false)
        end
      else (managers, page, VBool false)
  end.

(** The same for the manual trigger's loop, which adds with [concat]. *)
Definition manual_turn_result (o : fetch_outcome) (managers : list value)
    (page : Z) : list value * Z * value :=
  match page_of o with
  | None => (managers, page, VBool false)
  | Some data =>
      if truthy (results_of data)
      then (concat_value managers (results_of data), page + 1, has_next_of data)
      else (managers, page, VBool false)
  end.

(** The records the recursive paginator takes from a page; [None] when
    spreading the result field throws. *)
Definition legacy_records (w : world) (data : value) : option (list value) :=
  if truthy (results_of data) then
    match results_of data with
    | VArr items => if too_many w items then None else Some items
    | VStr str => if too_many w (chars str) then None else Some (chars str)
    | _ => None
    end
  else Some [].

(** *** The period resolver *)

Definition bootstrap_url : string := api_base ++ "/bootstrap-static/".

(** The upstream answers the bootstrap request with a body whose [events]
    is the array [descriptors]. *)
Definition serves_bootstrap (w : world) (hdrs : list (string * string))
    (descriptors : list value) : Prop :=
  exists st data,
    fetch w bootstrap_url hdrs = FetchResponse st (Some data)
    /\ is_ok st = true
    /\ field data "events" = VArr descriptors.

(** A period descriptor flagged as current. *)
Definition flagged (d : value) : Prop :=
  nullish d = false /\ truthy (field d "is_current") = true.

(** What [events.find(e => e.is_current)?.id || 11] yields inside the [try]
    block, 11 standing also for the case where reading a descriptor throws. *)
Fixpoint current_id (descriptors : list value) : value :=
  match descriptors with
  | [] => VNum 11
  | d :: rest =>
      if nullish d then VNum 11
      else if truthy (field d "is_current") then or_else (field d "id") (VNum 11)
      else current_id rest
  end.

Definition period_of (o : fetch_outcome) : value :=
  match page_of o with
  | None => VNum 11
  | Some data =>
      match field data "events" with
      | VArr descriptors => current_id descriptors
      | _ => VNum 11
      end
  end.

(** What the period resolver owes its caller, [result] being what it
    returned: it returned a value; that value is 11 when the bootstrap request
    failed or no descriptor is flagged; and when [d] is the first flagged
    descriptor, it is the identifier of [d] if that is truthy and 11 if not. *)
Definition resolves (w : world) (hdrs : list (string * string))
    (result : outcome value) : Prop :=
  (exists v, result = Ret v)
  /\ (fails w hdrs bootstrap_url -> result = Ret (VNum 11))
  /\ (forall descriptors,
        serves_bootstrap w hdrs descriptors ->
        ((forall d, In d descriptors -> ~ flagged d) -> result = Ret (VNum 11))
        /\ (forall before d after,
              descriptors = (before ++ d :: after)%list ->
              Forall (fun y => nullish y = false
                               /\ truthy (field y "is_current") = false) before ->
              flagged d ->
              result = Ret (if truthy (field d "id") then field d "id"
                            else VNum 11))).

(** *** The per-manager requests of the detail sync *)

Definition details_url (manager : value) : string :=
  api_base ++ "/entry/" ++ to_string (field manager "entry") ++ "/".

Definition picks_url (manager gw : value) : string :=
  api_base ++ "/entry/" ++ to_string (field manager "entry") ++ "/event/"
    ++ to_string gw ++ "/picks/".

(** The row the detail sync writes for [manager]. *)
Definition legacy_row (w : world) (manager details captainId : value) (t : Z)
  : value :=
  VObj [("manager_id", field manager "entry");
        ("entry_id", field manager "entry");
        ("manager_name", field manager "player_name");
        ("team_name", field manager "entry_name");
        ("total_points", field manager "total");
        ("overall_rank", field manager "rank");
        ("gw_points", or_else (field manager "event_total") (VNum 0));
        ("captain_id", captainId);
        ("captain_name", or_else (field details "last_name") (VStr "Unknown"));
        ("value", or_else (field details "value") (VNum 0));
        ("bank", or_else (field details "bank") (VNum 0));
        ("transfers_made", or_else (field details "transfers_made") (VNum 0));
        ("last_updated", VStr (toISOString w t))].



(** What [getManagerDetails] and [getManagerGWPicks] return for the answer
    [o] of the upstream: the parsed body, or [null] when the request
    failed. *)
Definition body_or_null (o : fetch_outcome) : value :=
  match page_of o with
  | Some data => data
  | None => VNull
  end.

(** [list.find(p => p.is_captain)?.element || null]; [None] when reading
    [is_captain] throws, on an element that is [null] or [undefined]. *)
Fixpoint captain_in (list : list value) : option value :=
  match list with
  | [] => Some VNull
  | p :: rest =>
      if nullish p then None
      else if truthy (field p "is_captain")
           then Some (or_else (field p "element") VNull)
           else captain_in rest
  end.

(** [picks?.picks?.find(p => p.is_captain)?.element || null] for what
    [getManagerGWPicks] returned; [None] when the expression throws: the
    [picks] field is there but is no array, or [captain_in] throws. *)
Definition captain_id (picks : value) : option value :=
  if nullish picks then Some VNull
  else
    match field picks "picks" with
    | VUndefined | VNull => Some VNull
    | VArr list => captain_in list
    | _ => None
    end.

(** The state in which one turn of the per-manager loop leaves a record
    [manager]: after the details request alone when there are no details;
    after both requests when the captain expression throws; after both
    requests and the write of the row, built on one reading of the clock,
    otherwise. *)
Definition after_manager (w : world) (gw manager : value) (s : state)
  : state :=
  let details := body_or_null (fetch w (details_url manager) []) in
  if truthy details then
    match captain_id (body_or_null (fetch w (picks_url manager gw) [])) with
    | Some captainId =>
        mkState
          (trace s ++ [EFetch (details_url manager);
                       EFetch (picks_url manager gw);
                       EUpsert "manager_data"
                         (legacy_row w manager details captainId
                            (clock w (tick s)))
                         "manager_id"])
          (S (tick s))
    | None =>
        logged s [EFetch (details_url manager); EFetch (picks_url manager gw)]
    end
  else logged s [EFetch (details_url manager)].

(** A computation that answers within its budget, whatever the state. *)
Definition terminates {A} (m : M A) : Prop :=
  forall s, fst (m s) <> Diverge.

(** *** The bodies a trigger answers with *)

(** [{success: true, gw, managersProcessed, duration}] under status 200. *)
Definition success_response (r : response) : Prop :=
  exists gw n d,
    r = mkResponse 200 (VObj [("success", VBool true);
                              ("gw", gw);
                              ("managersProcessed", VNum n);
                              ("duration", VStr d)]).

(** [{success: false, error}] under status 500. *)
Definition failure_response (r : response) : Prop :=
  exists msg,
    r = mkResponse 500 (VObj [("success", VBool false);
                              ("error", VStr msg)]).

(** *** The reconciliation, written as a function of its three lists *)

(** The first record of [league] whose [entry] is strictly equal to [id]. *)
Fixpoint first_with_entry (id : value) (league : list value) : option value :=
  match league with
  | [] => None
  | x :: rest =>
      if strict_eq (field x "entry") id then Some x
      else first_with_entry id rest
  end.

(** The rank attached for one secondary league: the rank of the first record
    with the manager's identifier when that rank is truthy, else [null]. *)
Definition attached_rank (league : list value) (m : value) : value :=
  match first_with_entry (field m "entry") league with
  | Some x => if truthy (field x "rank") then field x "rank" else VNull
  | None => VNull
  end.

Definition manual_row (w : world) (currentGW : value)
    (lmsManagers h2hManagers : list value) (t : Z) (m : value) : value :=
  VObj [("manager_id", field m "entry");
        ("gw", currentGW);
        ("team_name", field m "entry_name");
        ("player_name", field m "player_name");
        ("classic_rank", field m "rank");
        ("classic_total", field m "total");
        ("classic_gw_points", or_else (field m "event_total") (VNum 0));
        ("lms_rank", attached_rank lmsManagers m);
        ("h2h_rank", attached_rank h2hManagers m);
        ("last_updated", VStr (toISOString w t))].

(** The rows for [classicManagers] when the clock has been read [n] times. *)
Fixpoint manual_rows (w : world) (currentGW : value)
    (lmsManagers h2hManagers : list value) (n : nat)
    (classicManagers : list value) : list value :=
  match classicManagers with
  | [] => []
  | m :: rest =>
      manual_row w currentGW lmsManagers h2hManagers (clock w n) m
        :: manual_rows w currentGW lmsManagers h2hManagers (S n) rest
  end.

(** [r] is what the spec asks to attach to [m] for [league], with the rank
    read through [|| null]: [null] when no record of [league] has the
    identifier of [m]; otherwise the rank of the first such record when it is
    truthy, and [null] when it is not. *)
Definition rank_attached (league : list value) (m r : value) : Prop :=
  ((forall x, In x league ->
              strict_eq (field x "entry") (field m "entry") = false) ->
   r = VNull)
  /\ (forall before x after,
        league = (before ++ x :: after)%list ->
        (forall y, In y before ->
                   strict_eq (field y "entry") (field m "entry") = false) ->
        strict_eq (field x "entry") (field m "entry") = true ->
        r = if truthy (field x "rank") then field x "rank" else VNull).

(** The values of one column of the rows a run returned. *)
Definition column (name : string) (o : outcome (list value))
  : option (list value) :=
  match o with
  | Ret rows => Some (map (fun row => field row name) rows)
  | _ => None
  end.

(** A list of records: no element is [null] or [undefined]. *)
Definition records (l : list value) : Prop :=
  Forall (fun v => nullish v = false) l.

(** *** Comparing the scheduled and the manual trigger *)

(** The row the scheduled trigger of [part_000] builds for [m]. *)
Definition cron_row (w : world) (currentGW : value) (t : Z) (m : value)
  : value :=
  VObj [("manager_id", field m "entry");
        ("manager_name", field m "player_name");
        ("team_name", field m "entry_name");
        ("gw", currentGW);
        ("gw_points", or_else (field m "event_total") (VNum 0));
        ("total_points", or_else (field m "total") (VNum 0));
        ("overall_rank", or_else (field m "rank") (VNum 0));
        ("last_updated", VStr (toISOString w t))].

Fixpoint cron_rows (w : world) (currentGW : value) (n : nat)
    (classicManagers : list value) : list value :=
  match classicManagers with
  | [] => []
  | m :: rest =>
      cron_row w currentGW (clock w n) m :: cron_rows w currentGW (S n) rest
  end.

(** What either trigger answers once the store has answered the write. *)
Definition finish_response (u : upsert_outcome) (currentGW : value)
    (managersProcessed : nat) (duration : Z) : response :=
  match u with
  | UpsertThrows ex => Cron.failure ex
  | UpsertResolved (Some msg) =>
      Cron.failure (Error ("Supabase insert failed: " ++ msg))
  | UpsertResolved None => Cron.success currentGW managersProcessed duration
  end.

(** The last steps of either handler, from the state [s] in which the rows
    are built: the write, and the answer with its duration. *)
Definition finish (w : world) (startTime : Z) (currentGW : value)
    (rows : list value) (s : state) : outcome response * state :=
  let u := upsert w "manager_data" (VArr rows) "manager_id,gw" in
  let written :=
    mkState (trace s ++ [EUpsert "manager_data" (VArr rows) "manager_id,gw"])
            (tick s + List.length rows) in
  (Ret (finish_response u currentGW (List.length rows)
          (clock w (tick written) - startTime)),
   match u with
   | UpsertResolved None => mkState (trace written) (S (tick written))
   | _ => written
   end).

(** Every standings page the upstream serves for the league has a result
    field that is absent, or an array of records short enough to be spread
    into one call. *)
Definition tidy (w : world) (leagueId : Z) : Prop :=
  forall page data,
    page_of (fetch w (standings_url leagueId page) Cron.headers) = Some data ->
    truthy (results_of data) = false
    \/ exists items,
         results_of data = VArr items /\ records items /\ fits w items.

(** Two worlds with the same upstream, the same store and the same engine.
    Their clocks and the timing of the upstream's answers may differ. *)
Definition same_upstream (w w' : world) : Prop :=
  (forall url hdrs, fetch w url hdrs = fetch w' url hdrs)
  /\ (forall table rows key, upsert w table rows key = upsert w' table rows key)
  /\ (forall url key, createClient w url key = createClient w' url key)
  /\ max_arguments w = max_arguments w'.

(** The URLs requested, in order. *)
Definition requests (tr : list event) : list string :=
  flat_map (fun ev => match ev with
                      | EFetch url => [url]
                      | EUpsert _ _ _ => []
                      end) tr.

(** The store writes, in order: table, rows, conflict key. *)
Definition writes (tr : list event) : list (string * value * string) :=
  flat_map (fun ev => match ev with
                      | EFetch _ => []
                      | EUpsert table rows key => [(table, rows, key)]
                      end) tr.

(** A row of the scheduled trigger and a row of the manual trigger for the
    same manager: the columns the two have in common agree, but for
    [last_updated], which each run reads from its clock; and the columns that
    differ in name only hold the same value. *)
Definition same_manager (scheduled manual : value) : Prop :=
  field scheduled "manager_id" = field manual "manager_id"
  /\ field scheduled "gw" = field manual "gw"
  /\ field scheduled "team_name" = field manual "team_name"
  /\ field scheduled "manager_name" = field manual "player_name"
  /\ field scheduled "gw_points" = field manual "classic_gw_points".

(* ===================================================================== *)
(** ** Concrete upstreams used to exercise the statements *)
(* ===================================================================== *)

Module Scenario.

Definition manager (entry rank total : Z) : value :=
  VObj [("entry", VNum entry); ("rank", VNum rank); ("total", VNum total)].

Definition standings_page (records : list value) (has_next : bool) : value :=
  VObj [("standings",
         VObj [("has_next", VBool has_next); ("results", VArr records)])].

Definition ok (data : value) : fetch_outcome := FetchResponse 200 (Some data).

Definition unavailable : fetch_outcome := FetchResponse 503 None.

Fixpoint route (routes : list (string * fetch_outcome)) (url : string)
  : fetch_outcome :=
  match routes with
  | [] => unavailable
  | (u, o) :: rest => if String.eqb u url then o else route rest url
  end.

(** A world that answers the listed URLs, whatever the request headers, and
    is unavailable elsewhere; the store accepts every write; the engine
    passes up to 125000 arguments to a call, about what V8 does with its
    default stack; the answers under [Promise.all] arrive for the three tasks
    in turn. *)
Definition serving (routes : list (string * fetch_outcome)) : world :=
  mkWorld (fun url _ => route routes url)
          (fun _ _ _ => UpsertResolved None)
          (fun _ _ => None)
          (fun n => 1000 + 5 * Z.of_nat n)
          (fun t => "T" ++ Z_to_string t)
          125000%N
          (fun n => n).


Definition three_then_down : world :=
  serving
    [(standings_url 7 1, ok (standings_page [manager 1 1 50; manager 2 2 40] true));
     (standings_url 7 2, ok (standings_page [manager 3 3 30] true));
     (standings_url 7 3, ok (standings_page [manager 4 4 20] true))].

(** The reconciliation scenario of the spec: two classic managers, the
    second of whom is also in the secondary league. *)
Definition primary : list value := [manager 1 1 50; manager 2 2 40].

Definition secondary : list value :=
  [VObj [("entry", VNum 2); ("rank", VNum 1)]].

(** A secondary league in which manager 2 holds rank 0. *)
Definition secondary_rank_zero : list value :=
  [VObj [("entry", VNum 2); ("rank", VNum 0)]].

Definition bootstrap (descriptors : list value) : value :=
  VObj [("events", VArr descriptors)].

Definition period (id : Z) (is_current : bool) : value :=
  VObj [("id", VNum id); ("is_current", VBool is_current)].

(** Periods 10 and 11, the second one current. *)
Definition season : world :=
  serving [(bootstrap_url, ok (bootstrap [period 10 false; period 11 true]))].

(** Periods 11 and 12, the second one current. *)
Definition season12 : world :=
  serving [(bootstrap_url, ok (bootstrap [period 11 false; period 12 true]))].

(** A season whose current period has identifier 0. *)
Definition season0 : world :=
  serving [(bootstrap_url, ok (bootstrap [period 0 true; period 1 false]))].

Definition configured : env :=
  mkEnv (Some "https://db.example") (Some "service-key") (Some "s3cret").

(** No store credentials in the environment. *)
Definition no_credentials : env := mkEnv None None (Some "s3cret").

Definition with_bearer (token : string) : request :=
  mkRequest None (Some ("Bearer " ++ token)).

(** The classic league with three managers on one page, period 12 current.
    Manager 1 has details and picks, with player 99 as captain; the details
    of manager 2 cannot be fetched; manager 3 has details but no picks. *)
Definition squad : world :=
  serving
    [(bootstrap_url, ok (bootstrap [period 11 false; period 12 true]));
     (standings_url 1229613 1,
      ok (standings_page [manager 1 1 50; manager 2 2 40; manager 3 3 30] false));
     (details_url (manager 1 1 50), ok (VObj [("last_name", VStr "Kane")]));
     (picks_url (manager 1 1 50) (VNum 12),
      ok (VObj [("picks",
                 VArr [VObj [("element", VNum 7); ("is_captain", VBool false)];
                       VObj [("element", VNum 99); ("is_captain", VBool true)]])]));
     (details_url (manager 3 3 30), ok (VObj [("last_name", VStr "Saka")]))].


(** The classic league of [squad] with [null] standing where the second of
    its three records should be. *)
Definition gap : world :=
  serving
    [(bootstrap_url, ok (bootstrap [period 11 false; period 12 true]));
     (standings_url 1229613 1,
      ok (standings_page [manager 1 1 50; VNull; manager 3 3 30] false));
     (details_url (manager 1 1 50), ok (VObj [("last_name", VStr "Kane")]));
     (details_url (manager 3 3 30), ok (VObj [("last_name", VStr "Saka")]))].

(** The upstream of [squad] in front of a store whose every call throws. *)
Definition store_down : world :=
  mkWorld (fetch squad)
          (fun _ _ _ => UpsertThrows (Error "fetch failed"))
          (createClient squad) (clock squad) (toISOString squad)
          (max_arguments squad) (arrival squad).

(** The upstream of [squad] with a client constructor that throws when the
    URL or the key is missing. *)
Definition strict_client : world :=
  mkWorld (fetch squad) (upsert squad)
          (fun url key =>
             match url, key with
             | Some _, Some _ => None
             | None, _ => Some (Error "supabaseUrl is required.")
             | _, None => Some (Error "supabaseKey is required.")
             end)
          (clock squad) (toISOString squad)
          (max_arguments squad) (arrival squad).

(** The classic league with a single manager, who is also ranked second in
    the LMS league. *)
Definition solo : world :=
  serving
    [(bootstrap_url, ok (bootstrap [period 11 false; period 12 true]));
     (standings_url 1229613 1,
      ok (standings_page
            [VObj [("entry", VNum 1); ("player_name", VStr "Ann");
                   ("entry_name", VStr "FC"); ("rank", VNum 1);
                   ("total", VNum 50); ("event_total", VNum 5)]] false));
     (standings_url 1190208 1,
      ok (standings_page [VObj [("entry", VNum 1); ("rank", VNum 2)]] false))].

(** The upstream, the store and the engine of [solo], with another clock and
    another timing of the answers. *)
Definition solo_later : world :=
  mkWorld (fetch solo) (upsert solo) (createClient solo)
          (fun n => 90000 + 7 * Z.of_nat n)
          (toISOString solo) (max_arguments solo)
          (fun n => 2 * n)%nat.



(** League 7 again: an empty first page that announces a second page. *)
Definition empty_then_more : world :=
  serving
    [(standings_url 7 1, ok (standings_page [] true));
     (standings_url 7 2, ok (standings_page [manager 9 1 10] false))].

(** League 7 without managers: one page, empty, the last. *)
Definition empty_league : world :=
  serving [(standings_url 7 1, ok (standings_page [] false))].

End Scenario.

(* ===================================================================== *)
(** ** Further vocabulary: complete pagination and malformed pages *)
(* ===================================================================== *)

(** The upstream serves [pages] as pages [first], [first + 1], ... of the
    league; every page but the last announces a further page. *)
Definition serves_to_the_end (w : world) (hdrs : list (string * string))
    (leagueId first : Z) (pages : list (list value)) : Prop :=
  pages <> []
  /\ forall i records,
       nth_error pages i = Some records ->
       serves w hdrs (standings_url leagueId (first + Z.of_nat i)) records
         (negb (S i =? List.length pages)%nat).

(** A result field that is present but is neither an array nor a string:
    spreading it throws. *)
Definition non_iterable (v : value) : Prop :=
  truthy v = true
  /\ match v with
     | VArr _ | VStr _ => False
     | _ => True
     end.

(* ===================================================================== *)
(** ** Further concrete upstreams *)
(* ===================================================================== *)

Module Fixture.

(** League 7 in two pages, the second being the last. *)
Definition two_pages : list (list value) :=
  [[Scenario.manager 1 1 50; Scenario.manager 2 2 40]; [Scenario.manager 3 3 30]].

Definition complete_league : world :=
  Scenario.serving
    [(standings_url 7 1,
      Scenario.ok (Scenario.standings_page
                     [Scenario.manager 1 1 50; Scenario.manager 2 2 40] true));
     (standings_url 7 2,
      Scenario.ok (Scenario.standings_page [Scenario.manager 3 3 30] false))].

(** League 7 whose first page has an object where the result list should
    be. *)
Definition odd_results : value := VObj [("total", VNum 3)].

Definition odd_page : value :=
  VObj [("standings",
         VObj [("has_next", VBool false); ("results", odd_results)])].

Definition odd_league : world :=
  Scenario.serving [(standings_url 7 1, Scenario.ok odd_page)].

(** An upstream whose three leagues are empty, period 12 current. *)
Definition preseason : world :=
  Scenario.serving
    [(bootstrap_url,
      Scenario.ok (Scenario.bootstrap
                     [Scenario.period 11 false; Scenario.period 12 true]));
     (standings_url 1229613 1, Scenario.ok (Scenario.standings_page [] false));
     (standings_url 1190208 1, Scenario.ok (Scenario.standings_page [] false));
     (standings_url 1190166 1, Scenario.ok (Scenario.standings_page [] false))].

(** The upstream of [Scenario.squad] without any manager detail, in front of
    a store that refuses every write with an error. *)
Definition refusing_store : world :=
  mkWorld
    (fetch (Scenario.serving
              [(bootstrap_url,
                Scenario.ok (Scenario.bootstrap
                               [Scenario.period 11 false;
                                Scenario.period 12 true]));
               (standings_url 1229613 1,
                Scenario.ok (Scenario.standings_page
                               [Scenario.manager 1 1 50;
                                Scenario.manager 2 2 40] false))]))
    (fun _ _ _ => UpsertResolved (Some "permission denied"))
    (fun _ _ => None)
    (clock Scenario.squad) (toISOString Scenario.squad)
    (max_arguments Scenario.squad) (arrival Scenario.squad).

(** [decodeURIComponent] on strings without escapes. *)
Definition plain_decode (str : string) : exn + string := inr str.

(** A decoder that rejects every string, as [decodeURIComponent] rejects a
    malformed escape. *)
Definition failing_decode (str : string) : exn + string :=
  inl (mkExn "URIError" "URI malformed").

End Fixture.

(* ===================================================================== *)
(** ** Further vocabulary: the secret check *)
(* ===================================================================== *)

(** The run got past the secret check: it did not throw, and what it
    answered, if it answered, is not a 401. *)
Definition past_the_check (o : outcome response) : Prop :=
  match o with
  | Ret r => status r <> 401
  | Throw _ => False
  | Diverge => True
  end.

(** The run was stopped at the secret check. *)
Definition stopped_at_the_check (o : outcome response) : Prop :=
  o = Ret (mkResponse 401 (VObj [("error", VStr "Unauthorized")])).

(* ===================================================================== *)
(** ** Further vocabulary: computations that leave the trace alone *)
(* ===================================================================== *)

(** A computation that issues no request and no write, and answers. *)
Definition silent {A} (m : M A) : Prop :=
  forall s, trace (snd (m s)) = trace s /\ fst (m s) <> Diverge.

(** How a trigger that builds its rows with [build] ends, from state [s]:
    either building the rows threw, nothing was written and the answer is the
    failure body; or the rows were written in one call and the answer follows
    the store's answer to that call. *)
Definition ends_on_the_store (w : world) (currentGW : value)
    (run : outcome response * state) (s : state) : Prop :=
  (trace (snd run) = trace s
   /\ exists r, fst run = Ret r /\ failure_response r)
  \/ (exists rows d,
        trace (snd run)
        = (trace s ++ [EUpsert "manager_data" (VArr rows) "manager_id,gw"])%list
        /\ Forall (fun row => field row "gw" = currentGW) rows
        /\ fst run
           = Ret (finish_response
                    (upsert w "manager_data" (VArr rows) "manager_id,gw")
                    currentGW (List.length rows) d)).

(** What a run of the part_000 or part_001 handler from state [s] comes to,
    [hdrs] being the headers it sends upstream.  After requests only, it
    either stops with the failure body (or exceeds its budget) and nothing is
    written; or it writes once, rows that all carry the resolved period, and
    answers as the store answered that write: the success body with the number
    of rows written, the failure body with ['Supabase insert failed: ...'],
    or the failure body with the message of what the store call threw. *)
Definition answers_by_the_store (w : world) (hdrs : list (string * string))
    (s : state) (run : outcome response * state) : Prop :=
  exists pre,
    writes pre = []
    /\ ((trace (snd run) = (trace s ++ pre)%list
         /\ match fst run with
            | Ret r => failure_response r
            | Throw _ => False
            | Diverge => True
            end)
        \/ (exists rows d,
              trace (snd run)
              = (trace s ++ pre
                   ++ [EUpsert "manager_data" (VArr rows) "manager_id,gw"])%list
              /\ Forall (fun row =>
                           field row "gw"
                           = period_of (fetch w bootstrap_url hdrs)) rows
              /\ fst run
                 = Ret (finish_response
                          (upsert w "manager_data" (VArr rows) "manager_id,gw")
                          (period_of (fetch w bootstrap_url hdrs))
                          (List.length rows) d))).

(* ===================================================================== *)
(** ** Further vocabulary: empty leagues and whole runs *)
(* ===================================================================== *)

(** Within the budget [fuel], neither iterative paginator runs on for ever
    on the league. *)
Definition answers_within (fuel : nat) (w : world) (leagueId : Z) : Prop :=
  forall s,
    fst (Cron.fetchAllManagers fuel w leagueId s) <> Diverge
    /\ fst (Manual.fetchAllManagers fuel w leagueId s) <> Diverge.

(** The events of a run from [s] that ends in [s']. *)
Definition issued (s s' : state) (ev : list event) : Prop :=
  trace s' = (trace s ++ ev)%list.

(** Writes of one row object each to [manager_data] under the conflict key
    [manager_id]. *)
Definition manager_writes (ws : list (string * value * string)) : Prop :=
  Forall (fun x => fst (fst x) = "manager_data" /\ snd x = "manager_id") ws.

(** At most [r] requests and [n] writes, the writes being manager rows. *)
Definition bounded (r n : nat) (ev : list event) : Prop :=
  (List.length (requests ev) <= r)%nat
  /\ (List.length (writes ev) <= n)%nat
  /\ manager_writes (writes ev).

(** A computation that answers and whose events, from any state, satisfy
    [P]. *)
Definition effects (P : list event -> Prop) {A} (m : M A) : Prop :=
  forall s,
    fst (m s) <> Diverge
    /\ exists ev, issued s (snd (m s)) ev /\ P ev.



(* ===================================================================== *)
(** ** [src/api/proxy.js]: the passthrough proxy *)
(* ===================================================================== *)

Module Proxy.

(** The request as the handler reads it: [req.method] and
    [req.query.endpoint], a string or [undefined]. *)
Record request : Type := mkRequest {
  method : string;
  endpoint : option string
}.

(** What was sent: the status, the headers set on the response, and the JSON
    body, [None] after [res.status(200).end()]. *)
Record reply : Type := mkReply {
  reply_status : Z;
  reply_headers : list (string * string);
  reply_body : option value
}.

(** [res.setHeader(name, value)]: a header already set is replaced. *)
Fixpoint setHeader (name v : string) (hs : list (string * string))
  : list (string * string) :=
  match hs with
  | [] => [(name, v)]
  | (n, old) :: rest =>
      if String.eqb n name then (n, v) :: rest
      else (n, old) :: setHeader name v rest
  end.

Fixpoint getHeader (name : string) (hs : list (string * string))
  : option string :=
  match hs with
  | [] => None
  | (n, v) :: rest => if String.eqb n name then Some v else getHeader name rest
  end.

Definition cors : list (string * string) :=
  setHeader "Access-Control-Allow-Headers"
    "X-CSRF-Token, X-Requested-With, Accept, Accept-Version, Content-Length, Content-MD5, Content-Type, Date, X-Api-Version"
    (setHeader "Access-Control-Allow-Methods"
       "GET,OPTIONS,PATCH,DELETE,POST,PUT"
       (setHeader "Access-Control-Allow-Origin" "*"
          (setHeader "Access-Control-Allow-Credentials" "true" []))).

Definition headers : list (string * string) :=
  [("User-Agent", "Mozilla/5.0 (Windows NT 10.0; Win64; x64) AppleWebKit/537.36");
   ("Accept", "application/json")].

Definition cache_hint : string :=
  "public, s-maxage=30, stale-while-revalidate=60".

(** [decodeURIComponent] is a built-in of the language; the handler takes it
    as [decode], which yields the decoded string or the [URIError] thrown on
    a malformed escape. *)
Definition handler (w : world) (decode : string -> exn + string)
    (req : request) : M reply :=
  let hs := cors in
  if String.eqb (method req) "OPTIONS" then ret (mkReply 200 hs None)
  else
    try_catch
      (if negb (opt_truthy (endpoint req)) then
         ret (mkReply 400 hs
                (Some (VObj [("error", VStr "Missing endpoint parameter")])))
       else
         path <- match decode (opt_to_string (endpoint req)) with
                 | inr path => ret path
                 | inl ex => throw ex
                 end ;;
         let fplUrl := api_base ++ path in
         emit (EFetch fplUrl) ;;;
         match fetch w fplUrl headers with
         | FetchReject ex => throw ex
         | FetchResponse st body =>
             if negb (is_ok st)
             then throw (Error ("FPL API returned " ++ Z_to_string st))
             else match body with
                  | None => throw (SyntaxError "invalid JSON body")
                  | Some data =>
                      ret (mkReply 200 (setHeader "Cache-Control" cache_hint hs)
                             (Some data))
                  end
         end)
      (fun error =>
         ret (mkReply 500 hs
                (Some (VObj [("error", VStr "Failed to fetch FPL data");
                             ("message", VStr (message error))])))).

End Proxy.

(** The four cross-origin headers are set on the reply. *)
Definition has_cors (r : Proxy.reply) : Prop :=
  Proxy.getHeader "Access-Control-Allow-Credentials" (Proxy.reply_headers r)
  = Some "true"
  /\ Proxy.getHeader "Access-Control-Allow-Origin" (Proxy.reply_headers r)
     = Some "*"
  /\ Proxy.getHeader "Access-Control-Allow-Methods" (Proxy.reply_headers r)
     = Some "GET,OPTIONS,PATCH,DELETE,POST,PUT"
  /\ Proxy.getHeader "Access-Control-Allow-Headers" (Proxy.reply_headers r)
     <> None.

(** The reply relays an upstream body: status 200 with a JSON body. *)
Definition relays (r : Proxy.reply) : Prop :=
  Proxy.reply_status r = 200 /\ Proxy.reply_body r <> None.

(* ===================================================================== *)
(** ** [src/unnamed/part_002]: the diagnostic probe *)
(* ===================================================================== *)

Module Diagnostic.

(** What [supabase.from(table).select('*').eq(column, v).single()] does: it
    resolves to [{data, error}], where [error] is [null] or carries a code
    and a message, or the call throws.  A read is not recorded in the
    trace. *)
Inductive select_outcome : Type :=
| SelectResolved (data : value) (error : option (string * string))
| SelectThrows (e : exn).

(** What the probe needs beyond [world]: the store's answer to the read, and
    the [stack] property of an error, a string chosen by the engine. *)
Record runtime : Type := mkRuntime {
  select_single : string -> string -> value -> select_outcome;
  stack_of : exn -> value
}.

(** The [diagnostics] object: its properties in insertion order. *)
Definition diag : Type := list (string * value).

(** [diagnostics.name = v]: an existing property keeps its place. *)
Fixpoint assign (name : string) (v : value) (d : diag) : diag :=
  match d with
  | [] => [(name, v)]
  | (k, old) :: rest =>
      if String.eqb k name then (k, v) :: rest
      else (k, old) :: assign name v rest
  end.

(** Code that also reads and updates [diagnostics]; what it threw comes with
    the object as it was at the throw, which is what the [catch] block
    reads. *)
Definition D (A : Type) : Type := diag -> state -> (outcome A * diag) * state.

Definition dret {A} (a : A) : D A := fun d s => ((Ret a, d), s).

Definition dbind {A B} (m : D A) (k : A -> D B) : D B :=
  fun d s =>
    match m d s with
    | ((Ret a, d'), s') => k a d' s'
    | ((Throw e, d'), s') => ((Throw e, d'), s')
    | ((Diverge, d'), s') => ((Diverge, d'), s')
    end.

Definition lift {A} (m : M A) : D A :=
  fun d s => let (o, s') := m s in ((o, d), s').

Definition set (name : string) (v : value) : D unit :=
  fun d s => ((Ret tt, assign name v d), s).

Definition get (name : string) : D value :=
  fun d s => ((Ret (lookup name d), d), s).

Definition snapshot : D diag := fun d s => ((Ret d, d), s).

Notation "x <~ m ;; k" := (dbind m (fun x => k))
  (at level 100, m at next level, right associativity) : js_scope.
Notation "m ~;; k" := (dbind m (fun _ => k))
  (at level 100, right associativity) : js_scope.

(** [v.length] *)
Definition length_prop (v : value) : value :=
  match v with
  | VArr items => VNum (Z.of_nat (List.length items))
  | VStr str => VNum (Z.of_nat (String.length str))
  | VObj fields => lookup "length" fields
  | _ => VUndefined
  end.

(** Step 1: the environment variables. *)
Definition env_check (e : env) : D unit :=
  set "step" (VStr "env_check") ~;;
  let supabaseUrl := SUPABASE_URL e in
  let supabaseKey := SUPABASE_KEY e in
  (if negb (opt_truthy supabaseUrl) || negb (opt_truthy supabaseKey)
   then lift (throw (Error "Missing Supabase credentials. SUPABASE_URL or SUPABASE_KEY not set"))
   else dret tt) ~;;
  set "env"
    (VObj [("supabaseUrl",
            VStr (if opt_truthy supabaseUrl then "SET" else "MISSING"));
           ("supabaseKey",
            VStr (if opt_truthy supabaseKey
                  then "SET (length: "
                         ++ Z_to_string
                              (Z.of_nat (String.length (opt_to_string supabaseKey)))
                         ++ ")"
                  else "MISSING"))]).

(** Step 2: the store client. *)
Definition supabase_init (w : world) (e : env) : D unit :=
  set "step" (VStr "supabase_init") ~;;
  (match createClient w (SUPABASE_URL e) (SUPABASE_KEY e) with
   | Some ex => lift (throw ex)
   | None => dret tt
   end) ~;;
  set "supabase" (VStr "Client initialized").

(** Step 3: the bootstrap resource of the upstream. *)
Definition fpl_api_test (w : world) : D unit :=
  set "step" (VStr "fpl_api_test") ~;;
  lift (emit (EFetch bootstrap_url)) ~;;
  fplData <~ lift (match fetch w bootstrap_url [] with
                   | FetchReject ex => throw ex
                   | FetchResponse st body =>
                       if negb (is_ok st)
                       then throw (Error ("FPL API returned " ++ Z_to_string st))
                       else match body with
                            | Some v => ret v
                            | None => throw (SyntaxError "invalid JSON body")
                            end
                   end) ;;
  events <~ lift (getprop fplData "events") ;;
  found <~ lift (call_find events (fun e => getprop e "is_current")) ;;
  set "fpl"
    (VObj [("status", VStr "SUCCESS");
           ("currentGW", or_else (optchain found "id") (VStr "Unknown"))]).

(** [leagueData.standings?.results?.length] *)
Definition results_length (standings : value) : value :=
  if nullish standings then VUndefined
  else
    let results := field standings "results" in
    if nullish results then VUndefined else length_prop results.

(** Step 4: the first standings page of the classic league. *)
Definition league_api_test (w : world) : D unit :=
  set "step" (VStr "league_api_test") ~;;
  let leagueUrl := standings_url 1229613 1 in
  lift (emit (EFetch leagueUrl)) ~;;
  leagueData <~ lift (match fetch w leagueUrl [] with
                      | FetchReject ex => throw ex
                      | FetchResponse st body =>
                          if negb (is_ok st)
                          then throw (Error ("League API returned "
                                               ++ Z_to_string st))
                          else match body with
                               | Some v => ret v
                               | None => throw (SyntaxError "invalid JSON body")
                               end
                      end) ;;
  standings <~ lift (getprop leagueData "standings") ;;
  league <~ lift (getprop leagueData "league") ;;
  set "league"
    (VObj [("status", VStr "SUCCESS");
           ("totalManagers", or_else (results_length standings) (VNum 0));
           ("leagueName", or_else (optchain league "name") (VStr "Unknown"))]).

Definition testData (w : world) (currentGW : value) (t : Z) : value :=
  VObj [("manager_id", VNum 999999);
        ("manager_name", VStr "TEST_DIAGNOSTIC");
        ("team_name", VStr "Test Team");
        ("gw", currentGW);
        ("gw_points", VNum 0);
        ("total_points", VNum 0);
        ("overall_rank", VNum 999999);
        ("last_updated", VStr (toISOString w t))].

(** Steps 5 and 6: the test row is written, then read back.  The step name
    is not changed for the read. *)
Definition supabase_insert (w : world) (rt : runtime) : D unit :=
  set "step" (VStr "supabase_insert") ~;;
  fpl <~ get "fpl" ;;
  currentGW <~ lift (getprop fpl "currentGW") ;;
  t <~ lift (now w) ;;
  let row := testData w currentGW t in
  lift (emit (EUpsert "manager_data" row "manager_id,gw")) ~;;
  lift (match upsert w "manager_data" row "manager_id,gw" with
        | UpsertThrows ex => throw ex
        | UpsertResolved (Some msg) =>
            throw (Error ("Supabase insert failed: " ++ msg))
        | UpsertResolved None => ret tt
        end) ~;;
  set "supabase_insert" (VStr "SUCCESS") ~;;
  verifyData <~ lift (match select_single rt "manager_data" "manager_id"
                              (VNum 999999) with
                      | SelectThrows ex => throw ex
                      | SelectResolved data None => ret data
                      | SelectResolved data (Some (code, msg)) =>
                          if negb (String.eqb code "PGRST116")
                          then throw (Error ("Supabase query failed: " ++ msg))
                          else ret data
                      end) ;;
  set "supabase_verify"
    (VStr (if truthy verifyData then "DATA FOUND" else "NO DATA")).

(** The [try] block. *)
Definition steps (w : world) (rt : runtime) (e : env) : D response :=
  env_check e ~;;
  supabase_init w e ~;;
  fpl_api_test w ~;;
  league_api_test w ~;;
  supabase_insert w rt ~;;
  diagnostics <~ snapshot ;;
  dret (mkResponse 200
          (VObj [("success", VBool true);
                 ("message", VStr "All diagnostic tests passed!");
                 ("diagnostics", VObj diagnostics)])).

(** [diagnostics.errors.push(entry)] *)
Definition push_error (entry : value) (d : diag) : diag :=
  match lookup "errors" d with
  | VArr errors => assign "errors" (VArr (errors ++ [entry])) d
  | _ => d
  end.

Definition handler (w : world) (rt : runtime) (e : env) : M response :=
  t <- now w ;;
  fun s =>
    match steps w rt e
            [("timestamp", VStr (toISOString w t));
             ("step", VStr "init");
             ("errors", VArr [])] s with
    | ((Ret r, _), s') => (Ret r, s')
    | ((Throw error, d), s') =>
        (Ret (mkResponse 500
                (VObj [("success", VBool false);
                       ("error", VStr (message error));
                       ("diagnostics",
                        VObj (push_error
                                (VObj [("step", lookup "step" d);
                                       ("message", VStr (message error));
                                       ("stack", stack_of rt error)])
                                d))])),
         s')
    | ((Diverge, _), s') => (Diverge, s')
    end.

End Diagnostic.

(** How far a run of the probe got when it stopped at [step], in events:
    nothing before the upstream is probed, the bootstrap request, then the
    standings request, then the write of the test row. *)
Definition events_at (step : string) (ev : list event) : Prop :=
  ((step = "env_check" \/ step = "supabase_init") /\ ev = [])
  \/ (step = "fpl_api_test" /\ ev = [EFetch bootstrap_url])
  \/ (step = "league_api_test"
      /\ ev = [EFetch bootstrap_url; EFetch (standings_url 1229613 1)])
  \/ (step = "supabase_insert"
      /\ exists row,
           ev = [EFetch bootstrap_url; EFetch (standings_url 1229613 1);
                 EUpsert "manager_data" row "manager_id,gw"]
           /\ field row "manager_id" = VNum 999999
           /\ field row "manager_name" = VStr "TEST_DIAGNOSTIC").

(** The failure body of the probe: [{success: false, error, diagnostics}],
    where [diagnostics.step] is [step] and [diagnostics.errors] holds the
    single entry [{step, message, stack}] with the same step and message. *)
Definition probe_failure (r : response) (step msg : string) : Prop :=
  status r = 500
  /\ field (body r) "success" = VBool false
  /\ field (body r) "error" = VStr msg
  /\ field (field (body r) "diagnostics") "step" = VStr step
  /\ exists stack,
       field (field (body r) "diagnostics") "errors"
       = VArr [VObj [("step", VStr step); ("message", VStr msg);
                     ("stack", stack)]].

(** The success body of the probe. *)
Definition probe_success (r : response) : Prop :=
  status r = 200
  /\ field (body r) "success" = VBool true
  /\ field (field (body r) "diagnostics") "step" = VStr "supabase_insert"
  /\ field (field (body r) "diagnostics") "errors" = VArr []
  /\ field (field (body r) "diagnostics") "supabase_insert" = VStr "SUCCESS".

(** What every run of the probe from [s] comes to: an answer, events that
    match the step it reached, and either the success body, reached only
    after the test row was written, or the failure body naming that step. *)
Definition probe_outcome (s : state) (run : outcome response * state) : Prop :=
  exists r ev step,
    fst run = Ret r
    /\ issued s (snd run) ev
    /\ events_at step ev
    /\ ((step = "supabase_insert" /\ probe_success r)
        \/ exists msg, probe_failure r step msg).

(** What [events.find(e => e.is_current)] yields on descriptors none of
    which is [null] or [undefined]. *)
Fixpoint first_current (descriptors : list value) : value :=
  match descriptors with
  | [] => VUndefined
  | d :: rest =>
      if truthy (field d "is_current") then d else first_current rest
  end.

(** [fplData.events.find(e => e.is_current)?.id || 'Unknown'] *)
Definition probe_gw (descriptors : list value) : value :=
  or_else (optchain (first_current descriptors) "id") (VStr "Unknown").

(** Nothing stands between the probe and the store: the credentials are
    set, the client is created, the bootstrap request is answered with the
    period descriptors [descriptors] and the standings request with an
    object. *)
Definition probe_ready (w : world) (e : env) (descriptors : list value)
  : Prop :=
  opt_truthy (SUPABASE_URL e) = true
  /\ opt_truthy (SUPABASE_KEY e) = true
  /\ createClient w (SUPABASE_URL e) (SUPABASE_KEY e) = None
  /\ serves_bootstrap w [] descriptors
  /\ records descriptors
  /\ exists st data,
       fetch w (standings_url 1229613 1) [] = FetchResponse st (Some data)
       /\ is_ok st = true
       /\ nullish data = false.

(** The test row of a run of the probe that starts at [s]. *)
Definition probe_row (w : world) (descriptors : list value) (s : state)
  : value :=
  Diagnostic.testData w (probe_gw descriptors) (clock w (S (tick s))).

(** The events of a run of the probe that reaches the store. *)
Definition probe_trace (w : world) (descriptors : list value) (s : state)
  : list event :=
  [EFetch bootstrap_url; EFetch (standings_url 1229613 1);
   EUpsert "manager_data" (probe_row w descriptors s) "manager_id,gw"].

(** The [diagnostics] object of an answer of the probe. *)
Definition diagnostics_of (r : response) : value :=
  field (body r) "diagnostics".

Module Bench.

(** A store in which the read finds no row, which it reports with the code
    PGRST116. *)
Definition row_absent : Diagnostic.runtime :=
  Diagnostic.mkRuntime
    (fun _ _ _ =>
       Diagnostic.SelectResolved VNull (Some ("PGRST116", "0 rows")))
    (fun _ => VUndefined).

Definition periods : list value :=
  [Scenario.period 11 false; Scenario.period 12 true].

(** A bootstrap resource without a current period, and league 1229613. *)
Definition between_seasons : world :=
  Scenario.serving
    [(bootstrap_url,
      Scenario.ok (Scenario.bootstrap
                     [Scenario.period 37 false; Scenario.period 38 false]));
     (standings_url 1229613 1,
      Scenario.ok (Scenario.standings_page [] false))].

End Bench.

(* ===================================================================== *)
(** ** Basic facts about the monad and the value operations *)
(* ===================================================================== *)

Lemma field_array_not_nullish (v : value) (name : string) (items : list value) :
  field v name = VArr items -> nullish v = false.
Proof. destruct v; simpl; intros H; try discriminate; reflexivity. Qed.

Lemma truthy_not_nullish (v : value) : truthy v = true -> nullish v = false.
Proof. destruct v; simpl; intros H; try discriminate; reflexivity. Qed.

Lemma falsy_field (v : value) (name : string) :
  truthy v = false -> field v name = VUndefined.
Proof. destruct v; simpl; intros H; try discriminate; reflexivity. Qed.

Lemma getprop_defined (v : value) (name : string) (s : state) :
  nullish v = false -> getprop v name s = (Ret (field v name), s).
Proof. intros H. unfold getprop. rewrite H. reflexivity. Qed.

Lemma optchain_defined (v : value) (name : string) :
  nullish v = false -> optchain v name = field v name.
Proof. intros H. unfold optchain. rewrite H. reflexivity. Qed.

Lemma standings_url_cron (leagueId page : Z) :
  api_base ++ Cron.standings_endpoint leagueId page = standings_url leagueId page.
Proof. reflexivity. Qed.

Lemma standings_url_manual (leagueId page : Z) :
  api_base ++ Manual.standings_endpoint leagueId page = standings_url leagueId page.
Proof. reflexivity. Qed.

Lemma standings_url_legacy (leagueId page : Z) :
  api_base ++ Legacy.standings_endpoint leagueId page = standings_url leagueId page.
Proof. reflexivity. Qed.

Section MonadLaws.
Context {A B : Type}.

Lemma bind_Ret (m : M A) (k : A -> M B) s a s' :
  m s = (Ret a, s') -> bind m k s = k a s'.
Proof. intros H. unfold bind. rewrite H. reflexivity. Qed.

Lemma bind_Throw (m : M A) (k : A -> M B) s e s' :
  m s = (Throw e, s') -> bind m k s = (Throw e, s').
Proof. intros H. unfold bind. rewrite H. reflexivity. Qed.

Lemma bind_Diverge (m : M A) (k : A -> M B) s s' :
  m s = (Diverge, s') -> bind m k s = (Diverge, s').
Proof. intros H. unfold bind. rewrite H. reflexivity. Qed.

Lemma try_catch_Ret (m : M A) (h : exn -> M A) s a s' :
  m s = (Ret a, s') -> try_catch m h s = (Ret a, s').
Proof. intros H. unfold try_catch. rewrite H. reflexivity. Qed.

Lemma try_catch_Throw (m : M A) (h : exn -> M A) s e s' :
  m s = (Throw e, s') -> try_catch m h s = h e s'.
Proof. intros H. unfold try_catch. rewrite H. reflexivity. Qed.

End MonadLaws.

Lemma logged_logged s es es' : logged (logged s es) es' = logged s (es ++ es').
Proof. unfold logged. cbn [trace tick]. rewrite <- app_assoc. reflexivity. Qed.

Lemma logged_nil s : logged s [] = s.
Proof. destruct s. unfold logged. cbn [trace tick]. rewrite app_nil_r. reflexivity. Qed.

Lemma ret_run {A} (a : A) s : ret a s = (Ret a, s).
Proof. reflexivity. Qed.

Lemma throw_run {A} (e : exn) s : @throw A e s = (Throw e, s).
Proof. reflexivity. Qed.

Lemma emit_run e s : emit e s = (Ret tt, logged s [e]).
Proof. reflexivity. Qed.

Create HintDb run discriminated.
#[local] Hint Resolve getprop_defined ret_run throw_run emit_run : run.

(** Run the head of a [bind] or of a [try_catch] with a fact from [run]. *)
Ltac run_head :=
  first [ erewrite bind_Ret by (eauto with run)
        | erewrite bind_Throw by (eauto with run)
        | erewrite try_catch_Ret by (eauto with run)
        | erewrite try_catch_Throw by (eauto with run) ].

(** *** The upstream client *)

Lemma cron_fetchFPL_ok w endpoint s st data :
  fetch w (api_base ++ endpoint) Cron.headers = FetchResponse st (Some data) ->
  is_ok st = true ->
  Cron.fetchFPL w endpoint s
  = (Ret data, logged s [EFetch (api_base ++ endpoint)]).
Proof.
  intros Hf Hok. unfold Cron.fetchFPL. run_head.
  rewrite Hf, Hok. reflexivity.
Qed.


Lemma manual_fetchFPL_cron : Manual.fetchFPL = Cron.fetchFPL.
Proof. reflexivity. Qed.



(** *** One turn of the iterative paginators *)

Lemma serves_defined w hdrs url records more :
  serves w hdrs url records more ->
  exists st data,
    fetch w url hdrs = FetchResponse st (Some data) /\ is_ok st = true
    /\ nullish data = false /\ nullish (field data "standings") = false
    /\ field (field data "standings") "results" = VArr records
    /\ truthy (field (field data "standings") "has_next") = more.
Proof.
  intros (st & data & Hfetch & Hok & Hres & Hmore).
  exists st, data. repeat split; try assumption.
  - destruct data; simpl in *; try discriminate; reflexivity.
  - exact (field_array_not_nullish _ _ _ Hres).
Qed.

Lemma fits_shorter w items items' :
  (List.length items' <= List.length items)%nat ->
  fits w items -> fits w items'.
Proof.
  unfold fits, too_many. rewrite !N.ltb_ge. lia.
Qed.

Lemma too_many_nil w : too_many w [] = false.
Proof. unfold too_many. rewrite N.ltb_ge. cbn. lia. Qed.

Lemma fits_nil w : fits w [].
Proof. unfold fits, too_many. rewrite N.ltb_ge. cbn. lia. Qed.

Lemma spread_fits w items s :
  fits w items -> spread w (VArr items) s = (Ret items, s).
Proof. intros H. cbn [spread]. rewrite H. reflexivity. Qed.

Lemma fits_pushable w pages :
  fits w (hd [] pages) -> fits w (List.concat (tl pages)) -> pushable w pages.
Proof.
  destruct pages as [|records rest]; [intros; exact I|].
  cbn [hd tl pushable]. intros Hhd Htl. split; [exact Hhd|]. split; [exact Htl|].
  clear Hhd. induction rest as [|p rest IH]; [exact I|].
  cbn [pushable List.concat] in *.
  split; [|split].
  - eapply fits_shorter; [|exact Htl]. rewrite length_app. lia.
  - eapply fits_shorter; [|exact Htl]. rewrite length_app. lia.
  - apply IH. eapply fits_shorter; [|exact Htl]. rewrite length_app. lia.
Qed.

Lemma cron_turn_serves w leagueId managers page s records more :
  serves w Cron.headers (standings_url leagueId page) records more ->
  fits w records ->
  exists has_next,
    truthy has_next = more
    /\ Cron.fetchAllManagers_turn w leagueId managers page s
       = (Ret ((managers ++ records)%list, page + 1, has_next),
          logged s [EFetch (standings_url leagueId page)]).
Proof.
  intros H Hfit. apply serves_defined in H.
  destruct H as (st & data & Hfetch & Hok & Hdata & Hst & Hres & Hmore).
  exists (field (field data "standings") "has_next"). split; [exact Hmore|].
  unfold Cron.fetchAllManagers_turn.
  apply try_catch_Ret.
  rewrite <- standings_url_cron in Hfetch |- *.
  rewrite (bind_Ret _ _ _ _ _ (cron_fetchFPL_ok _ _ s _ _ Hfetch Hok)).
  run_head.
  rewrite (optchain_defined _ _ Hst), Hres. cbn [truthy].
  run_head. rewrite Hres.
  rewrite (bind_Ret _ _ _ _ _ (spread_fits w records _ Hfit)). run_head.
  reflexivity.
Qed.


(** *** Requests for consecutive pages *)

Lemma page_requests_succ leagueId first n :
  page_requests leagueId first (S n)
  = EFetch (standings_url leagueId first) :: page_requests leagueId (first + 1) n.
Proof.
  unfold page_requests. cbn [seq map]. rewrite Z.add_0_r. f_equal.
  rewrite <- seq_shift, map_map. apply map_ext. intros i.
  do 2 f_equal. lia.
Qed.



(** *** The iterative paginator of the scheduled trigger *)


(** *** The iterative paginator of the manual trigger *)

Lemma manual_turn_serves w leagueId managers page s records more :
  serves w Manual.headers (standings_url leagueId page) records more ->
  exists has_next,
    truthy has_next = more
    /\ Manual.fetchAllManagers_turn w leagueId managers page s
       = (Ret ((managers ++ records)%list, page + 1, has_next),
          logged s [EFetch (standings_url leagueId page)]).
Proof.
  intros H. apply serves_defined in H.
  destruct H as (st & data & Hfetch & Hok & Hdata & Hst & Hres & Hmore).
  exists (field (field data "standings") "has_next"). split; [exact Hmore|].
  unfold Manual.fetchAllManagers_turn.
  apply try_catch_Ret.
  rewrite <- standings_url_manual in Hfetch |- *.
  rewrite manual_fetchFPL_cron.
  rewrite (bind_Ret _ _ _ _ _ (cron_fetchFPL_ok _ _ s _ _ Hfetch Hok)).
  run_head.
  assert (Ht : truthy (field data "standings") = true).
  { destruct (field data "standings"); simpl in *; try discriminate; reflexivity. }
  rewrite Ht. run_head. rewrite Hres. cbn [truthy].
  run_head. run_head. rewrite Hres. reflexivity.
Qed.



(** *** The recursive paginator *)


(* ===================================================================== *)
(** ** The paginator under a failing page *)
(* ===================================================================== *)




(* ===================================================================== *)
(** ** When the paginator advances *)
(* ===================================================================== *)

Lemma cron_turn_run w leagueId managers page s :
  Cron.fetchAllManagers_turn w leagueId managers page s
  = (Ret (cron_turn_result w
            (fetch w (standings_url leagueId page) Cron.headers) managers page),
     logged s [EFetch (standings_url leagueId page)]).
Proof.
  unfold Cron.fetchAllManagers_turn, Cron.fetchFPL, cron_turn_result, page_of,
    results_of, has_next_of.
  rewrite standings_url_cron.
  unfold try_catch, bind. rewrite emit_run.
  destruct (fetch w (standings_url leagueId page) Cron.headers) as [e|st [data|]];
    [reflexivity| |destruct (is_ok st); reflexivity].
  destruct (is_ok st); [|reflexivity]. cbn [negb].
  destruct data as [| | | | | |fields]; try reflexivity.
  rewrite ret_run. unfold getprop at 1. cbn [nullish field]. rewrite ret_run.
  destruct (lookup "standings" fields) as [| | | | | |sfields]; try reflexivity.
  unfold optchain. cbn [nullish field].
  destruct (lookup "results" sfields) as [| |b|n|str|items|o] eqn:Hres;
    cbn [truthy]; try reflexivity;
    [ destruct b | destruct (negb (n =? 0))
    | destruct (negb (String.eqb str EmptyString)) | | ];
    try reflexivity;
    unfold getprop; cbn [nullish field]; rewrite ret_run, Hres;
    cbn [spread];
    repeat match goal with
           | |- context [too_many w ?l] => destruct (too_many w l)
           end;
    reflexivity.
Qed.

Lemma manual_turn_run w leagueId managers page s :
  Manual.fetchAllManagers_turn w leagueId managers page s
  = (Ret (manual_turn_result
            (fetch w (standings_url leagueId page) Manual.headers) managers page),
     logged s [EFetch (standings_url leagueId page)]).
Proof.
  unfold Manual.fetchAllManagers_turn, Manual.fetchFPL, manual_turn_result,
    page_of, results_of, has_next_of.
  rewrite standings_url_manual.
  unfold try_catch, bind. rewrite emit_run.
  destruct (fetch w (standings_url leagueId page) Manual.headers)
    as [e|st [data|]];
    [reflexivity| |destruct (is_ok st); reflexivity].
  destruct (is_ok st); [|reflexivity]. cbn [negb].
  destruct data as [| | | | | |fields]; try reflexivity.
  rewrite ret_run. unfold getprop at 1. cbn [nullish field]. rewrite ret_run.
  set (st1 := lookup "standings" fields).
  destruct (truthy st1) eqn:Ht.
  - rewrite (getprop_defined _ _ _ (truthy_not_nullish _ Ht)).
    destruct (truthy (field st1 "results")); [|reflexivity].
    rewrite !(getprop_defined _ _ _ (truthy_not_nullish _ Ht)). reflexivity.
  - rewrite ret_run, Ht, (falsy_field _ "results" Ht). reflexivity.
Qed.

Lemma legacy_unfold fuel w leagueId page s :
  Legacy.getAllManagersFromLeague (S fuel) w leagueId page s
  = let s1 := logged s [EFetch (standings_url leagueId page)] in
    match page_of (fetch w (standings_url leagueId page) []) with
    | None => (Ret [], s1)
    | Some data =>
        match legacy_records w data with
        | None => (Ret [], s1)
        | Some items =>
            if truthy (has_next_of data) then
              match Legacy.getAllManagersFromLeague fuel w leagueId (page + 1) s1 with
              | (Ret next, s2) =>
                  (Ret (if too_many w next then items
                        else (items ++ next)%list), s2)
              | (Throw _, s2) => (Ret items, s2)
              | (Diverge, s2) => (Diverge, s2)
              end
            else (Ret items, s1)
        end
    end.
Proof.
  cbn [Legacy.getAllManagersFromLeague].
  unfold Legacy.fetchFPL, legacy_records, page_of, results_of, has_next_of.
  rewrite standings_url_legacy.
  unfold try_catch, bind. rewrite emit_run. cbv zeta.
  destruct (fetch w (standings_url leagueId page) []) as [e|st [data|]];
    [reflexivity| |destruct (is_ok st); reflexivity].
  destruct (is_ok st); [|reflexivity]. cbn [negb].
  destruct data as [| | | | | |fields]; try reflexivity.
  rewrite ret_run. unfold getprop at 1. cbn [nullish field]. rewrite ret_run.
  set (st1 := lookup "standings" fields).
  assert (Hopt : forall name, optchain st1 name = field st1 name).
  { intros name. unfold optchain. destruct st1; reflexivity. }
  rewrite !Hopt.
  assert (Hopt' : optchain st1 "has_next" = field st1 "has_next")
    by apply Hopt.
  destruct (truthy (field st1 "results")) eqn:Ht.
  - destruct (field st1 "results") as [| |b|n|str|items|o]; cbn [spread];
      repeat match goal with
             | |- context [too_many w ?l] => destruct (too_many w l) eqn:?
             end;
      rewrite ?throw_run, ?ret_run; try reflexivity;
      (destruct (truthy (field st1 "has_next")); [|reflexivity]);
      (destruct (Legacy.getAllManagersFromLeague fuel w leagueId (page + 1) _)
         as [[next|e|] s2]; try reflexivity);
      cbn [spread]; destruct (too_many w next); reflexivity.
  - rewrite ret_run.
    destruct (truthy (field st1 "has_next")); [|reflexivity].
    destruct (Legacy.getAllManagersFromLeague fuel w leagueId (page + 1) _)
      as [[next|e|] s2]; try reflexivity.
    cbn [spread]. destruct (too_many w next); reflexivity.
Qed.

(* ===================================================================== *)
(** ** A page too long for one call *)
(* ===================================================================== *)




Lemma cron_turn_result_advances w o managers page managers' page' hasMore :
  cron_turn_result w o managers page = (managers', page', hasMore) ->
  truthy hasMore = true ->
  page' = page + 1
  /\ exists data, page_of o = Some data
                  /\ truthy (has_next_of data) = true
                  /\ truthy (results_of data) = true.
Proof.
  unfold cron_turn_result. intros H Ht.
  destruct (page_of o) as [data|];
    [|injection H as <- <- <-; discriminate].
  destruct (truthy (results_of data)) eqn:Hr;
    [|injection H as <- <- <-; discriminate].
  destruct (results_of data) eqn:Hv;
    repeat match type of H with
           | context [too_many w ?l] => destruct (too_many w l)
           end;
    injection H as <- <- <-;
    try discriminate;
    (split; [reflexivity|]); exists data; rewrite ?Hv; auto.
Qed.

Lemma manual_turn_result_advances o managers page managers' page' hasMore :
  manual_turn_result o managers page = (managers', page', hasMore) ->
  truthy hasMore = true ->
  page' = page + 1
  /\ exists data, page_of o = Some data
                  /\ truthy (has_next_of data) = true
                  /\ truthy (results_of data) = true.
Proof.
  unfold manual_turn_result. intros H Ht.
  destruct (page_of o) as [data|];
    [|injection H as <- <- <-; discriminate].
  destruct (truthy (results_of data)) eqn:Hr;
    injection H as <- <- <-; [|discriminate].
  split; [reflexivity|]. exists data; auto.
Qed.

Lemma cron_loop_requests w leagueId fuel :
  forall managers first s,
  exists k,
    snd (Cron.fetchAllManagers_loop fuel w leagueId managers first s)
    = logged s (page_requests leagueId first k)
    /\ forall i, (S i < k)%nat ->
         let url := standings_url leagueId (first + Z.of_nat i) in
         announces_more w Cron.headers url = true
         /\ has_results w Cron.headers url = true.
Proof.
  induction fuel as [|fuel IH]; intros managers first s.
  - exists 0%nat. split; [cbn; now rewrite logged_nil | intros i Hi; lia].
  - cbn [Cron.fetchAllManagers_loop].
    rewrite (bind_Ret _ _ _ _ _ (cron_turn_run w leagueId managers first s)).
    destruct (cron_turn_result w _ managers first) as [[managers' page'] hasMore]
      eqn:Hturn.
    destruct (truthy hasMore) eqn:Hmore.
    + destruct (cron_turn_result_advances _ _ _ _ _ _ _ Hturn Hmore)
        as (-> & data & Hpage & Hnext & Hres).
      destruct (IH managers' (first + 1)
                  (logged s [EFetch (standings_url leagueId first)]))
        as (k & Hk & Hadv).
      exists (S k). split.
      * rewrite Hk, logged_logged, page_requests_succ. reflexivity.
      * intros [|i] Hi; cbv zeta.
        -- rewrite Z.add_0_r. unfold announces_more, has_results.
           rewrite Hpage. auto.
        -- replace (first + Z.of_nat (S i)) with (first + 1 + Z.of_nat i) by lia.
           apply Hadv. lia.
    + exists 1%nat. split.
      * rewrite page_requests_succ. reflexivity.
      * intros i Hi. lia.
Qed.

Lemma manual_loop_requests w leagueId fuel :
  forall managers first s,
  exists k,
    snd (Manual.fetchAllManagers_loop fuel w leagueId managers first s)
    = logged s (page_requests leagueId first k)
    /\ forall i, (S i < k)%nat ->
         let url := standings_url leagueId (first + Z.of_nat i) in
         announces_more w Manual.headers url = true
         /\ has_results w Manual.headers url = true.
Proof.
  induction fuel as [|fuel IH]; intros managers first s.
  - exists 0%nat. split; [cbn; now rewrite logged_nil | intros i Hi; lia].
  - cbn [Manual.fetchAllManagers_loop].
    rewrite (bind_Ret _ _ _ _ _ (manual_turn_run w leagueId managers first s)).
    destruct (manual_turn_result _ managers first) as [[managers' page'] hasMore]
      eqn:Hturn.
    destruct (truthy hasMore) eqn:Hmore.
    + destruct (manual_turn_result_advances _ _ _ _ _ _ Hturn Hmore)
        as (-> & data & Hpage & Hnext & Hres).
      destruct (IH managers' (first + 1)
                  (logged s [EFetch (standings_url leagueId first)]))
        as (k & Hk & Hadv).
      exists (S k). split.
      * rewrite Hk, logged_logged, page_requests_succ. reflexivity.
      * intros [|i] Hi; cbv zeta.
        -- rewrite Z.add_0_r. unfold announces_more, has_results.
           rewrite Hpage. auto.
        -- replace (first + Z.of_nat (S i)) with (first + 1 + Z.of_nat i) by lia.
           apply Hadv. lia.
    + exists 1%nat. split.
      * rewrite page_requests_succ. reflexivity.
      * intros i Hi. lia.
Qed.

Lemma legacy_requests w leagueId fuel :
  forall first s,
  exists k,
    snd (Legacy.getAllManagersFromLeague fuel w leagueId first s)
    = logged s (page_requests leagueId first k)
    /\ forall i, (S i < k)%nat ->
         announces_more w [] (standings_url leagueId (first + Z.of_nat i)) = true.
Proof.
  induction fuel as [|fuel IH]; intros first s.
  - exists 0%nat. split; [cbn; now rewrite logged_nil | intros i Hi; lia].
  - rewrite legacy_unfold. cbv zeta.
    assert (Hone : exists k : nat,
               logged s [EFetch (standings_url leagueId first)]
               = logged s (page_requests leagueId first k)
               /\ forall i, (S i < k)%nat ->
                    announces_more w [] (standings_url leagueId (first + Z.of_nat i))
                    = true).
    { exists 1%nat. split; [now rewrite page_requests_succ | intros i Hi; lia]. }
    destruct (page_of (fetch w (standings_url leagueId first) [])) as [data|]
      eqn:Hpage; [|exact Hone].
    destruct (legacy_records w data) as [items|]; [|exact Hone].
    destruct (truthy (has_next_of data)) eqn:Hnext; [|exact Hone].
    destruct (IH (first + 1) (logged s [EFetch (standings_url leagueId first)]))
      as (k & Hk & Hadv).
    exists (S k). split.
    + destruct (Legacy.getAllManagersFromLeague fuel w leagueId (first + 1) _)
        as [[next|e|] s2]; cbn [snd] in Hk |- *;
        rewrite Hk, logged_logged, page_requests_succ; reflexivity.
    + intros [|i] Hi.
      * rewrite Z.add_0_r. unfold announces_more. rewrite Hpage. exact Hnext.
      * replace (first + Z.of_nat (S i)) with (first + 1 + Z.of_nat i) by lia.
        apply Hadv. lia.
Qed.

(** *** Leagues without managers *)

Lemma cron_turn_result_zero w o managers page :
  (forall data, page_of o = Some data ->
                results_of data = VArr [] \/ truthy (results_of data) = false) ->
  exists page' hasMore,
    cron_turn_result w o managers page = (managers, page', hasMore)
    /\ (truthy hasMore = true ->
        page' = page + 1
        /\ exists data, page_of o = Some data /\ truthy (has_next_of data) = true).
Proof.
  intros H. unfold cron_turn_result.
  destruct (page_of o) as [data|];
    [|exists page, (VBool false); split; [reflexivity|discriminate]].
  destruct (H data eq_refl) as [Hr|Hr]; rewrite Hr.
  - cbn [truthy]. rewrite too_many_nil, app_nil_r.
    exists (page + 1), (has_next_of data). split; [reflexivity|].
    intros Ht. split; [reflexivity|]. exists data. auto.
  - exists page, (VBool false); split; [reflexivity|discriminate].
Qed.

Lemma manual_turn_result_zero o managers page :
  (forall data, page_of o = Some data ->
                results_of data = VArr [] \/ truthy (results_of data) = false) ->
  exists page' hasMore,
    manual_turn_result o managers page = (managers, page', hasMore)
    /\ (truthy hasMore = true ->
        page' = page + 1
        /\ exists data, page_of o = Some data /\ truthy (has_next_of data) = true).
Proof.
  intros H. unfold manual_turn_result.
  destruct (page_of o) as [data|];
    [|exists page, (VBool false); split; [reflexivity|discriminate]].
  destruct (H data eq_refl) as [Hr|Hr]; rewrite Hr.
  - cbn [truthy concat_value]. rewrite app_nil_r.
    exists (page + 1), (has_next_of data). split; [reflexivity|].
    intros Ht. split; [reflexivity|]. exists data. auto.
  - exists page, (VBool false); split; [reflexivity|discriminate].
Qed.

Lemma cron_loop_zero w leagueId :
  (forall page, no_records w Cron.headers (standings_url leagueId page)) ->
  forall d fuel first managers s,
    (d < fuel)%nat ->
    announces_more w Cron.headers (standings_url leagueId (first + Z.of_nat d))
    = false ->
    fst (Cron.fetchAllManagers_loop fuel w leagueId managers first s)
    = Ret managers.
Proof.
  intros Hzero. induction d as [|d IH]; intros fuel first managers s Hfuel Hlast;
    (destruct fuel as [|fuel]; [lia|]);
    cbn [Cron.fetchAllManagers_loop];
    rewrite (bind_Ret _ _ _ _ _ (cron_turn_run w leagueId managers first s));
    destruct (cron_turn_result_zero w
                (fetch w (standings_url leagueId first) Cron.headers)
                managers first (Hzero first))
      as (page' & hasMore & -> & Hadv);
    destruct (truthy hasMore) eqn:Hmore; try reflexivity;
    destruct (Hadv eq_refl) as (-> & data & Hpage & Hnext).
  - rewrite Z.add_0_r in Hlast. unfold announces_more in Hlast.
    rewrite Hpage in Hlast. congruence.
  - apply IH; [lia|].
    replace (first + 1 + Z.of_nat d) with (first + Z.of_nat (S d)) by lia.
    exact Hlast.
Qed.

Lemma manual_loop_zero w leagueId :
  (forall page, no_records w Manual.headers (standings_url leagueId page)) ->
  forall d fuel first managers s,
    (d < fuel)%nat ->
    announces_more w Manual.headers (standings_url leagueId (first + Z.of_nat d))
    = false ->
    fst (Manual.fetchAllManagers_loop fuel w leagueId managers first s)
    = Ret managers.
Proof.
  intros Hzero. induction d as [|d IH]; intros fuel first managers s Hfuel Hlast;
    (destruct fuel as [|fuel]; [lia|]);
    cbn [Manual.fetchAllManagers_loop];
    rewrite (bind_Ret _ _ _ _ _ (manual_turn_run w leagueId managers first s));
    destruct (manual_turn_result_zero
                (fetch w (standings_url leagueId first) Manual.headers)
                managers first (Hzero first))
      as (page' & hasMore & -> & Hadv);
    destruct (truthy hasMore) eqn:Hmore; try reflexivity;
    destruct (Hadv eq_refl) as (-> & data & Hpage & Hnext).
  - rewrite Z.add_0_r in Hlast. unfold announces_more in Hlast.
    rewrite Hpage in Hlast. congruence.
  - apply IH; [lia|].
    replace (first + 1 + Z.of_nat d) with (first + Z.of_nat (S d)) by lia.
    exact Hlast.
Qed.

Lemma legacy_records_zero w data :
  results_of data = VArr [] \/ truthy (results_of data) = false ->
  legacy_records w data = Some [].
Proof.
  unfold legacy_records. intros [H|H]; rewrite H; cbn [truthy];
    rewrite ?too_many_nil; reflexivity.
Qed.

Lemma legacy_zero w leagueId :
  (forall page, no_records w [] (standings_url leagueId page)) ->
  forall d fuel first s,
    (d < fuel)%nat ->
    announces_more w [] (standings_url leagueId (first + Z.of_nat d)) = false ->
    fst (Legacy.getAllManagersFromLeague fuel w leagueId first s) = Ret [].
Proof.
  intros Hzero. induction d as [|d IH]; intros fuel first s Hfuel Hlast;
    (destruct fuel as [|fuel]; [lia|]);
    rewrite legacy_unfold; cbv zeta;
    pose proof (Hzero first) as Hz; unfold no_records in Hz;
    (destruct (page_of (fetch w (standings_url leagueId first) [])) as [data|]
       eqn:Hpage; [|reflexivity]);
    rewrite (legacy_records_zero w data (Hz data eq_refl));
    destruct (truthy (has_next_of data)) eqn:Hnext; try reflexivity.
  - rewrite Z.add_0_r in Hlast. unfold announces_more in Hlast.
    rewrite Hpage in Hlast. congruence.
  - assert (Hrec : fst (Legacy.getAllManagersFromLeague fuel w leagueId (first + 1)
                          (logged s [EFetch (standings_url leagueId first)]))
                   = Ret []).
    { apply IH; [lia|].
      replace (first + 1 + Z.of_nat d) with (first + Z.of_nat (S d)) by lia.
      exact Hlast. }
    destruct (Legacy.getAllManagersFromLeague fuel w leagueId (first + 1) _)
      as [[next|e|] s2]; cbn [fst] in Hrec; try discriminate.
    injection Hrec as ->. rewrite too_many_nil. reflexivity.
Qed.

(** C2, as the spec states it, fails: the first page of this league has an
    empty result list and a true has-more flag, and the paginator goes on to
    request page 2 and returns its record. *)
Lemma paginator_advances_after_empty_page :
  fetch Scenario.empty_then_more (standings_url 7 1) Cron.headers
  = Scenario.ok (Scenario.standings_page [] true)
  /\ results_of (Scenario.standings_page [] true) = VArr []
  /\ Cron.fetchAllManagers 3 Scenario.empty_then_more 7 initial
     = (Ret [Scenario.manager 9 1 10], logged initial (page_requests 7 1 2))
  /\ Legacy.getAllManagersFromLeague 3 Scenario.empty_then_more 7 1 initial
     = (Ret [Scenario.manager 9 1 10], logged initial (page_requests 7 1 2)).
Proof. repeat split; vm_compute; reflexivity. Qed.

(** C2, amended.  Every page a paginator requests after the first follows a
    page whose has-more flag is truthy and, for the two iterative paginators,
    whose result field is present (an empty list counts as present); the
    recursive paginator asks for the flag only.  For a league without
    managers whose pagination ends, each paginator returns the empty list and
    does not throw. *)
Theorem paginator_advance_condition
    (w : world) (leagueId : Z) (fuel : nat) (s : state) :
  (exists k,
      snd (Cron.fetchAllManagers fuel w leagueId s)
      = logged s (page_requests leagueId 1 k)
      /\ forall i, (S i < k)%nat ->
           let url := standings_url leagueId (1 + Z.of_nat i) in
           announces_more w Cron.headers url = true
           /\ has_results w Cron.headers url = true)
  /\ (exists k,
      snd (Manual.fetchAllManagers fuel w leagueId s)
      = logged s (page_requests leagueId 1 k)
      /\ forall i, (S i < k)%nat ->
           let url := standings_url leagueId (1 + Z.of_nat i) in
           announces_more w Manual.headers url = true
           /\ has_results w Manual.headers url = true)
  /\ (exists k,
      snd (Legacy.getAllManagersFromLeague fuel w leagueId 1 s)
      = logged s (page_requests leagueId 1 k)
      /\ forall i, (S i < k)%nat ->
           announces_more w [] (standings_url leagueId (1 + Z.of_nat i)) = true)
  /\ (forall last,
        (last < fuel)%nat ->
        zero_managers w Cron.headers leagueId last ->
        zero_managers w [] leagueId last ->
        fst (Cron.fetchAllManagers fuel w leagueId s) = Ret []
        /\ fst (Manual.fetchAllManagers fuel w leagueId s) = Ret []
        /\ fst (Legacy.getAllManagersFromLeague fuel w leagueId 1 s) = Ret []).
Proof.
  split; [apply cron_loop_requests|].
  split; [apply manual_loop_requests|].
  split; [apply legacy_requests|].
  intros last Hfuel [Hz1 Hl1] [Hz2 Hl2]. repeat split.
  - exact (cron_loop_zero w leagueId Hz1 last fuel 1 [] s Hfuel Hl1).
  - exact (manual_loop_zero w leagueId Hz1 last fuel 1 [] s Hfuel Hl1).
  - exact (legacy_zero w leagueId Hz2 last fuel 1 s Hfuel Hl2).
Qed.

Lemma empty_league_zero hdrs : zero_managers Scenario.empty_league hdrs 7 0.
Proof.
  split; [|reflexivity].
  intros page data. unfold Scenario.empty_league, Scenario.serving.
  cbn [fetch Scenario.route].
  destruct (String.eqb (standings_url 7 1) (standings_url 7 page)).
  - cbn. intros H. injection H as <-. left. reflexivity.
  - cbn. discriminate.
Defined.

Lemma paginator_advance_condition_witness :
  fst (Cron.fetchAllManagers 2 Scenario.empty_league 7 initial) = Ret []
  /\ fst (Manual.fetchAllManagers 2 Scenario.empty_league 7 initial) = Ret []
  /\ fst (Legacy.getAllManagersFromLeague 2 Scenario.empty_league 7 1 initial)
     = Ret [].
Proof.
  refine (proj2 (proj2 (proj2
            (paginator_advance_condition Scenario.empty_league 7 2 initial)))
            0%nat _ (empty_league_zero _) (empty_league_zero _)).
  lia.
Defined.

(* ===================================================================== *)
(** ** The reconciliation of the manual trigger *)
(* ===================================================================== *)

Lemma rank_in_run league m s :
  records league -> nullish m = false ->
  Manual.rank_in league m s = (Ret (attached_rank league m), s).
Proof.
  intros Hl Hm. unfold Manual.rank_in, attached_rank.
  assert (Hfind :
    find_first (fun x => a <- getprop x "entry" ;;
                         b <- getprop m "entry" ;;
                         ret (VBool (strict_eq a b))) league s
    = (Ret match first_with_entry (field m "entry") league with
           | Some x => x
           | None => VUndefined
           end, s)).
  { induction Hl as [|x rest Hx Hrest IH]; [reflexivity|].
    cbn [find_first first_with_entry].
    rewrite (bind_Ret _ _ s
               (VBool (strict_eq (field x "entry") (field m "entry"))) s).
    - cbn [truthy].
      destruct (strict_eq (field x "entry") (field m "entry"));
        [reflexivity | exact IH].
    - cbv beta.
      rewrite (bind_Ret _ _ _ _ _ (getprop_defined x "entry" s Hx)).
      rewrite (bind_Ret _ _ _ _ _ (getprop_defined m "entry" s Hm)).
      reflexivity. }
  rewrite (bind_Ret _ _ _ _ _ Hfind).
  destruct (first_with_entry (field m "entry") league) as [x|] eqn:Hx;
    [|reflexivity].
  assert (Hdef : nullish x = false).
  { clear Hfind. induction Hl as [|y rest Hy Hrest IH]; [discriminate|].
    cbn [first_with_entry] in Hx.
    destruct (strict_eq (field y "entry") (field m "entry"));
      [injection Hx as <-; exact Hy | exact (IH Hx)]. }
  rewrite (optchain_defined _ _ Hdef). reflexivity.
Qed.

Lemma now_run w s : now w s = (Ret (clock w (tick s)), mkState (trace s) (S (tick s))).
Proof. reflexivity. Qed.

Lemma manual_managerRecord_run w gw lms h2h m s :
  records lms -> records h2h -> nullish m = false ->
  Manual.managerRecord w gw lms h2h m s
  = (Ret (manual_row w gw lms h2h (clock w (tick s)) m),
     mkState (trace s) (S (tick s))).
Proof.
  intros Hl Hh Hm. unfold Manual.managerRecord.
  do 6 run_head.
  rewrite (bind_Ret _ _ _ _ _ (rank_in_run lms m s Hl Hm)).
  rewrite (bind_Ret _ _ _ _ _ (rank_in_run h2h m s Hh Hm)).
  rewrite (bind_Ret _ _ _ _ _ (now_run w s)).
  reflexivity.
Qed.

Lemma manual_managerData_run w gw lms h2h classic :
  records lms -> records h2h -> records classic ->
  forall s,
    Manual.managerData w gw classic lms h2h s
    = (Ret (manual_rows w gw lms h2h (tick s) classic),
       mkState (trace s) (tick s + List.length classic)).
Proof.
  intros Hl Hh Hc. unfold Manual.managerData.
  induction Hc as [|m rest Hm Hrest IH]; intros s.
  - cbn. rewrite Nat.add_0_r. destruct s; reflexivity.
  - cbn [map_m manual_rows List.length].
    rewrite (bind_Ret _ _ _ _ _ (manual_managerRecord_run w gw lms h2h m s Hl Hh Hm)).
    rewrite (bind_Ret _ _ _ _ _ (IH _)). cbn [trace tick].
    rewrite Nat.add_succ_r. reflexivity.
Qed.

Lemma manual_rows_ids w gw lms h2h classic :
  forall n,
    map (fun row => field row "manager_id") (manual_rows w gw lms h2h n classic)
    = map (fun m => field m "entry") classic.
Proof.
  induction classic as [|m rest IH]; intros n; [reflexivity|].
  cbn [manual_rows map]. rewrite IH. reflexivity.
Qed.

(** C3. For a classic list of N manager records and any two secondary lists
    of records, the reconciliation returns exactly N rows, the i-th row
    carrying the identifier of the i-th classic manager; an identifier that
    occurs in a secondary list and not in the classic list is the
    [manager_id] of no row.  Nothing is fetched or written meanwhile. *)
Theorem reconcile_one_row_per_primary
    (w : world) (currentGW : value)
    (classicManagers lmsManagers h2hManagers : list value) (s : state)
    (Hclassic : records classicManagers)
    (Hlms : records lmsManagers)
    (Hh2h : records h2hManagers) :
  exists rows s',
    Manual.managerData w currentGW classicManagers lmsManagers h2hManagers s
    = (Ret rows, s')
    /\ trace s' = trace s
    /\ List.length rows = List.length classicManagers
    /\ map (fun row => field row "manager_id") rows
       = map (fun m => field m "entry") classicManagers
    /\ forall x,
         In x (lmsManagers ++ h2hManagers)%list ->
         ~ In (field x "entry") (map (fun m => field m "entry") classicManagers) ->
         ~ In (field x "entry") (map (fun row => field row "manager_id") rows).
Proof.
  eexists _, _. split.
  - apply manual_managerData_run; assumption.
  - cbn [trace]. split; [reflexivity|].
    pose proof (manual_rows_ids w currentGW lmsManagers h2hManagers
                  classicManagers (tick s)) as Hids.
    split; [|split].
    + apply (f_equal (@List.length value)) in Hids.
      rewrite !length_map in Hids. exact Hids.
    + exact Hids.
    + intros x _ Hnot. rewrite Hids. exact Hnot.
Qed.

Lemma scenario_records :
  records Scenario.primary /\ records Scenario.secondary
  /\ records Scenario.secondary_rank_zero /\ records [].
Proof. unfold records. repeat split; repeat constructor. Defined.

Lemma reconcile_one_row_per_primary_witness :
  exists rows s',
    Manual.managerData Scenario.empty_league (VNum 11) Scenario.primary
      Scenario.secondary [] initial = (Ret rows, s')
    /\ trace s' = trace initial
    /\ List.length rows = List.length Scenario.primary
    /\ map (fun row => field row "manager_id") rows
       = map (fun m => field m "entry") Scenario.primary
    /\ forall x,
         In x (Scenario.secondary ++ [])%list ->
         ~ In (field x "entry")
              (map (fun m => field m "entry") Scenario.primary) ->
         ~ In (field x "entry") (map (fun row => field row "manager_id") rows).
Proof.
  apply (reconcile_one_row_per_primary Scenario.empty_league (VNum 11)
           Scenario.primary Scenario.secondary [] initial);
    apply scenario_records.
Defined.

Lemma first_with_entry_none id league :
  (forall x, In x league -> strict_eq (field x "entry") id = false) ->
  first_with_entry id league = None.
Proof.
  induction league as [|x rest IH]; intros H; [reflexivity|].
  cbn [first_with_entry]. rewrite (H x (or_introl eq_refl)).
  apply IH. intros y Hy. apply H. right. exact Hy.
Qed.

Lemma first_with_entry_first id before x after :
  (forall y, In y before -> strict_eq (field y "entry") id = false) ->
  strict_eq (field x "entry") id = true ->
  first_with_entry id (before ++ x :: after) = Some x.
Proof.
  induction before as [|y rest IH]; intros Hb Hx; cbn [app first_with_entry].
  - rewrite Hx. reflexivity.
  - rewrite (Hb y (or_introl eq_refl)). apply IH; [|exact Hx].
    intros z Hz. apply Hb. right. exact Hz.
Qed.

Lemma attached_rank_spec league m : rank_attached league m (attached_rank league m).
Proof.
  unfold rank_attached, attached_rank. split.
  - intros H. rewrite (first_with_entry_none _ _ H). reflexivity.
  - intros before x after -> Hb Hx.
    rewrite (first_with_entry_first _ _ _ _ Hb Hx). reflexivity.
Qed.

Lemma manual_rows_ranks w gw lms h2h classic :
  forall n,
    Forall2 (fun m row =>
               rank_attached lms m (field row "lms_rank")
               /\ rank_attached h2h m (field row "h2h_rank"))
            classic (manual_rows w gw lms h2h n classic).
Proof.
  induction classic as [|m rest IH]; intros n; cbn [manual_rows];
    constructor; [|apply IH].
  split; apply attached_rank_spec.
Qed.

(** C4, as the spec states it, fails: manager 2 is in the secondary league
    with rank 0, and the row of manager 2 carries [null], not that rank. *)
Lemma reconcile_drops_rank_zero :
  In (VObj [("entry", VNum 2); ("rank", VNum 0)]) Scenario.secondary_rank_zero
  /\ column "manager_id"
       (fst (Manual.managerData Scenario.empty_league (VNum 11) Scenario.primary
               Scenario.secondary_rank_zero [] initial))
     = Some [VNum 1; VNum 2]
  /\ column "lms_rank"
       (fst (Manual.managerData Scenario.empty_league (VNum 11) Scenario.primary
               Scenario.secondary_rank_zero [] initial))
     = Some [VNull; VNull].
Proof. split; [left; reflexivity | split; vm_compute; reflexivity]. Qed.

(** C4, amended.  For every classic manager, in list order, the row carries
    for each secondary league [null] when no record of that league has the
    manager's identifier, and otherwise the rank of the first such record
    when that rank is truthy, [null] when it is falsy (zero, absent). *)
Theorem reconcile_attaches_first_truthy_rank
    (w : world) (currentGW : value)
    (classicManagers lmsManagers h2hManagers : list value) (s : state)
    (Hclassic : records classicManagers)
    (Hlms : records lmsManagers)
    (Hh2h : records h2hManagers) :
  exists rows s',
    Manual.managerData w currentGW classicManagers lmsManagers h2hManagers s
    = (Ret rows, s')
    /\ Forall2 (fun m row =>
                  rank_attached lmsManagers m (field row "lms_rank")
                  /\ rank_attached h2hManagers m (field row "h2h_rank"))
               classicManagers rows.
Proof.
  eexists _, _. split.
  - apply manual_managerData_run; assumption.
  - apply manual_rows_ranks.
Qed.

Lemma reconcile_attaches_first_truthy_rank_witness :
  exists rows s',
    Manual.managerData Scenario.empty_league (VNum 11) Scenario.primary
      Scenario.secondary [] initial = (Ret rows, s')
    /\ Forall2 (fun m row =>
                  rank_attached Scenario.secondary m (field row "lms_rank")
                  /\ rank_attached [] m (field row "h2h_rank"))
               Scenario.primary rows.
Proof.
  apply (reconcile_attaches_first_truthy_rank Scenario.empty_league (VNum 11)
           Scenario.primary Scenario.secondary [] initial);
    apply scenario_records.
Defined.

(** The scenario of the spec: classic [{1, rank 1, total 50}, {2, rank 2,
    total 40}], secondary [{2, rank 1}]. *)
Example reconcile_scenario :
  let rows := fst (Manual.managerData Scenario.empty_league (VNum 11)
                     Scenario.primary Scenario.secondary Scenario.secondary
                     initial) in
  column "manager_id" rows = Some [VNum 1; VNum 2]
  /\ column "classic_rank" rows = Some [VNum 1; VNum 2]
  /\ column "classic_total" rows = Some [VNum 50; VNum 40]
  /\ column "lms_rank" rows = Some [VNull; VNum 1]
  /\ column "h2h_rank" rows = Some [VNull; VNum 1].
Proof. cbv zeta. repeat split; vm_compute; reflexivity. Qed.

(* ===================================================================== *)
(** ** The period resolver *)
(* ===================================================================== *)

Lemma find_current_run descriptors s :
  exists r,
    find_first (fun e => getprop e "is_current") descriptors s = (r, s)
    /\ match r with
       | Ret found => or_else (optchain found "id") (VNum 11) = current_id descriptors
       | Throw _ => current_id descriptors = VNum 11
       | Diverge => False
       end.
Proof.
  induction descriptors as [|d rest IH].
  - eexists. split; reflexivity.
  - cbn [find_first current_id]. unfold bind at 1, getprop at 1.
    destruct (nullish d) eqn:Hd.
    + eexists. split; reflexivity.
    + rewrite ret_run.
      destruct (truthy (field d "is_current")).
      * eexists. split; [reflexivity|]. cbn beta iota.
        rewrite (optchain_defined _ _ Hd). reflexivity.
      * exact IH.
Qed.

Lemma cron_getCurrentGW_run w s :
  Cron.getCurrentGW w s
  = (Ret (period_of (fetch w bootstrap_url Cron.headers)),
     logged s [EFetch bootstrap_url]).
Proof.
  unfold Cron.getCurrentGW, Cron.fetchFPL, period_of, page_of.
  fold bootstrap_url.
  unfold try_catch, bind at 1 2. rewrite emit_run.
  destruct (fetch w bootstrap_url Cron.headers) as [e|st [data|]];
    [reflexivity| |destruct (is_ok st); reflexivity].
  destruct (is_ok st); [|reflexivity]. cbn [negb]. rewrite ret_run.
  unfold bind at 1, getprop at 1.
  destruct (nullish data) eqn:Hd.
  { destruct data; try discriminate; reflexivity. }
  rewrite ret_run. unfold bind.
  destruct (field data "events") as [| | | | |descriptors|]; try reflexivity.
  cbn [call_find].
  destruct (find_current_run descriptors (logged s [EFetch bootstrap_url]))
    as (r & -> & Hr).
  destruct r as [found|e|]; [rewrite ret_run, Hr|rewrite Hr|destruct Hr];
    reflexivity.
Qed.

Lemma manual_getCurrentGW_cron : Manual.getCurrentGW = Cron.getCurrentGW.
Proof. reflexivity. Qed.

Lemma legacy_getCurrentGW_run w s :
  Legacy.getCurrentGW w s
  = (Ret (period_of (fetch w bootstrap_url [])),
     logged s [EFetch bootstrap_url]).
Proof.
  unfold Legacy.getCurrentGW, Legacy.fetchFPL, period_of, page_of.
  fold bootstrap_url.
  unfold try_catch, bind at 1 2. rewrite emit_run.
  destruct (fetch w bootstrap_url []) as [e|st [data|]];
    [reflexivity| |destruct (is_ok st); reflexivity].
  destruct (is_ok st); [|reflexivity]. cbn [negb]. rewrite ret_run.
  unfold bind at 1, getprop at 1.
  destruct (nullish data) eqn:Hd.
  { destruct data; try discriminate; reflexivity. }
  rewrite ret_run. unfold bind.
  destruct (field data "events") as [| | | | |descriptors|]; try reflexivity.
  cbn [call_find].
  destruct (find_current_run descriptors (logged s [EFetch bootstrap_url]))
    as (r & -> & Hr).
  destruct r as [found|e|]; [rewrite ret_run, Hr|rewrite Hr|destruct Hr];
    reflexivity.
Qed.

Lemma period_of_fails w hdrs url :
  fails w hdrs url -> period_of (fetch w url hdrs) = VNum 11.
Proof.
  unfold fails, period_of, page_of.
  destruct (fetch w url hdrs) as [e|st [data|]]; try reflexivity.
  intros [->|H]; [reflexivity|discriminate].
Qed.

Lemma current_id_unflagged descriptors :
  (forall d, In d descriptors -> ~ flagged d) ->
  current_id descriptors = VNum 11.
Proof.
  induction descriptors as [|d rest IH]; intros H; [reflexivity|].
  cbn [current_id]. destruct (nullish d) eqn:Hd; [reflexivity|].
  destruct (truthy (field d "is_current")) eqn:Hc.
  - exfalso. apply (H d (or_introl eq_refl)). split; assumption.
  - apply IH. intros y Hy. apply H. right. exact Hy.
Qed.

Lemma current_id_first before d after :
  Forall (fun y => nullish y = false
                   /\ truthy (field y "is_current") = false) before ->
  flagged d ->
  current_id (before ++ d :: after)
  = if truthy (field d "id") then field d "id" else VNum 11.
Proof.
  intros Hb [Hd Hc]. induction Hb as [|y rest [Hy Hyc] Hrest IH];
    cbn [app current_id].
  - rewrite Hd, Hc. reflexivity.
  - rewrite Hy, Hyc. exact IH.
Qed.

Lemma period_of_resolves w hdrs :
  resolves w hdrs (Ret (period_of (fetch w bootstrap_url hdrs))).
Proof.
  split; [eexists; reflexivity|]. split.
  - intros H. rewrite (period_of_fails _ _ _ H). reflexivity.
  - intros descriptors (st & data & Hf & Hok & Hev).
    assert (Hp : period_of (fetch w bootstrap_url hdrs) = current_id descriptors).
    { unfold period_of, page_of. rewrite Hf, Hok, Hev. reflexivity. }
    rewrite Hp. split.
    + intros H. rewrite (current_id_unflagged _ H). reflexivity.
    + intros before d after -> Hb Hd.
      rewrite (current_id_first _ _ _ Hb Hd). reflexivity.
Qed.

(** C7, as the spec states it, fails: the descriptor flagged as current has
    identifier 0, and the resolver returns 11. *)
Lemma period_resolver_skips_identifier_zero :
  fetch Scenario.season0 bootstrap_url Cron.headers
  = Scenario.ok (Scenario.bootstrap
                   [Scenario.period 0 true; Scenario.period 1 false])
  /\ flagged (Scenario.period 0 true)
  /\ field (Scenario.period 0 true) "id" = VNum 0
  /\ fst (Cron.getCurrentGW Scenario.season0 initial) = Ret (VNum 11)
  /\ fst (Legacy.getCurrentGW Scenario.season0 initial) = Ret (VNum 11).
Proof. repeat split; vm_compute; reflexivity. Qed.

(** C7, amended.  In each of the three files the period resolver returns a
    value and never throws; it returns 11 when the bootstrap request fails,
    when the descriptor list is empty or holds no descriptor flagged as
    current; otherwise it returns the identifier of the first flagged
    descriptor when that identifier is truthy, and 11 when it is not. *)
Theorem period_resolver_falls_back (w : world) (s : state) :
  resolves w Cron.headers (fst (Cron.getCurrentGW w s))
  /\ resolves w Manual.headers (fst (Manual.getCurrentGW w s))
  /\ resolves w [] (fst (Legacy.getCurrentGW w s)).
Proof.
  rewrite manual_getCurrentGW_cron, cron_getCurrentGW_run,
    legacy_getCurrentGW_run. cbn [fst].
  split; [|split]; apply period_of_resolves.
Qed.

Lemma season12_serves hdrs :
  serves_bootstrap Scenario.season12 hdrs
    ([Scenario.period 11 false] ++ Scenario.period 12 true :: []).
Proof. eexists _, _. repeat split; reflexivity. Defined.

Lemma period_resolver_falls_back_witness :
  fst (Cron.getCurrentGW Scenario.season12 initial) = Ret (VNum 12).
Proof.
  destruct (period_resolver_falls_back Scenario.season12 initial)
    as [(_ & _ & H) _].
  destruct (H _ (season12_serves Cron.headers)) as [_ Hfirst].
  apply (Hfirst [Scenario.period 11 false] (Scenario.period 12 true) [] eq_refl).
  - repeat constructor.
  - split; reflexivity.
Defined.

(** The descriptors of the spec, [{id:10}, {id:11, is_current}], resolve to
    period 11; an upstream that is down and an empty descriptor list resolve
    to the fallback 11. *)
Example period_resolver_scenarios :
  fst (Cron.getCurrentGW Scenario.season initial) = Ret (VNum 11)
  /\ fst (Cron.getCurrentGW (Scenario.serving []) initial) = Ret (VNum 11)
  /\ fst (Cron.getCurrentGW
            (Scenario.serving
               [(bootstrap_url, Scenario.ok (Scenario.bootstrap []))]) initial)
     = Ret (VNum 11).
Proof. repeat split; vm_compute; reflexivity. Qed.

(* ===================================================================== *)
(** ** The secret check of the scheduled triggers *)
(* ===================================================================== *)

(** C8. When the secret a request supplies differs from [CRON_SECRET], each
    scheduled handler answers 401 with the body [{error: 'Unauthorized'}] and
    the trace of upstream requests and store writes is left as it was. *)
Theorem wrong_secret_rejected
    (fuel : nat) (w : world) (e : env) (req : request) (s : state) :
  (opt_strict_eq (Cron.cronSecret req) (CRON_SECRET e) = false ->
   exists s',
     Cron.handler fuel w e req s
     = (Ret (mkResponse 401 (VObj [("error", VStr "Unauthorized")])), s')
     /\ trace s' = trace s)
  /\ (opt_strict_eq (authorization req)
        (Some ("Bearer " ++ opt_to_string (CRON_SECRET e))) = false ->
      Legacy.handler fuel w e req s
      = (Ret (mkResponse 401 (VObj [("error", VStr "Unauthorized")])), s)).
Proof.
  split; intros H.
  - unfold Cron.handler.
    rewrite (bind_Ret _ _ _ _ _ (now_run w s)).
    rewrite (bind_Ret _ _ _ _ _ (now_run w _)).
    rewrite H. cbn [negb]. eexists. split; reflexivity.
  - unfold Legacy.handler. rewrite H. reflexivity.
Qed.

Lemma wrong_secret_rejected_witness :
  (exists s',
     Cron.handler 5 Scenario.three_then_down Scenario.configured
       (Scenario.with_bearer "guess") initial
     = (Ret (mkResponse 401 (VObj [("error", VStr "Unauthorized")])), s')
     /\ trace s' = trace initial)
  /\ Legacy.handler 5 Scenario.three_then_down Scenario.configured
       (Scenario.with_bearer "guess") initial
     = (Ret (mkResponse 401 (VObj [("error", VStr "Unauthorized")])), initial).
Proof.
  destruct (wrong_secret_rejected 5 Scenario.three_then_down Scenario.configured
              (Scenario.with_bearer "guess") initial) as [Hcron Hlegacy].
  split; [apply Hcron | apply Hlegacy]; reflexivity.
Defined.

(* ===================================================================== *)
(** ** Computations that cannot run out of budget *)
(* ===================================================================== *)

Lemma terminates_ret {A} (a : A) : terminates (ret a).
Proof. intros s. discriminate. Qed.

Lemma terminates_throw {A} (e : exn) : terminates (@throw A e).
Proof. intros s. discriminate. Qed.

Lemma terminates_emit e : terminates (emit e).
Proof. intros s. discriminate. Qed.

Lemma terminates_now w : terminates (now w).
Proof. intros s. discriminate. Qed.

Lemma terminates_getprop v name : terminates (getprop v name).
Proof. intros s. unfold getprop. destruct (nullish v); discriminate. Qed.

Lemma terminates_bind {A B} (m : M A) (k : A -> M B) :
  terminates m -> (forall a, terminates (k a)) -> terminates (bind m k).
Proof.
  intros Hm Hk s. unfold bind. specialize (Hm s).
  destruct (m s) as [[a|e|] s']; cbn [fst] in *;
    [apply Hk | discriminate | congruence].
Qed.

Lemma terminates_try_catch {A} (m : M A) (h : exn -> M A) :
  terminates m -> (forall e, terminates (h e)) -> terminates (try_catch m h).
Proof.
  intros Hm Hh s. unfold try_catch. specialize (Hm s).
  destruct (m s) as [[a|e|] s']; cbn [fst] in *;
    [discriminate | apply Hh | congruence].
Qed.

Lemma terminates_find_first pred items :
  (forall x, terminates (pred x)) -> terminates (find_first pred items).
Proof.
  intros Hp. induction items as [|x rest IH]; cbn [find_first].
  - apply terminates_ret.
  - apply terminates_bind; [apply Hp|].
    intros b. destruct (truthy b); [apply terminates_ret | exact IH].
Qed.

Lemma terminates_call_find v pred :
  (forall x, terminates (pred x)) -> terminates (call_find v pred).
Proof.
  intros Hp. destruct v; cbn [call_find];
    try apply terminates_throw. apply terminates_find_first. exact Hp.
Qed.

Lemma terminates_map_m {A B} (f : A -> M B) items :
  (forall x, terminates (f x)) -> terminates (map_m f items).
Proof.
  intros Hf. induction items as [|x rest IH]; cbn [map_m].
  - apply terminates_ret.
  - apply terminates_bind; [apply Hf|]. intros y.
    apply terminates_bind; [exact IH|]. intros ys. apply terminates_ret.
Qed.

Lemma terminates_spread w v : terminates (spread w v).
Proof.
  destruct v; cbn [spread];
    repeat match goal with
           | |- context [too_many w ?l] => destruct (too_many w l)
           end;
    first [apply terminates_ret | apply terminates_throw].
Qed.

Create HintDb terminates.
#[local] Hint Resolve terminates_ret terminates_throw terminates_emit
  terminates_now terminates_getprop terminates_spread : terminates.

Ltac terminates_step :=
  first [ apply terminates_bind; [|intro]
        | apply terminates_try_catch; [|intro]
        | apply terminates_call_find; intro
        | apply terminates_find_first; intro
        | apply terminates_map_m; intro
        | solve [auto with terminates]
        | match goal with
          | |- terminates (if ?c then _ else _) => destruct c
          | |- terminates (match ?x with _ => _ end) => destruct x
          end ].

Lemma terminates_legacy_fetchFPL w endpoint : terminates (Legacy.fetchFPL w endpoint).
Proof. unfold Legacy.fetchFPL. repeat terminates_step. Qed.

Lemma terminates_cron_fetchFPL w endpoint : terminates (Cron.fetchFPL w endpoint).
Proof. unfold Cron.fetchFPL. repeat terminates_step. Qed.

#[local] Hint Resolve terminates_legacy_fetchFPL terminates_cron_fetchFPL
  : terminates.

(* ===================================================================== *)
(** ** The per-manager loop of the detail sync *)
(* ===================================================================== *)

(** The [catch] block of the loop, for a record. *)
Lemma manager_catch_returns manager s :
  nullish manager = false ->
  (getprop manager "entry" ;;; ret tt) s = (Ret tt, s).
Proof.
  intros Hm. rewrite (bind_Ret _ _ _ _ _ (getprop_defined _ "entry" s Hm)).
  reflexivity.
Qed.

Lemma legacy_details_run w id s :
  Legacy.getManagerDetails w id s
  = (Ret (body_or_null
            (fetch w (api_base ++ "/entry/" ++ to_string id ++ "/") [])),
     logged s [EFetch (api_base ++ "/entry/" ++ to_string id ++ "/")]).
Proof.
  unfold Legacy.getManagerDetails, Legacy.fetchFPL, try_catch, bind,
    body_or_null, page_of.
  rewrite emit_run.
  destruct (fetch w _ []) as [e|st [data|]]; [reflexivity|..];
    destruct (is_ok st); reflexivity.
Qed.

Lemma legacy_picks_run w id gw s :
  Legacy.getManagerGWPicks w id gw s
  = (Ret (body_or_null
            (fetch w (api_base ++ "/entry/" ++ to_string id ++ "/event/"
                        ++ to_string gw ++ "/picks/") [])),
     logged s [EFetch (api_base ++ "/entry/" ++ to_string id ++ "/event/"
                         ++ to_string gw ++ "/picks/")]).
Proof.
  unfold Legacy.getManagerGWPicks, Legacy.fetchFPL, try_catch, bind,
    body_or_null, page_of.
  rewrite emit_run.
  destruct (fetch w _ []) as [e|st [data|]]; [reflexivity|..];
    destruct (is_ok st); reflexivity.
Qed.



Lemma legacy_managerRow_run w manager details captainId s :
  nullish manager = false -> nullish details = false ->
  Legacy.managerRow w manager details captainId s
  = (Ret (legacy_row w manager details captainId (clock w (tick s))),
     mkState (trace s) (S (tick s))).
Proof.
  intros Hm Hd. unfold Legacy.managerRow.
  do 11 run_head.
  rewrite (bind_Ret _ _ _ _ _ (now_run w s)). reflexivity.
Qed.

Lemma legacy_upsert_caught w table rows onConflict (h : exn -> M unit) s :
  (forall e s', h e s' = (Ret tt, s')) ->
  try_catch (Legacy.upsert_ignoring_result w table rows onConflict) h s
  = (Ret tt, logged s [EUpsert table rows onConflict]).
Proof.
  intros Hh.
  unfold Legacy.upsert_ignoring_result, try_catch, bind. rewrite emit_run.
  destruct (upsert w table rows onConflict); [reflexivity | apply Hh].
Qed.

Lemma try_catch_bind_Ret {A B} (m : M A) (k : A -> M B) (h : exn -> M B)
    s a s' :
  m s = (Ret a, s') ->
  try_catch (bind m k) h s = try_catch (k a) h s'.
Proof.
  intros H. unfold try_catch. rewrite (bind_Ret _ _ _ _ _ H). reflexivity.
Qed.

Lemma try_catch_bind_Throw {A B} (m : M A) (k : A -> M B) (h : exn -> M B)
    s e s' :
  m s = (Throw e, s') ->
  try_catch (bind m k) h s = h e s'.
Proof.
  intros H. unfold try_catch. rewrite (bind_Throw _ _ _ _ _ H). reflexivity.
Qed.

Lemma find_captain_in list s :
  match captain_in list with
  | Some c =>
      exists captain,
        find_first (fun p => getprop p "is_captain") list s = (Ret captain, s)
        /\ or_else (optchain captain "element") VNull = c
  | None =>
      exists e,
        find_first (fun p => getprop p "is_captain") list s = (Throw e, s)
  end.
Proof.
  induction list as [|p rest IH]; cbn [captain_in find_first].
  - eexists. split; reflexivity.
  - destruct (nullish p) eqn:Hp.
    + eexists. apply bind_Throw. unfold getprop. rewrite Hp. reflexivity.
    + rewrite (bind_Ret _ _ _ _ _ (getprop_defined p "is_captain" s Hp)).
      destruct (truthy (field p "is_captain")).
      * exists p. split; [reflexivity|].
        rewrite (optchain_defined _ _ Hp). reflexivity.
      * exact IH.
Qed.

Lemma findCaptain_id picks s :
  match captain_id picks with
  | Some c =>
      exists captain,
        Legacy.findCaptain picks s = (Ret captain, s)
        /\ or_else (optchain captain "element") VNull = c
  | None => exists e, Legacy.findCaptain picks s = (Throw e, s)
  end.
Proof.
  unfold captain_id, Legacy.findCaptain.
  destruct (nullish picks); [eexists; split; reflexivity|].
  destruct (field picks "picks") as [| |b|n|str|list|o]; cbn [nullish call_find];
    try (eexists; split; reflexivity); try (eexists; reflexivity).
  apply find_captain_in.
Qed.

(** One turn of the loop on a record. *)
Lemma syncOneManager_run w gw manager s :
  nullish manager = false ->
  Legacy.syncOneManager w gw manager s = (Ret tt, after_manager w gw manager s).
Proof.
  intros Hm. unfold Legacy.syncOneManager, after_manager.
  rewrite (try_catch_bind_Ret _ _ _ _ _ _ (getprop_defined _ "entry" s Hm)).
  rewrite (try_catch_bind_Ret _ _ _ _ _ _ (legacy_details_run _ _ s)).
  fold (details_url manager).
  destruct (truthy (body_or_null (fetch w (details_url manager) [])))
    eqn:Ht; cbn [negb]; [|reflexivity].
  rewrite (try_catch_bind_Ret _ _ _ _ _ _ (getprop_defined _ "entry" _ Hm)).
  rewrite (try_catch_bind_Ret _ _ _ _ _ _ (legacy_picks_run _ _ _ _)).
  fold (picks_url manager gw). rewrite logged_logged. cbn [app].
  pose proof (findCaptain_id
                (body_or_null (fetch w (picks_url manager gw) []))
                (logged s [EFetch (details_url manager);
                           EFetch (picks_url manager gw)])) as Hc.
  destruct (captain_id (body_or_null (fetch w (picks_url manager gw) [])))
    as [captainId|].
  - destruct Hc as (captain & Hc & Hid).
    rewrite (try_catch_bind_Ret _ _ _ _ _ _ Hc). rewrite Hid.
    rewrite (try_catch_bind_Ret _ _ _ _ _ _
               (legacy_managerRow_run w manager _ captainId _ Hm
                  (truthy_not_nullish _ Ht))).
    rewrite legacy_upsert_caught
      by (intros e s'; apply manager_catch_returns; exact Hm).
    unfold logged. cbn [trace tick]. rewrite <- !app_assoc. reflexivity.
  - destruct Hc as (e & Hc).
    rewrite (try_catch_bind_Throw _ _ _ _ _ _ Hc).
    apply manager_catch_returns. exact Hm.
Qed.

(** One turn of the loop on [null] or [undefined]: reading [manager.entry]
    throws in the [try] block, and again in the [catch] block. *)
Lemma syncOneManager_null w gw manager s :
  nullish manager = true ->
  Legacy.syncOneManager w gw manager s = (Throw (TypeError "read entry"), s).
Proof.
  intros Hm. unfold Legacy.syncOneManager, try_catch, bind, getprop.
  rewrite Hm. reflexivity.
Qed.


Lemma syncEachManager_terminates w gw managers :
  forall s, fst (Legacy.syncEachManager w gw managers s) <> Diverge.
Proof.
  induction managers as [|m rest IH]; intros s; [discriminate|].
  cbn [Legacy.syncEachManager]. unfold bind.
  destruct (nullish m) eqn:Hm.
  - rewrite (syncOneManager_null w gw m s Hm). discriminate.
  - rewrite (syncOneManager_run w gw m s Hm). apply IH.
Qed.








(** The whole loop on the three managers of [Scenario.squad]: manager 1 is
    written with captain 99, manager 2 is skipped, manager 3 is written
    without a captain. *)
Example detail_sync_scenario :
  let run := Legacy.syncEachManager Scenario.squad (VNum 12)
               [Scenario.manager 1 1 50; Scenario.manager 2 2 40;
                Scenario.manager 3 3 30] initial in
  fst run = Ret tt
  /\ map (fun ev => match ev with
                    | EFetch _ => VUndefined
                    | EUpsert _ row _ =>
                        VArr [field row "manager_id"; field row "captain_id"]
                    end) (trace (snd run))
     = [VUndefined; VUndefined; VArr [VNum 1; VNum 99];
        VUndefined;
        VUndefined; VUndefined; VArr [VNum 3; VNull]].
Proof. cbv zeta. split; vm_compute; reflexivity. Qed.

(* ===================================================================== *)
(** ** What the triggers answer *)
(* ===================================================================== *)

Lemma bind_Ret_inv {A B} (m : M A) (k : A -> M B) s b s' :
  bind m k s = (Ret b, s') ->
  exists a s1, m s = (Ret a, s1) /\ k a s1 = (Ret b, s').
Proof.
  unfold bind. destruct (m s) as [[a|e|] s1]; intros H; try discriminate.
  exists a, s1. split; [reflexivity|exact H].
Qed.

Lemma try_catch_cases {A} (m : M A) (h : exn -> M A) s :
  (exists a s', m s = (Ret a, s') /\ try_catch m h s = (Ret a, s'))
  \/ (exists e s', m s = (Throw e, s') /\ try_catch m h s = h e s')
  \/ (exists s', m s = (Diverge, s') /\ try_catch m h s = (Diverge, s')).
Proof.
  unfold try_catch. destruct (m s) as [[a|e|] s'].
  - left. eauto.
  - right. left. eauto.
  - right. right. eauto.
Qed.

(** The scheduled trigger of [part_000], once the secret is accepted,
    answers 200 with the success body or 500 with the failure body; no error
    escapes the handler. *)
Lemma cron_handler_responses fuel w e req s :
  opt_strict_eq (Cron.cronSecret req) (CRON_SECRET e) = true ->
  match fst (Cron.handler fuel w e req s) with
  | Ret r => success_response r \/ failure_response r
  | Throw _ => False
  | Diverge => True
  end.
Proof.
  intros Hauth. unfold Cron.handler.
  rewrite (bind_Ret _ _ _ _ _ (now_run w s)).
  rewrite (bind_Ret _ _ _ _ _ (now_run w _)).
  rewrite Hauth. cbn [negb].
  match goal with
  | |- context [try_catch ?m ?h ?s0] =>
      destruct (try_catch_cases m h s0)
        as [(r & s' & Hbody & ->)|[(err & s' & _ & ->)|(s' & _ & ->)]]
  end; cbn [fst]; [|right; eexists; reflexivity|exact I].
  left.
  repeat first
    [ apply bind_Ret_inv in Hbody; destruct Hbody as (? & ? & _ & Hbody)
    | match goal with
      | x : (list value * list value * list value)%type |- _ =>
          destruct x as [[? ?] ?]
      end ].
  destruct (upsert w _ _ _) as [[msg|]|ex]; try discriminate.
  apply bind_Ret_inv in Hbody. destruct Hbody as (t & s1 & _ & Hbody).
  injection Hbody as <- _. unfold Cron.success. eexists _, _, _. reflexivity.
Qed.

(** The manual trigger answers in the same two ways. *)
Lemma manual_handler_responses fuel w e req s :
  match fst (Manual.handler fuel w e req s) with
  | Ret r => success_response r \/ failure_response r
  | Throw _ => False
  | Diverge => True
  end.
Proof.
  unfold Manual.handler.
  rewrite (bind_Ret _ _ _ _ _ (now_run w s)).
  rewrite (bind_Ret _ _ _ _ _ (now_run w _)).
  match goal with
  | |- context [try_catch ?m ?h ?s0] =>
      destruct (try_catch_cases m h s0)
        as [(r & s' & Hbody & ->)|[(err & s' & _ & ->)|(s' & _ & ->)]]
  end; cbn [fst]; [|right; eexists; reflexivity|exact I].
  left.
  repeat first
    [ apply bind_Ret_inv in Hbody; destruct Hbody as (? & ? & _ & Hbody)
    | match goal with
      | x : (list value * list value * list value)%type |- _ =>
          destruct x as [[? ?] ?]
      end ].
  destruct (upsert w _ _ _) as [[msg|]|ex]; try discriminate.
  apply bind_Ret_inv in Hbody. destruct Hbody as (t & s1 & _ & Hbody).
  injection Hbody as <- _. unfold Manual.success. eexists _, _, _. reflexivity.
Qed.

(** The trigger of [src/api/cron/sync-fpl-data.js] answers 401 or 200 and
    nothing else: [handler] ends in [res.status(200).json(result)]. *)
Lemma legacy_status_401_or_200 fuel w e req s r s' :
  Legacy.invoke fuel w e req s = (Ret r, s') ->
  status r = 401 \/ status r = 200.
Proof.
  unfold Legacy.invoke, Legacy.handler.
  destruct (Legacy.supabase w e); try discriminate.
  destruct (negb _).
  - intros H. injection H as <- _. left. reflexivity.
  - intros H. apply bind_Ret_inv in H. destruct H as (v & s1 & _ & H).
    injection H as <- _. right. reflexivity.
Qed.

(** C5.  The trigger of [src/api/cron/sync-fpl-data.js] answers internal
    failures with status 200, not 500: when the store throws, the body is
    [{success: false, error}] under status 200, and when the upstream is down
    it is [{success: false, message}] under status 200.  On the same failing
    store the trigger of [part_000] answers 500 with [{success: false,
    error}]. *)
Theorem legacy_failure_answers_200 :
  fst (Legacy.invoke 5 Scenario.store_down Scenario.configured
         (Scenario.with_bearer "s3cret") initial)
  = Ret (mkResponse 200 (VObj [("success", VBool false);
                               ("error", VStr "fetch failed")]))
  /\ fst (Legacy.invoke 5 (Scenario.serving []) Scenario.configured
            (Scenario.with_bearer "s3cret") initial)
     = Ret (mkResponse 200 (VObj [("success", VBool false);
                                  ("message", VStr "No managers found")]))
  /\ fst (Cron.handler 5 Scenario.store_down Scenario.configured
            (Scenario.with_bearer "s3cret") initial)
     = Ret (mkResponse 500 (VObj [("success", VBool false);
                                  ("error", VStr "fetch failed")])).
Proof. repeat split; vm_compute; reflexivity. Qed.

(* ===================================================================== *)
(** ** Missing store credentials *)
(* ===================================================================== *)

(** The triggers of [part_000] and [part_001] report missing credentials:
    status 500, [{success: false, error: 'Supabase client not initialized'}],
    and neither a request nor a write. *)
Lemma missing_credentials_reported fuel w e req s :
  opt_truthy (SUPABASE_URL e) = false \/ opt_truthy (SUPABASE_KEY e) = false ->
  let answer :=
    (Ret (mkResponse 500
            (VObj [("success", VBool false);
                   ("error", VStr "Supabase client not initialized")])),
     mkState (trace s) (S (S (tick s)))) in
  (opt_strict_eq (Cron.cronSecret req) (CRON_SECRET e) = true ->
   Cron.handler fuel w e req s = answer)
  /\ Manual.handler fuel w e req s = answer.
Proof.
  intros Hmissing. cbv zeta.
  assert (Hc : Cron.supabase w e = false).
  { unfold Cron.supabase. destruct Hmissing as [-> | ->]; cbn [negb orb];
      [reflexivity | rewrite orb_true_r; reflexivity]. }
  split.
  - intros Hauth. unfold Cron.handler.
    rewrite (bind_Ret _ _ _ _ _ (now_run w s)).
    rewrite (bind_Ret _ _ _ _ _ (now_run w _)).
    rewrite Hauth, Hc. reflexivity.
  - unfold Manual.handler.
    rewrite (bind_Ret _ _ _ _ _ (now_run w s)).
    rewrite (bind_Ret _ _ _ _ _ (now_run w _)).
    change (Manual.supabase w e) with (Cron.supabase w e).
    rewrite Hc. reflexivity.
Qed.

(** C9.  With the store URL and key missing, the trigger of
    [src/api/cron/sync-fpl-data.js] gives no initialization failure: where
    the client constructor throws on a missing URL the module does not load
    and the invocation ends in that uncaught error; and whatever the
    constructor and the store do, the answer is never a 500.  The triggers of
    [part_000] and [part_001] answer 500 with ['Supabase client not
    initialized'] on the same input. *)
Theorem legacy_missing_credentials_unhandled :
  Legacy.invoke 5 Scenario.strict_client Scenario.no_credentials
    (Scenario.with_bearer "s3cret") initial
  = (Throw (Error "supabaseUrl is required."), initial)
  /\ (forall fuel w body,
        fst (Legacy.invoke fuel w Scenario.no_credentials
               (Scenario.with_bearer "s3cret") initial)
        <> Ret (mkResponse 500 body))
  /\ fst (Cron.handler 5 Scenario.strict_client Scenario.no_credentials
            (Scenario.with_bearer "s3cret") initial)
     = Ret (mkResponse 500
              (VObj [("success", VBool false);
                     ("error", VStr "Supabase client not initialized")]))
  /\ fst (Manual.handler 5 Scenario.strict_client Scenario.no_credentials
            (Scenario.with_bearer "s3cret") initial)
     = Ret (mkResponse 500
              (VObj [("success", VBool false);
                     ("error", VStr "Supabase client not initialized")])).
Proof.
  split; [reflexivity|]. split; [|split; vm_compute; reflexivity].
  intros fuel w body H.
  destruct (Legacy.invoke fuel w Scenario.no_credentials
              (Scenario.with_bearer "s3cret") initial) as [o s'] eqn:Hrun.
  cbn [fst] in H. subst o.
  destruct (legacy_status_401_or_200 _ _ _ _ _ _ _ Hrun) as [Hs|Hs];
    cbn [status] in Hs; discriminate.
Qed.

(* ===================================================================== *)
(** ** Three paginators under [Promise.all] *)
(* ===================================================================== *)

Lemma cron_turn_result_page w o managers page :
  let '(_, page', hasMore) := cron_turn_result w o managers page in
  truthy hasMore = true -> page' = page + 1.
Proof.
  destruct (cron_turn_result w o managers page) as [[m' p'] hm] eqn:H.
  intros Ht. exact (proj1 (cron_turn_result_advances _ _ _ _ _ _ _ H Ht)).
Qed.

Lemma manual_turn_result_page o managers page :
  let '(_, page', hasMore) := manual_turn_result o managers page in
  truthy hasMore = true -> page' = page + 1.
Proof.
  destruct (manual_turn_result o managers page) as [[m' p'] hm] eqn:H.
  intros Ht. exact (proj1 (manual_turn_result_advances _ _ _ _ _ _ H Ht)).
Qed.

(** What a paginator returns and requests does not depend on the state it
    starts in; and it does not throw. *)
Lemma cron_loop_uniform w leagueId fuel :
  forall managers first,
  exists o k,
    (forall e, o <> Throw e)
    /\ (o <> Diverge -> (1 <= k)%nat)
    /\ forall s,
         Cron.fetchAllManagers_loop fuel w leagueId managers first s
         = (o, logged s (page_requests leagueId first k)).
Proof.
  induction fuel as [|fuel IH]; intros managers first.
  - exists Diverge, 0%nat. split; [discriminate|]. split; [congruence|].
    intros s. cbn. rewrite logged_nil. reflexivity.
  - pose proof (cron_turn_result_page w
                  (fetch w (standings_url leagueId first) Cron.headers)
                  managers first) as Hpage.
    destruct (cron_turn_result w _ managers first)
      as [[managers' page'] hasMore] eqn:Hturn.
    destruct (truthy hasMore) eqn:Hmore.
    + rewrite (Hpage eq_refl) in Hturn.
      destruct (IH managers' (first + 1)) as (o & k & Ho & _ & Hrun).
      exists o, (S k). split; [exact Ho|]. split; [lia|]. intros s.
      cbn [Cron.fetchAllManagers_loop].
      rewrite (bind_Ret _ _ _ _ _ (cron_turn_run w leagueId managers first s)).
      rewrite Hturn, Hmore, Hrun, logged_logged, page_requests_succ.
      reflexivity.
    + exists (Ret managers'), 1%nat. split; [discriminate|].
      split; [lia|]. intros s.
      cbn [Cron.fetchAllManagers_loop].
      rewrite (bind_Ret _ _ _ _ _ (cron_turn_run w leagueId managers first s)).
      rewrite Hturn, Hmore, page_requests_succ. reflexivity.
Qed.

Lemma manual_loop_uniform w leagueId fuel :
  forall managers first,
  exists o k,
    (forall e, o <> Throw e)
    /\ (o <> Diverge -> (1 <= k)%nat)
    /\ forall s,
         Manual.fetchAllManagers_loop fuel w leagueId managers first s
         = (o, logged s (page_requests leagueId first k)).
Proof.
  induction fuel as [|fuel IH]; intros managers first.
  - exists Diverge, 0%nat. split; [discriminate|]. split; [congruence|].
    intros s. cbn. rewrite logged_nil. reflexivity.
  - pose proof (manual_turn_result_page
                  (fetch w (standings_url leagueId first) Manual.headers)
                  managers first) as Hpage.
    destruct (manual_turn_result _ managers first)
      as [[managers' page'] hasMore] eqn:Hturn.
    destruct (truthy hasMore) eqn:Hmore.
    + rewrite (Hpage eq_refl) in Hturn.
      destruct (IH managers' (first + 1)) as (o & k & Ho & _ & Hrun).
      exists o, (S k). split; [exact Ho|]. split; [lia|]. intros s.
      cbn [Manual.fetchAllManagers_loop].
      rewrite (bind_Ret _ _ _ _ _ (manual_turn_run w leagueId managers first s)).
      rewrite Hturn, Hmore, Hrun, logged_logged, page_requests_succ.
      reflexivity.
    + exists (Ret managers'), 1%nat. split; [discriminate|].
      split; [lia|]. intros s.
      cbn [Manual.fetchAllManagers_loop].
      rewrite (bind_Ret _ _ _ _ _ (manual_turn_run w leagueId managers first s)).
      rewrite Hturn, Hmore, page_requests_succ. reflexivity.
Qed.

Lemma choose_spec k qa qb qc :
  match choose k qa qb qc with
  | Some (e, (qa', qb', qc')) =>
      Permutation (qa ++ qb ++ qc) (e :: qa' ++ qb' ++ qc')
      /\ S (List.length qa' + List.length qb' + List.length qc')
         = (List.length qa + List.length qb + List.length qc)%nat
  | None => qa = [] /\ qb = [] /\ qc = []
  end.
Proof.
  unfold choose.
  destruct k as [|[|k]]; destruct qa as [|a qa]; destruct qb as [|b qb];
    destruct qc as [|c qc]; cbn [or_next];
    try (repeat split; reflexivity);
    (split; [|cbn [List.length]; lia]);
    first [ reflexivity
          | symmetry; apply Permutation_middle
          | rewrite !app_assoc; symmetry; apply Permutation_middle ].
Qed.

Lemma interleave_perm pick fuel :
  forall n qa qb qc,
    (List.length qa + List.length qb + List.length qc <= fuel)%nat ->
    Permutation (interleave pick n fuel qa qb qc) (qa ++ qb ++ qc).
Proof.
  induction fuel as [|fuel IH]; intros n qa qb qc Hlen.
  - destruct qa, qb, qc; cbn [List.length] in Hlen; try lia. constructor.
  - cbn [interleave].
    pose proof (choose_spec (pick n mod 3) qa qb qc) as H.
    destruct (choose (pick n mod 3) qa qb qc) as [[e [[qa' qb'] qc']]|].
    + destruct H as [Hperm Hl]. rewrite Hperm. constructor.
      apply IH. lia.
    + destruct H as (-> & -> & ->). constructor.
Qed.

Lemma shuffle_heads (fa fb fc ra rb rc : list event) :
  Permutation ((fa ++ fb ++ fc) ++ ra ++ rb ++ rc)
    ((fa ++ ra) ++ (fb ++ rb) ++ (fc ++ rc)).
Proof.
  rewrite <- !app_assoc. apply Permutation_app_head.
  rewrite (Permutation_app_swap_app ra fb). apply Permutation_app_head.
  rewrite (Permutation_app_swap_app rb fc).
  rewrite (Permutation_app_swap_app ra fc). reflexivity.
Qed.

(** Three tasks that only issue events, under [Promise.all]: the first event
    of each comes first, in the order of the tasks, and the run as a whole
    issues the events of the three in some order. *)
Lemma all_three_run {A} w (a b c : M A) oa ob oc ea eb ec :
  (forall s, a s = (oa, logged s ea)) ->
  (forall s, b s = (ob, logged s eb)) ->
  (forall s, c s = (oc, logged s ec)) ->
  forall s,
  exists later,
    all_three w a b c s
    = (settle oa ob oc,
       logged s ((firstn 1 ea ++ firstn 1 eb ++ firstn 1 ec) ++ later))
    /\ Permutation ((firstn 1 ea ++ firstn 1 eb ++ firstn 1 ec) ++ later)
         (ea ++ eb ++ ec).
Proof.
  intros Ha Hb Hc s. unfold all_three.
  rewrite Ha. cbn [logged trace tick app].
  rewrite Hb. cbn [logged trace tick app].
  rewrite Hc. cbn [logged trace tick app].
  eexists. split; [reflexivity|].
  rewrite interleave_perm by lia.
  transitivity ((firstn 1 ea ++ skipn 1 ea) ++ (firstn 1 eb ++ skipn 1 eb)
                  ++ (firstn 1 ec ++ skipn 1 ec))%list;
    [apply shuffle_heads | rewrite !firstn_skipn; reflexivity].
Qed.

(* ===================================================================== *)
(** ** The manual trigger against the scheduled trigger *)
(* ===================================================================== *)

Lemma turn_results_agree w o managers page :
  (forall data, page_of o = Some data ->
                truthy (results_of data) = false
                \/ exists items,
                     results_of data = VArr items /\ records items
                     /\ fits w items) ->
  manual_turn_result o managers page = cron_turn_result w o managers page.
Proof.
  intros H. unfold manual_turn_result, cron_turn_result.
  destruct (page_of o) as [data|]; [|reflexivity].
  destruct (H data eq_refl) as [Hr|(items & Hr & _ & Hfit)]; rewrite Hr;
    [reflexivity|].
  cbn [truthy concat_value]. rewrite Hfit. reflexivity.
Qed.

Lemma loops_agree w leagueId fuel :
  tidy w leagueId ->
  forall managers first s,
    Manual.fetchAllManagers_loop fuel w leagueId managers first s
    = Cron.fetchAllManagers_loop fuel w leagueId managers first s.
Proof.
  intros Ht. induction fuel as [|fuel IH]; intros managers first s;
    [reflexivity|].
  cbn [Manual.fetchAllManagers_loop Cron.fetchAllManagers_loop].
  rewrite (bind_Ret _ _ _ _ _ (manual_turn_run w leagueId managers first s)).
  rewrite (bind_Ret _ _ _ _ _ (cron_turn_run w leagueId managers first s)).
  change Manual.headers with Cron.headers.
  rewrite (turn_results_agree w _ managers first (Ht first)).
  destruct (cron_turn_result w _ managers first) as [[managers' page'] hasMore].
  destruct (truthy hasMore); [apply IH | reflexivity].
Qed.

Lemma cron_turn_result_records w o managers page :
  (forall data, page_of o = Some data ->
                truthy (results_of data) = false
                \/ exists items,
                     results_of data = VArr items /\ records items
                     /\ fits w items) ->
  records managers ->
  records (fst (fst (cron_turn_result w o managers page))).
Proof.
  intros H Hm. unfold cron_turn_result.
  destruct (page_of o) as [data|]; [|exact Hm].
  destruct (H data eq_refl) as [Hr|(items & Hr & Hi & Hfit)]; rewrite Hr.
  - exact Hm.
  - cbn [truthy]. rewrite Hfit. cbn [fst]. apply Forall_app. split; assumption.
Qed.

(** Under [tidy] the paginator returns a list of records, or it runs out of
    budget; it never throws and it never reads the clock. *)
Lemma cron_loop_records w leagueId fuel :
  tidy w leagueId ->
  forall managers first s,
    records managers ->
    tick (snd (Cron.fetchAllManagers_loop fuel w leagueId managers first s))
    = tick s
    /\ match fst (Cron.fetchAllManagers_loop fuel w leagueId managers first s) with
       | Ret l => records l
       | Throw _ => False
       | Diverge => True
       end.
Proof.
  intros Ht. induction fuel as [|fuel IH]; intros managers first s Hm.
  - split; [reflexivity|exact I].
  - cbn [Cron.fetchAllManagers_loop].
    rewrite (bind_Ret _ _ _ _ _ (cron_turn_run w leagueId managers first s)).
    pose proof (cron_turn_result_records w _ managers first (Ht first) Hm) as Hr.
    destruct (cron_turn_result w _ managers first) as [[managers' page'] hasMore].
    cbn [fst] in Hr.
    destruct (truthy hasMore).
    + destruct (IH managers' page'
                  (logged s [EFetch (standings_url leagueId first)]) Hr)
        as [Htick Hout].
      split; [rewrite Htick; reflexivity | exact Hout].
    + split; [reflexivity | exact Hr].
Qed.

Lemma cron_managerRecord_run w gw m s :
  nullish m = false ->
  Cron.managerRecord w gw m s
  = (Ret (cron_row w gw (clock w (tick s)) m), mkState (trace s) (S (tick s))).
Proof.
  intros Hm. unfold Cron.managerRecord. do 6 run_head.
  rewrite (bind_Ret _ _ _ _ _ (now_run w s)). reflexivity.
Qed.

Lemma cron_managerData_run w gw classic :
  records classic ->
  forall s,
    map_m (Cron.managerRecord w gw) classic s
    = (Ret (cron_rows w gw (tick s) classic),
       mkState (trace s) (tick s + List.length classic)).
Proof.
  intros Hc. induction Hc as [|m rest Hm Hrest IH]; intros s.
  - cbn. rewrite Nat.add_0_r. destruct s; reflexivity.
  - cbn [map_m cron_rows List.length].
    rewrite (bind_Ret _ _ _ _ _ (cron_managerRecord_run w gw m s Hm)).
    rewrite (bind_Ret _ _ _ _ _ (IH _)). cbn [trace tick].
    rewrite Nat.add_succ_r. reflexivity.
Qed.

Lemma rows_same_manager w gw lms h2h classic :
  forall n,
    Forall2 same_manager (cron_rows w gw n classic)
            (manual_rows w gw lms h2h n classic).
Proof.
  induction classic as [|m rest IH]; intros n; cbn [cron_rows manual_rows];
    constructor; [|apply IH].
  repeat split.
Qed.

Lemma rows_length w gw lms h2h classic n :
  List.length (cron_rows w gw n classic)
  = List.length (manual_rows w gw lms h2h n classic).
Proof.
  exact (Forall2_length (rows_same_manager w gw lms h2h classic n)).
Qed.

Lemma cron_rows_length w gw classic n :
  List.length (cron_rows w gw n classic) = List.length classic.
Proof.
  revert n. induction classic as [|m rest IH]; intros n; cbn [cron_rows List.length];
    [reflexivity | rewrite IH; reflexivity].
Qed.

Lemma manual_rows_length w gw lms h2h classic n :
  List.length (manual_rows w gw lms h2h n classic) = List.length classic.
Proof.
  rewrite <- (rows_length w gw lms h2h classic n). apply cron_rows_length.
Qed.

Lemma try_catch_bind_Diverge {A B} (m : M A) (k : A -> M B) (h : exn -> M B)
    s s' :
  m s = (Diverge, s') -> try_catch (bind m k) h s = (Diverge, s').
Proof.
  intros H. unfold try_catch. rewrite (bind_Diverge _ _ _ _ H). reflexivity.
Qed.

(** The end of the scheduled handler, once the three leagues are fetched. *)
Lemma cron_tail_run w startTime gw classic s :
  records classic ->
  try_catch
    (managerData <- map_m (Cron.managerRecord w gw) classic ;;
     emit (EUpsert "manager_data" (VArr managerData) "manager_id,gw") ;;;
     match upsert w "manager_data" (VArr managerData) "manager_id,gw" with
     | UpsertThrows ex => throw ex
     | UpsertResolved (Some msg) =>
         throw (Error ("Supabase insert failed: " ++ msg))
     | UpsertResolved None =>
         endTime <- now w ;;
         ret (Cron.success gw (List.length managerData) (endTime - startTime))
     end)
    (fun error => ret (Cron.failure error)) s
  = finish w startTime gw (cron_rows w gw (tick s) classic) s.
Proof.
  intros Hc.
  rewrite (try_catch_bind_Ret _ _ _ _ _ _ (cron_managerData_run w gw classic Hc s)).
  rewrite (try_catch_bind_Ret _ _ _ _ _ _ (emit_run _ _)).
  unfold finish. rewrite cron_rows_length.
  destruct (upsert w "manager_data" _ "manager_id,gw") as [[msg|]|ex];
    reflexivity.
Qed.

(** The end of the manual handler, once the three leagues are fetched. *)
Lemma manual_tail_run w startTime gw classic lms h2h s :
  records classic -> records lms -> records h2h ->
  try_catch
    (rows <- Manual.managerData w gw classic lms h2h ;;
     emit (EUpsert "manager_data" (VArr rows) "manager_id,gw") ;;;
     match upsert w "manager_data" (VArr rows) "manager_id,gw" with
     | UpsertThrows ex => throw ex
     | UpsertResolved (Some msg) =>
         throw (Error ("Supabase insert failed: " ++ msg))
     | UpsertResolved None =>
         endTime <- now w ;;
         ret (Manual.success gw (List.length rows) (endTime - startTime))
     end)
    (fun error => ret (Manual.failure error)) s
  = finish w startTime gw (manual_rows w gw lms h2h (tick s) classic) s.
Proof.
  intros Hc Hl Hh.
  rewrite (try_catch_bind_Ret _ _ _ _ _ _
             (manual_managerData_run w gw lms h2h classic Hl Hh Hc s)).
  rewrite (try_catch_bind_Ret _ _ _ _ _ _ (emit_run _ _)).
  unfold finish. rewrite manual_rows_length.
  destruct (upsert w "manager_data" _ "manager_id,gw") as [[msg|]|ex];
    reflexivity.
Qed.

Lemma finish_trace w startTime gw rows s :
  trace (snd (finish w startTime gw rows s))
  = (trace s ++ [EUpsert "manager_data" (VArr rows) "manager_id,gw"])%list.
Proof.
  unfold finish. cbn [snd].
  destruct (upsert w "manager_data" (VArr rows) "manager_id,gw") as [[msg|]|ex];
    reflexivity.
Qed.

Lemma requests_app tr1 tr2 : requests (tr1 ++ tr2) = (requests tr1 ++ requests tr2)%list.
Proof. apply flat_map_app. Qed.

Lemma writes_app tr1 tr2 : writes (tr1 ++ tr2) = (writes tr1 ++ writes tr2)%list.
Proof. apply flat_map_app. Qed.

Lemma writes_page_requests leagueId first k :
  writes (page_requests leagueId first k) = [].
Proof.
  unfold page_requests. induction (seq 0 k) as [|i l IH]; [reflexivity|exact IH].
Qed.

(** C6, as the spec states it, fails: for the same upstream the scheduled
    trigger writes [manager_name], [gw_points], [total_points],
    [overall_rank], and the manual trigger writes [player_name],
    [classic_rank], [classic_total], [classic_gw_points], [lms_rank],
    [h2h_rank]. *)
Lemma manual_and_scheduled_rows_differ :
  writes (trace (snd (Cron.handler 5 Scenario.solo Scenario.configured
                        (Scenario.with_bearer "s3cret") initial)))
  = [("manager_data",
      VArr [VObj [("manager_id", VNum 1); ("manager_name", VStr "Ann");
                  ("team_name", VStr "FC"); ("gw", VNum 12);
                  ("gw_points", VNum 5); ("total_points", VNum 50);
                  ("overall_rank", VNum 1); ("last_updated", VStr "T1010")]],
      "manager_id,gw")]
  /\ writes (trace (snd (Manual.handler 5 Scenario.solo Scenario.configured
                           (Scenario.with_bearer "s3cret") initial)))
     = [("manager_data",
         VArr [VObj [("manager_id", VNum 1); ("gw", VNum 12);
                     ("team_name", VStr "FC"); ("player_name", VStr "Ann");
                     ("classic_rank", VNum 1); ("classic_total", VNum 50);
                     ("classic_gw_points", VNum 5); ("lms_rank", VNum 2);
                     ("h2h_rank", VNull); ("last_updated", VStr "T1010")]],
         "manager_id,gw")].
Proof. split; vm_compute; reflexivity. Qed.

(** On a tidy league, over the same upstream, the paginator of the manual
    trigger does what the paginator of the scheduled trigger does. *)
Lemma paginators_alike w w' leagueId fuel :
  same_upstream w w' -> tidy w leagueId ->
  forall managers first s,
    Manual.fetchAllManagers_loop fuel w' leagueId managers first s
    = Cron.fetchAllManagers_loop fuel w leagueId managers first s.
Proof.
  intros (Hf & _ & _ & Hmax) Ht.
  induction fuel as [|fuel IH]; intros managers first s; [reflexivity|].
  cbn [Manual.fetchAllManagers_loop Cron.fetchAllManagers_loop].
  rewrite (bind_Ret _ _ _ _ _ (manual_turn_run w' leagueId managers first s)).
  rewrite (bind_Ret _ _ _ _ _ (cron_turn_run w leagueId managers first s)).
  change Manual.headers with Cron.headers. rewrite <- Hf.
  rewrite (turn_results_agree w _ managers first (Ht first)).
  destruct (cron_turn_result w _ managers first) as [[managers' page'] hasMore].
  destruct (truthy hasMore); [apply IH | reflexivity].
Qed.

Lemma perm_writes ev ev' :
  Permutation ev ev' -> writes ev' = [] -> writes ev = [].
Proof.
  intros Hp Hw.
  assert (H : Permutation (writes ev') (writes ev))
    by (unfold writes; apply Permutation_flat_map; symmetry; exact Hp).
  rewrite Hw in H. apply Permutation_nil. exact H.
Qed.

Lemma perm_requests ev ev' :
  Permutation ev ev' -> Permutation (requests ev) (requests ev').
Proof. intros Hp. unfold requests. apply Permutation_flat_map. exact Hp. Qed.

Lemma firstn_page_requests leagueId first k :
  (1 <= k)%nat ->
  firstn 1 (page_requests leagueId first k) = [EFetch (standings_url leagueId first)].
Proof.
  intros Hk. destruct k as [|k]; [lia|].
  rewrite page_requests_succ. reflexivity.
Qed.

(** The three paginators of the scheduled trigger under [Promise.all]. *)
Lemma cron_leagues fuel w s :
  exists oc ol oh kc kl kh later,
    (forall s0, Cron.fetchAllManagers fuel w Cron.classicLeagueId s0
                = (oc, logged s0 (page_requests Cron.classicLeagueId 1 kc)))
    /\ (forall s0, Cron.fetchAllManagers fuel w Cron.lmsLeagueId s0
                   = (ol, logged s0 (page_requests Cron.lmsLeagueId 1 kl)))
    /\ (forall s0, Cron.fetchAllManagers fuel w Cron.h2hLeagueId s0
                   = (oh, logged s0 (page_requests Cron.h2hLeagueId 1 kh)))
    /\ ((forall e, oc <> Throw e) /\ (forall e, ol <> Throw e)
        /\ (forall e, oh <> Throw e))
    /\ ((oc <> Diverge -> (1 <= kc)%nat) /\ (ol <> Diverge -> (1 <= kl)%nat)
        /\ (oh <> Diverge -> (1 <= kh)%nat))
    /\ all_three w (Cron.fetchAllManagers fuel w Cron.classicLeagueId)
         (Cron.fetchAllManagers fuel w Cron.lmsLeagueId)
         (Cron.fetchAllManagers fuel w Cron.h2hLeagueId) s
       = (settle oc ol oh,
          logged s
            ((firstn 1 (page_requests Cron.classicLeagueId 1 kc)
                ++ firstn 1 (page_requests Cron.lmsLeagueId 1 kl)
                ++ firstn 1 (page_requests Cron.h2hLeagueId 1 kh)) ++ later))
    /\ Permutation
         ((firstn 1 (page_requests Cron.classicLeagueId 1 kc)
             ++ firstn 1 (page_requests Cron.lmsLeagueId 1 kl)
             ++ firstn 1 (page_requests Cron.h2hLeagueId 1 kh)) ++ later)
         (page_requests Cron.classicLeagueId 1 kc
            ++ page_requests Cron.lmsLeagueId 1 kl
            ++ page_requests Cron.h2hLeagueId 1 kh).
Proof.
  destruct (cron_loop_uniform w Cron.classicLeagueId fuel [] 1)
    as (oc & kc & Hoc & Hkc & Hc).
  destruct (cron_loop_uniform w Cron.lmsLeagueId fuel [] 1)
    as (ol & kl & Hol & Hkl & Hl).
  destruct (cron_loop_uniform w Cron.h2hLeagueId fuel [] 1)
    as (oh & kh & Hoh & Hkh & Hh).
  destruct (all_three_run w _ _ _ _ _ _ _ _ _ Hc Hl Hh s) as (later & Hrun & Hp).
  exists oc, ol, oh, kc, kl, kh, later. repeat split; assumption.
Qed.

(** The three paginators of the manual trigger under [Promise.all]. *)
Lemma manual_leagues fuel w s :
  exists oc ol oh kc kl kh later,
    (forall s0, Manual.fetchAllManagers fuel w Cron.classicLeagueId s0
                = (oc, logged s0 (page_requests Cron.classicLeagueId 1 kc)))
    /\ (forall s0, Manual.fetchAllManagers fuel w Cron.lmsLeagueId s0
                   = (ol, logged s0 (page_requests Cron.lmsLeagueId 1 kl)))
    /\ (forall s0, Manual.fetchAllManagers fuel w Cron.h2hLeagueId s0
                   = (oh, logged s0 (page_requests Cron.h2hLeagueId 1 kh)))
    /\ ((forall e, oc <> Throw e) /\ (forall e, ol <> Throw e)
        /\ (forall e, oh <> Throw e))
    /\ ((oc <> Diverge -> (1 <= kc)%nat) /\ (ol <> Diverge -> (1 <= kl)%nat)
        /\ (oh <> Diverge -> (1 <= kh)%nat))
    /\ all_three w (Manual.fetchAllManagers fuel w Cron.classicLeagueId)
         (Manual.fetchAllManagers fuel w Cron.lmsLeagueId)
         (Manual.fetchAllManagers fuel w Cron.h2hLeagueId) s
       = (settle oc ol oh,
          logged s
            ((firstn 1 (page_requests Cron.classicLeagueId 1 kc)
                ++ firstn 1 (page_requests Cron.lmsLeagueId 1 kl)
                ++ firstn 1 (page_requests Cron.h2hLeagueId 1 kh)) ++ later))
    /\ Permutation
         ((firstn 1 (page_requests Cron.classicLeagueId 1 kc)
             ++ firstn 1 (page_requests Cron.lmsLeagueId 1 kl)
             ++ firstn 1 (page_requests Cron.h2hLeagueId 1 kh)) ++ later)
         (page_requests Cron.classicLeagueId 1 kc
            ++ page_requests Cron.lmsLeagueId 1 kl
            ++ page_requests Cron.h2hLeagueId 1 kh).
Proof.
  destruct (manual_loop_uniform w Cron.classicLeagueId fuel [] 1)
    as (oc & kc & Hoc & Hkc & Hc).
  destruct (manual_loop_uniform w Cron.lmsLeagueId fuel [] 1)
    as (ol & kl & Hol & Hkl & Hl).
  destruct (manual_loop_uniform w Cron.h2hLeagueId fuel [] 1)
    as (oh & kh & Hoh & Hkh & Hh).
  destruct (all_three_run w _ _ _ _ _ _ _ _ _ Hc Hl Hh s) as (later & Hrun & Hp).
  exists oc, ol, oh, kc, kl, kh, later. repeat split; assumption.
Qed.

Lemma settle_cases {A} (oa ob oc : outcome A) :
  (forall e, oa <> Throw e) -> (forall e, ob <> Throw e) ->
  (forall e, oc <> Throw e) ->
  (settle oa ob oc = Diverge
   /\ (oa = Diverge \/ ob = Diverge \/ oc = Diverge))
  \/ exists x y z,
       oa = Ret x /\ ob = Ret y /\ oc = Ret z
       /\ settle oa ob oc = Ret (x, y, z).
Proof.
  intros Ha Hb Hc.
  destruct oa as [x|e|]; [|destruct (Ha e eq_refl)|];
    (destruct ob as [y|e|]; [|destruct (Hb e eq_refl)|]);
    (destruct oc as [z|e|]; [|destruct (Hc e eq_refl)|]);
    first [ right; eexists _, _, _; repeat split; reflexivity
          | left; split; [reflexivity|auto] ].
Qed.

Lemma cron_rows_ids w gw classic :
  forall n,
    map (fun row => field row "manager_id") (cron_rows w gw n classic)
    = map (fun m => field m "entry") classic.
Proof.
  induction classic as [|m rest IH]; intros n; [reflexivity|].
  cbn [cron_rows map]. rewrite IH. reflexivity.
Qed.

Lemma rows_alike w w' gw lms h2h classic :
  forall n n',
    Forall2 same_manager (cron_rows w gw n classic)
            (manual_rows w' gw lms h2h n' classic).
Proof.
  induction classic as [|m rest IH]; intros n n'; cbn [cron_rows manual_rows];
    constructor; [|apply IH].
  repeat split.
Qed.

Lemma finish_answer w startTime gw rows s :
  fst (finish w startTime gw rows s)
  = Ret (finish_response (upsert w "manager_data" (VArr rows) "manager_id,gw")
           gw (List.length rows)
           (clock w (tick s + List.length rows) - startTime)).
Proof. reflexivity. Qed.

Lemma paginator_records fuel w leagueId o k :
  tidy w leagueId ->
  (forall s0, Cron.fetchAllManagers fuel w leagueId s0
              = (o, logged s0 (page_requests leagueId 1 k))) ->
  forall l, o = Ret l -> records l.
Proof.
  intros Ht Hrun l ->.
  destruct (cron_loop_records w leagueId fuel Ht [] 1 initial (Forall_nil _))
    as [_ H].
  unfold Cron.fetchAllManagers in Hrun. rewrite Hrun in H. exact H.
Qed.

(** C6, amended.  Over the same upstream, store and engine, on tidy leagues
    and with an accepted secret, the manual trigger does what the scheduled
    trigger of [part_000] does, whatever the two clocks and the timing of the
    answers.  Both issue the same requests, up to the order in which the
    pages of the three leagues are asked for.  Without a store client both
    answer at once with the same failure.  When a paginator runs on beyond
    the budget neither writes.  Otherwise each issues the bootstrap request,
    then the requests for the first page of the three leagues in the order
    classic, LMS, H2H, then the remaining requests, and writes once: to
    [manager_data] under the conflict key [manager_id,gw], one row per manager
    of the classic league as the paginator returns it, in that order.  The
    two rows of a manager agree as [same_manager] says; their columns differ.
    Each trigger then answers as the store answered its write, with the same
    period and the same number of managers. *)
Theorem manual_matches_scheduled_up_to_columns
    (fuel : nat) (w w' : world) (e : env) (req req' : request) (s s' : state)
    (Hsame : same_upstream w w')
    (Hauth : opt_strict_eq (Cron.cronSecret req) (CRON_SECRET e) = true)
    (Hclassic : tidy w Cron.classicLeagueId)
    (Hlms : tidy w Cron.lmsLeagueId)
    (Hh2h : tidy w Cron.h2hLeagueId) :
  let scheduled := Cron.handler fuel w e req s in
  let manual := Manual.handler fuel w' e req' s' in
  let gw := period_of (fetch w bootstrap_url Cron.headers) in
  (exists ev ev',
    issued s (snd scheduled) ev
    /\ issued s' (snd manual) ev'
    /\ Permutation (requests ev) (requests ev')
    /\ ((Cron.supabase w e = false
         /\ ev = [] /\ ev' = []
         /\ fst scheduled
            = Ret (Cron.failure (Error "Supabase client not initialized"))
         /\ fst manual
            = Ret (Manual.failure (Error "Supabase client not initialized")))
        \/ (Cron.supabase w e = true
            /\ (exists leagueId,
                   In leagueId [Cron.classicLeagueId; Cron.lmsLeagueId;
                                Cron.h2hLeagueId]
                   /\ fst (Cron.fetchAllManagers fuel w leagueId s) = Diverge)
            /\ writes ev = [] /\ writes ev' = []
            /\ fst scheduled = Diverge /\ fst manual = Diverge)
        \/ (Cron.supabase w e = true
            /\ exists classic rows rows' d d' later later',
                 fst (Cron.fetchAllManagers fuel w Cron.classicLeagueId s)
                 = Ret classic
                 /\ requests ev
                    = ([bootstrap_url;
                        standings_url Cron.classicLeagueId 1;
                        standings_url Cron.lmsLeagueId 1;
                        standings_url Cron.h2hLeagueId 1] ++ later)%list
                 /\ requests ev'
                    = ([bootstrap_url;
                        standings_url Cron.classicLeagueId 1;
                        standings_url Cron.lmsLeagueId 1;
                        standings_url Cron.h2hLeagueId 1] ++ later')%list
                 /\ writes ev = [("manager_data", VArr rows, "manager_id,gw")]
                 /\ writes ev' = [("manager_data", VArr rows', "manager_id,gw")]
                 /\ map (fun row => field row "manager_id") rows
                    = map (fun m => field m "entry") classic
                 /\ Forall2 same_manager rows rows'
                 /\ fst scheduled
                    = Ret (finish_response
                             (upsert w "manager_data" (VArr rows) "manager_id,gw")
                             gw (List.length classic) d)
                 /\ fst manual
                    = Ret (finish_response
                             (upsert w' "manager_data" (VArr rows')
                                "manager_id,gw")
                             gw (List.length classic) d'))))
  /\ match fst scheduled with
     | Ret r => success_response r \/ failure_response r
     | Throw _ => False
     | Diverge => True
     end
  /\ match fst manual with
     | Ret r => success_response r \/ failure_response r
     | Throw _ => False
     | Diverge => True
     end.
Proof.
  cbv zeta.
  split; [|split; [apply cron_handler_responses; exact Hauth
                  |apply manual_handler_responses]].
  pose proof Hsame as (Hf & Hu & Hcc & Hmax).
  unfold Cron.handler, Manual.handler.
  rewrite (bind_Ret _ _ _ _ _ (now_run w s)), (bind_Ret _ _ _ _ _ (now_run w _)).
  rewrite (bind_Ret _ _ _ _ _ (now_run w' s')),
    (bind_Ret _ _ _ _ _ (now_run w' _)).
  rewrite Hauth. cbn [negb trace tick].
  assert (Hsup : Manual.supabase w' e = Cron.supabase w e).
  { unfold Manual.supabase, Cron.supabase. rewrite Hcc. reflexivity. }
  rewrite Hsup.
  set (s0 := mkState (trace s) (S (S (tick s)))).
  set (s0' := mkState (trace s') (S (S (tick s')))).
  destruct (Cron.supabase w e) eqn:Hclient; cbn [negb].
  2: { exists [], []. unfold issued. cbn. rewrite !app_nil_r.
       split; [reflexivity|]. split; [reflexivity|]. split; [constructor|].
       left. repeat split; reflexivity. }
  rewrite !(try_catch_bind_Ret _ _ _ _ _ _ (ret_run tt _)).
  rewrite (try_catch_bind_Ret _ _ _ _ _ _ (cron_getCurrentGW_run w s0)).
  change Manual.getCurrentGW with Cron.getCurrentGW.
  rewrite (try_catch_bind_Ret _ _ _ _ _ _ (cron_getCurrentGW_run w' s0')).
  rewrite <- (Hf bootstrap_url Cron.headers).
  set (gw := period_of (fetch w bootstrap_url Cron.headers)).
  change Manual.classicLeagueId with Cron.classicLeagueId.
  change Manual.lmsLeagueId with Cron.lmsLeagueId.
  change Manual.h2hLeagueId with Cron.h2hLeagueId.
  destruct (cron_leagues fuel w (logged s0 [EFetch bootstrap_url]))
    as (oc & ol & oh & kc & kl & kh & later & Hc & Hl & Hh
        & (Hoc & Hol & Hoh) & (Hkc & Hkl & Hkh) & Hrun & Hperm).
  assert (Hc' : forall t, Manual.fetchAllManagers fuel w' Cron.classicLeagueId t
                          = (oc, logged t (page_requests Cron.classicLeagueId 1 kc))).
  { intros t. unfold Manual.fetchAllManagers.
    rewrite (paginators_alike w w' _ fuel Hsame Hclassic). apply Hc. }
  assert (Hl' : forall t, Manual.fetchAllManagers fuel w' Cron.lmsLeagueId t
                          = (ol, logged t (page_requests Cron.lmsLeagueId 1 kl))).
  { intros t. unfold Manual.fetchAllManagers.
    rewrite (paginators_alike w w' _ fuel Hsame Hlms). apply Hl. }
  assert (Hh' : forall t, Manual.fetchAllManagers fuel w' Cron.h2hLeagueId t
                          = (oh, logged t (page_requests Cron.h2hLeagueId 1 kh))).
  { intros t. unfold Manual.fetchAllManagers.
    rewrite (paginators_alike w w' _ fuel Hsame Hh2h). apply Hh. }
  destruct (all_three_run w' _ _ _ _ _ _ _ _ _ Hc' Hl' Hh'
              (logged s0' [EFetch bootstrap_url]))
    as (later' & Hrun' & Hperm').
  set (heads := (firstn 1 (page_requests Cron.classicLeagueId 1 kc)
                   ++ firstn 1 (page_requests Cron.lmsLeagueId 1 kl)
                   ++ firstn 1 (page_requests Cron.h2hLeagueId 1 kh))%list) in *.
  set (pages := (page_requests Cron.classicLeagueId 1 kc
                   ++ page_requests Cron.lmsLeagueId 1 kl
                   ++ page_requests Cron.h2hLeagueId 1 kh)%list) in *.
  assert (Hpw : writes pages = []).
  { unfold pages. rewrite !writes_app, !writes_page_requests. reflexivity. }
  assert (Hlw : writes (heads ++ later) = [])
    by exact (perm_writes _ _ Hperm Hpw).
  assert (Hlw' : writes (heads ++ later') = [])
    by exact (perm_writes _ _ Hperm' Hpw).
  assert (Halike : Permutation (heads ++ later) (heads ++ later'))
    by (rewrite Hperm, Hperm'; reflexivity).
  destruct (settle_cases oc ol oh Hoc Hol Hoh)
    as [[Hs Hdiv]|(c & l & h & -> & -> & -> & Hs)]; rewrite Hs in Hrun, Hrun'.
  - rewrite (try_catch_bind_Diverge _ _ _ _ _ Hrun),
      (try_catch_bind_Diverge _ _ _ _ _ Hrun').
    exists ([EFetch bootstrap_url] ++ heads ++ later)%list,
      ([EFetch bootstrap_url] ++ heads ++ later')%list.
    split; [unfold issued, s0, logged; cbn [snd trace];
            rewrite <- !app_assoc; reflexivity|].
    split; [unfold issued, s0', logged; cbn [snd trace];
            rewrite <- !app_assoc; reflexivity|].
    split; [apply perm_requests, Permutation_app_head; exact Halike|].
    right. left. split; [reflexivity|]. split.
    { destruct Hdiv as [-> | [-> | ->]];
        [ exists Cron.classicLeagueId; split; [cbn; auto|rewrite Hc; reflexivity]
        | exists Cron.lmsLeagueId; split; [cbn; auto|rewrite Hl; reflexivity]
        | exists Cron.h2hLeagueId; split; [cbn; auto|rewrite Hh; reflexivity] ]. }
    rewrite (writes_app _ (heads ++ later)), (writes_app _ (heads ++ later')),
      Hlw, Hlw'. repeat split; reflexivity.
  - rewrite (try_catch_bind_Ret _ _ _ _ _ _ Hrun),
      (try_catch_bind_Ret _ _ _ _ _ _ Hrun').
    cbv beta iota.
    assert (Rc : records c) by exact (paginator_records _ _ _ _ _ Hclassic Hc c eq_refl).
    assert (Rl : records l) by exact (paginator_records _ _ _ _ _ Hlms Hl l eq_refl).
    assert (Rh : records h) by exact (paginator_records _ _ _ _ _ Hh2h Hh h eq_refl).
    rewrite (cron_tail_run w _ gw c _ Rc).
    rewrite (manual_tail_run w' _ gw c l h _ Rc Rl Rh).
    rewrite !finish_answer.
    set (rows := cron_rows w gw _ c).
    set (rows' := manual_rows w' gw l h _ c).
    exists ([EFetch bootstrap_url] ++ (heads ++ later)
              ++ [EUpsert "manager_data" (VArr rows) "manager_id,gw"])%list,
      ([EFetch bootstrap_url] ++ (heads ++ later')
         ++ [EUpsert "manager_data" (VArr rows') "manager_id,gw"])%list.
    split; [unfold issued; rewrite finish_trace; unfold s0, logged;
            cbn [snd trace]; rewrite <- !app_assoc; reflexivity|].
    split; [unfold issued; rewrite finish_trace; unfold s0', logged;
            cbn [snd trace]; rewrite <- !app_assoc; reflexivity|].
    split.
    { rewrite (requests_app [_]), (requests_app (heads ++ later)),
        (requests_app [_]), (requests_app (heads ++ later')).
      apply Permutation_app_head.
      apply Permutation_app; [apply perm_requests; exact Halike|].
      apply Permutation_refl. }
    right. right. split; [reflexivity|].
    assert (Hheads : heads = [EFetch (standings_url Cron.classicLeagueId 1);
                              EFetch (standings_url Cron.lmsLeagueId 1);
                              EFetch (standings_url Cron.h2hLeagueId 1)]).
    { unfold heads.
      rewrite !firstn_page_requests
        by (first [apply Hkc | apply Hkl | apply Hkh]; discriminate).
      reflexivity. }
    exists c, rows, rows'. eexists _, _, (requests later), (requests later').
    split; [rewrite Hc; reflexivity|].
    split; [rewrite (requests_app [_]), (requests_app (heads ++ later)),
              (requests_app heads), Hheads;
            change (requests [EUpsert "manager_data" (VArr rows) "manager_id,gw"])
              with (@nil string);
            rewrite app_nil_r; reflexivity|].
    split; [rewrite (requests_app [_]), (requests_app (heads ++ later')),
              (requests_app heads), Hheads;
            change (requests [EUpsert "manager_data" (VArr rows') "manager_id,gw"])
              with (@nil string);
            rewrite app_nil_r; reflexivity|].
    split; [rewrite (writes_app [_]), (writes_app (heads ++ later)), Hlw;
            reflexivity|].
    split; [rewrite (writes_app [_]), (writes_app (heads ++ later')), Hlw';
            reflexivity|].
    split; [apply cron_rows_ids|].
    split; [apply rows_alike|].
    unfold rows, rows'. rewrite cron_rows_length, manual_rows_length.
    split; reflexivity.
Qed.

Lemma solo_tidy leagueId : tidy Scenario.solo leagueId.
Proof.
  intros page data. unfold Scenario.solo, Scenario.serving.
  cbn [fetch Scenario.route].
  repeat match goal with
         | |- context [String.eqb ?a ?b] =>
             destruct (String.eqb a b); cbn [Scenario.ok page_of is_ok]
         end;
    cbn; try discriminate;
    intros H; injection H as <-;
    first [ left; reflexivity
          | right; eexists; split; [reflexivity|];
            split; [repeat constructor | reflexivity] ].
Defined.

Lemma solo_later_same : same_upstream Scenario.solo Scenario.solo_later.
Proof. repeat split. Defined.

Lemma manual_matches_scheduled_up_to_columns_witness :
  exists ev ev',
    issued initial
      (snd (Cron.handler 5 Scenario.solo Scenario.configured
              (Scenario.with_bearer "s3cret") initial)) ev
    /\ issued initial
         (snd (Manual.handler 5 Scenario.solo_later Scenario.configured
                 (mkRequest None None) initial)) ev'
    /\ Permutation (requests ev) (requests ev')
    /\ writes ev
       = [("manager_data",
           VArr [VObj [("manager_id", VNum 1); ("manager_name", VStr "Ann");
                       ("team_name", VStr "FC"); ("gw", VNum 12);
                       ("gw_points", VNum 5); ("total_points", VNum 50);
                       ("overall_rank", VNum 1);
                       ("last_updated", VStr "T1010")]],
           "manager_id,gw")]
    /\ writes ev'
       = [("manager_data",
           VArr [VObj [("manager_id", VNum 1); ("gw", VNum 12);
                       ("team_name", VStr "FC"); ("player_name", VStr "Ann");
                       ("classic_rank", VNum 1); ("classic_total", VNum 50);
                       ("classic_gw_points", VNum 5); ("lms_rank", VNum 2);
                       ("h2h_rank", VNull);
                       ("last_updated", VStr "T90014")]],
           "manager_id,gw")].
Proof.
  destruct (manual_matches_scheduled_up_to_columns 5 Scenario.solo
              Scenario.solo_later Scenario.configured
              (Scenario.with_bearer "s3cret") (mkRequest None None)
              initial initial solo_later_same eq_refl
              (solo_tidy _) (solo_tidy _) (solo_tidy _))
    as ((ev & ev' & Hev & Hev' & Hperm & _) & _ & _).
  exists ev, ev'. split; [exact Hev|]. split; [exact Hev'|].
  split; [exact Hperm|].
  unfold issued in Hev, Hev'. cbn [trace initial app] in Hev, Hev'.
  rewrite <- Hev, <- Hev'. split; vm_compute; reflexivity.
Defined.

(* ===================================================================== *)
(** ** Pagination to the last page *)
(* ===================================================================== *)

Lemma serves_to_the_end_cons w hdrs leagueId first records pages :
  serves_to_the_end w hdrs leagueId first (records :: pages) ->
  match pages with
  | [] => serves w hdrs (standings_url leagueId first) records false
  | _ :: _ =>
      serves w hdrs (standings_url leagueId first) records true
      /\ serves_to_the_end w hdrs leagueId (first + 1) pages
  end.
Proof.
  intros [_ H]. pose proof (H 0%nat records eq_refl) as H0.
  rewrite Z.add_0_r in H0. destruct pages as [|r' rest]; [exact H0|].
  split; [exact H0|]. split; [discriminate|].
  intros i recs Hi. specialize (H (S i) recs Hi).
  replace (first + 1 + Z.of_nat i) with (first + Z.of_nat (S i)) by lia.
  exact H.
Qed.

Lemma cron_loop_complete w leagueId pages :
  forall fuel managers first s,
    (List.length pages <= fuel)%nat ->
    serves_to_the_end w Cron.headers leagueId first pages ->
    Forall (fits w) pages ->
    Cron.fetchAllManagers_loop fuel w leagueId managers first s
    = (Ret (managers ++ List.concat pages)%list,
       logged s (page_requests leagueId first (List.length pages))).
Proof.
  induction pages as [|records pages IH];
    intros fuel managers first s Hfuel H Hfit.
  - destruct H as [H _]. congruence.
  - destruct fuel as [|fuel]; [cbn in Hfuel; lia|].
    apply serves_to_the_end_cons in H.
    inversion Hfit as [|? ? Hfit1 Hfit2]; subst.
    cbn [Cron.fetchAllManagers_loop].
    destruct pages as [|r' rest].
    + destruct (cron_turn_serves _ _ managers _ s _ _ H Hfit1)
        as (hn & Hhn & Hturn).
      rewrite (bind_Ret _ _ _ _ _ Hturn), Hhn.
      cbn [List.concat List.length]. rewrite app_nil_r, page_requests_succ.
      reflexivity.
    + destruct H as [Hs Hrest].
      destruct (cron_turn_serves _ _ managers _ s _ _ Hs Hfit1)
        as (hn & Hhn & Hturn).
      rewrite (bind_Ret _ _ _ _ _ Hturn), Hhn.
      rewrite IH by (cbn [List.length] in Hfuel |- *; lia || assumption).
      rewrite logged_logged.
      change (List.concat (records :: r' :: rest))
        with (records ++ List.concat (r' :: rest))%list.
      rewrite <- app_assoc.
      rewrite (page_requests_succ _ first (List.length (r' :: rest))).
      reflexivity.
Qed.

Lemma manual_loop_complete w leagueId pages :
  forall fuel managers first s,
    (List.length pages <= fuel)%nat ->
    serves_to_the_end w Manual.headers leagueId first pages ->
    Manual.fetchAllManagers_loop fuel w leagueId managers first s
    = (Ret (managers ++ List.concat pages)%list,
       logged s (page_requests leagueId first (List.length pages))).
Proof.
  induction pages as [|records pages IH]; intros fuel managers first s Hfuel H.
  - destruct H as [H _]. congruence.
  - destruct fuel as [|fuel]; [cbn in Hfuel; lia|].
    apply serves_to_the_end_cons in H.
    cbn [Manual.fetchAllManagers_loop].
    destruct pages as [|r' rest].
    + destruct (manual_turn_serves _ _ managers _ s _ _ H) as (hn & Hhn & Hturn).
      rewrite (bind_Ret _ _ _ _ _ Hturn), Hhn.
      cbn [List.concat List.length]. rewrite app_nil_r, page_requests_succ.
      reflexivity.
    + destruct H as [Hs Hrest].
      destruct (manual_turn_serves _ _ managers _ s _ _ Hs) as (hn & Hhn & Hturn).
      rewrite (bind_Ret _ _ _ _ _ Hturn), Hhn.
      rewrite IH by (cbn [List.length] in Hfuel |- *; lia || assumption).
      rewrite logged_logged.
      change (List.concat (records :: r' :: rest))
        with (records ++ List.concat (r' :: rest))%list.
      rewrite <- app_assoc.
      rewrite (page_requests_succ _ first (List.length (r' :: rest))).
      reflexivity.
Qed.

Lemma legacy_pages_complete w leagueId pages :
  forall fuel first s,
    (List.length pages <= fuel)%nat ->
    serves_to_the_end w [] leagueId first pages ->
    pushable w pages ->
    Legacy.getAllManagersFromLeague fuel w leagueId first s
    = (Ret (List.concat pages),
       logged s (page_requests leagueId first (List.length pages))).
Proof.
  induction pages as [|records pages IH]; intros fuel first s Hfuel H Hp.
  - destruct H as [H _]. congruence.
  - destruct fuel as [|fuel]; [cbn in Hfuel; lia|].
    apply serves_to_the_end_cons in H.
    cbn [pushable] in Hp. destruct Hp as (Hfit & Hlater & Hp).
    rewrite legacy_unfold. cbv zeta.
    assert (Hview : forall more,
               serves w [] (standings_url leagueId first) records more ->
               exists data,
                 page_of (fetch w (standings_url leagueId first) []) = Some data
                 /\ legacy_records w data = Some records
                 /\ truthy (has_next_of data) = more).
    { intros more (st & data & Hf & Hok & Hres & Hmore). exists data.
      unfold page_of, legacy_records, results_of, has_next_of.
      rewrite Hf, Hok, Hres. cbn [truthy]. rewrite Hfit. auto. }
    destruct pages as [|r' rest].
    + destruct (Hview _ H) as (data & -> & -> & ->).
      cbn [List.concat List.length]. rewrite app_nil_r, page_requests_succ.
      reflexivity.
    + destruct H as [Hs Hrest].
      destruct (Hview _ Hs) as (data & -> & -> & ->).
      rewrite IH by (cbn [List.length] in Hfuel |- *; lia || assumption).
      rewrite Hlater.
      rewrite logged_logged.
      rewrite (page_requests_succ _ first (List.length (r' :: rest))).
      reflexivity.
Qed.

(** X1. When the upstream serves pages 1 to k of a league and only the last
    of them has a falsy has-more flag, the paginator returns the records of
    all k pages in page order after exactly k requests: the [concat]
    paginator of [part_001] always; the [push] paginator of [part_000] when
    every page fits into the arguments of one call; the recursive paginator
    when the first page fits and the records of all later pages together
    fit. *)
Theorem paginator_collects_all_pages
    (w : world) (leagueId : Z) (pages : list (list value)) (fuel : nat)
    (s : state)
    (Hfuel : (List.length pages <= fuel)%nat)
    (Hiter : serves_to_the_end w Cron.headers leagueId 1 pages)
    (Hrec : serves_to_the_end w [] leagueId 1 pages) :
  let after := logged s (page_requests leagueId 1 (List.length pages)) in
  Manual.fetchAllManagers fuel w leagueId s = (Ret (List.concat pages), after)
  /\ (Forall (fits w) pages ->
      Cron.fetchAllManagers fuel w leagueId s
      = (Ret (List.concat pages), after))
  /\ (fits w (hd [] pages) -> fits w (List.concat (tl pages)) ->
      Legacy.getAllManagersFromLeague fuel w leagueId 1 s
      = (Ret (List.concat pages), after)).
Proof.
  cbv zeta. split; [|split].
  - unfold Manual.fetchAllManagers.
    rewrite (manual_loop_complete w leagueId pages fuel [] 1 s Hfuel Hiter).
    reflexivity.
  - intros Hfit. unfold Cron.fetchAllManagers.
    rewrite (cron_loop_complete w leagueId pages fuel [] 1 s Hfuel Hiter Hfit).
    reflexivity.
  - intros Hhd Htl.
    exact (legacy_pages_complete w leagueId pages fuel 1 s Hfuel Hrec
             (fits_pushable w pages Hhd Htl)).
Qed.

Lemma complete_league_serves hdrs :
  serves_to_the_end Fixture.complete_league hdrs 7 1 Fixture.two_pages.
Proof.
  split; [discriminate|].
  intros i records Hi.
  destruct i as [|[|i]]; cbn in Hi;
    try (injection Hi as <-; eexists _, _; repeat split; reflexivity).
  destruct i; discriminate.
Defined.

Lemma paginator_collects_all_pages_witness :
  Manual.fetchAllManagers 2 Fixture.complete_league 7 initial
  = (Ret (List.concat Fixture.two_pages), logged initial (page_requests 7 1 2))
  /\ Cron.fetchAllManagers 2 Fixture.complete_league 7 initial
     = (Ret (List.concat Fixture.two_pages),
        logged initial (page_requests 7 1 2))
  /\ Legacy.getAllManagersFromLeague 2 Fixture.complete_league 7 1 initial
     = (Ret (List.concat Fixture.two_pages),
        logged initial (page_requests 7 1 2)).
Proof.
  destruct (paginator_collects_all_pages
              Fixture.complete_league 7 Fixture.two_pages 2 initial
              ltac:(cbn; lia) (complete_league_serves _)
              (complete_league_serves _)) as (Hm & Hc & Hl).
  split; [exact Hm|]. split.
  - apply Hc. repeat constructor.
  - apply Hl; reflexivity.
Defined.

(* ===================================================================== *)
(** ** What the paginators never do *)
(* ===================================================================== *)

Lemma cron_loop_safe w leagueId fuel :
  forall managers first s,
  exists k,
    (k <= fuel)%nat
    /\ snd (Cron.fetchAllManagers_loop fuel w leagueId managers first s)
       = logged s (page_requests leagueId first k)
    /\ match fst (Cron.fetchAllManagers_loop fuel w leagueId managers first s) with
       | Ret _ => True
       | Throw _ => False
       | Diverge => k = fuel
       end.
Proof.
  induction fuel as [|fuel IH]; intros managers first s.
  - exists 0%nat. cbn. rewrite logged_nil. auto.
  - cbn [Cron.fetchAllManagers_loop].
    rewrite (bind_Ret _ _ _ _ _ (cron_turn_run w leagueId managers first s)).
    pose proof (cron_turn_result_page w
                  (fetch w (standings_url leagueId first) Cron.headers)
                  managers first) as Hpage.
    destruct (cron_turn_result w _ managers first) as [[managers' page'] hasMore].
    destruct (truthy hasMore).
    + rewrite (Hpage eq_refl).
      destruct (IH managers' (first + 1)
                  (logged s [EFetch (standings_url leagueId first)]))
        as (k & Hk & Hsnd & Hfst).
      exists (S k). split; [lia|]. split.
      * rewrite Hsnd, logged_logged, page_requests_succ. reflexivity.
      * destruct (fst (Cron.fetchAllManagers_loop fuel w leagueId managers'
                         (first + 1) _)); auto.
    + exists 1%nat. split; [lia|]. split; [|exact I].
      rewrite page_requests_succ. reflexivity.
Qed.

Lemma manual_loop_safe w leagueId fuel :
  forall managers first s,
  exists k,
    (k <= fuel)%nat
    /\ snd (Manual.fetchAllManagers_loop fuel w leagueId managers first s)
       = logged s (page_requests leagueId first k)
    /\ match fst (Manual.fetchAllManagers_loop fuel w leagueId managers first s) with
       | Ret _ => True
       | Throw _ => False
       | Diverge => k = fuel
       end.
Proof.
  induction fuel as [|fuel IH]; intros managers first s.
  - exists 0%nat. cbn. rewrite logged_nil. auto.
  - cbn [Manual.fetchAllManagers_loop].
    rewrite (bind_Ret _ _ _ _ _ (manual_turn_run w leagueId managers first s)).
    pose proof (manual_turn_result_page
                  (fetch w (standings_url leagueId first) Manual.headers)
                  managers first) as Hpage.
    destruct (manual_turn_result _ managers first) as [[managers' page'] hasMore].
    destruct (truthy hasMore).
    + rewrite (Hpage eq_refl).
      destruct (IH managers' (first + 1)
                  (logged s [EFetch (standings_url leagueId first)]))
        as (k & Hk & Hsnd & Hfst).
      exists (S k). split; [lia|]. split.
      * rewrite Hsnd, logged_logged, page_requests_succ. reflexivity.
      * destruct (fst (Manual.fetchAllManagers_loop fuel w leagueId managers'
                         (first + 1) _)); auto.
    + exists 1%nat. split; [lia|]. split; [|exact I].
      rewrite page_requests_succ. reflexivity.
Qed.

Lemma legacy_pages_safe w leagueId fuel :
  forall first s,
  exists k,
    (k <= fuel)%nat
    /\ snd (Legacy.getAllManagersFromLeague fuel w leagueId first s)
       = logged s (page_requests leagueId first k)
    /\ match fst (Legacy.getAllManagersFromLeague fuel w leagueId first s) with
       | Ret _ => True
       | Throw _ => False
       | Diverge => k = fuel
       end.
Proof.
  induction fuel as [|fuel IH]; intros first s.
  - exists 0%nat. cbn. rewrite logged_nil. auto.
  - rewrite legacy_unfold. cbv zeta.
    assert (Hone : exists k : nat,
               (k <= S fuel)%nat
               /\ logged s [EFetch (standings_url leagueId first)]
                  = logged s (page_requests leagueId first k)
               /\ True).
    { exists 1%nat. split; [lia|]. split; [|exact I].
      rewrite page_requests_succ. reflexivity. }
    destruct (page_of (fetch w (standings_url leagueId first) [])) as [data|];
      [|exact Hone].
    destruct (legacy_records w data) as [items|]; [|exact Hone].
    destruct (truthy (has_next_of data)); [|exact Hone].
    destruct (IH (first + 1) (logged s [EFetch (standings_url leagueId first)]))
      as (k & Hk & Hsnd & Hfst).
    exists (S k). split; [lia|].
    destruct (Legacy.getAllManagersFromLeague fuel w leagueId (first + 1) _)
      as [[next|e|] s2]; cbn [fst snd] in *; subst s2;
      rewrite logged_logged, page_requests_succ; auto.
Qed.

(** X2. Whatever the upstream answers (a refused connection, an error
    status, a body that is not JSON, [null], a page of any shape), no
    paginator throws.  With a budget of [fuel] turns it issues at most [fuel]
    requests, for consecutive pages from page 1, no store write and no clock
    reading, and it fails to return only when the budget is used up. *)
Theorem paginator_never_throws (fuel : nat) (w : world) (leagueId : Z)
    (s : state) :
  (exists k,
      (k <= fuel)%nat
      /\ snd (Cron.fetchAllManagers fuel w leagueId s)
         = logged s (page_requests leagueId 1 k)
      /\ match fst (Cron.fetchAllManagers fuel w leagueId s) with
         | Ret _ => True
         | Throw _ => False
         | Diverge => k = fuel
         end)
  /\ (exists k,
      (k <= fuel)%nat
      /\ snd (Manual.fetchAllManagers fuel w leagueId s)
         = logged s (page_requests leagueId 1 k)
      /\ match fst (Manual.fetchAllManagers fuel w leagueId s) with
         | Ret _ => True
         | Throw _ => False
         | Diverge => k = fuel
         end)
  /\ (exists k,
      (k <= fuel)%nat
      /\ snd (Legacy.getAllManagersFromLeague fuel w leagueId 1 s)
         = logged s (page_requests leagueId 1 k)
      /\ match fst (Legacy.getAllManagersFromLeague fuel w leagueId 1 s) with
         | Ret _ => True
         | Throw _ => False
         | Diverge => k = fuel
         end).
Proof.
  split; [apply cron_loop_safe|]. split; [apply manual_loop_safe|].
  apply legacy_pages_safe.
Qed.

(** X3. A first page whose result field is present but is no list (an
    object, a number, [true]) ends the pagination of the scheduled trigger
    and of the recursive paginator with an empty list: the [TypeError] of the
    spread is swallowed.  The manual trigger, which adds with [concat], takes
    the field itself as one record. *)
Theorem paginators_differ_on_non_list_results
    (w : world) (leagueId : Z) (fuel : nat) (s : state) (data : value)
    (Hiter : page_of (fetch w (standings_url leagueId 1) Cron.headers)
             = Some data)
    (Hrec : page_of (fetch w (standings_url leagueId 1) []) = Some data)
    (Hodd : non_iterable (results_of data)) :
  let after := logged s [EFetch (standings_url leagueId 1)] in
  Cron.fetchAllManagers (S fuel) w leagueId s = (Ret [], after)
  /\ Legacy.getAllManagersFromLeague (S fuel) w leagueId 1 s = (Ret [], after)
  /\ (truthy (has_next_of data) = false ->
      Manual.fetchAllManagers (S fuel) w leagueId s
      = (Ret [results_of data], after)).
Proof.
  destruct Hodd as [Htruthy Hshape]. cbv zeta. split; [|split].
  - unfold Cron.fetchAllManagers. cbn [Cron.fetchAllManagers_loop].
    rewrite (bind_Ret _ _ _ _ _ (cron_turn_run w leagueId [] 1 s)).
    unfold cron_turn_result. rewrite Hiter, Htruthy.
    destruct (results_of data); try contradiction; reflexivity.
  - rewrite legacy_unfold. cbv zeta. rewrite Hrec.
    unfold legacy_records. rewrite Htruthy.
    destruct (results_of data); try contradiction; reflexivity.
  - intros Hlast.
    unfold Manual.fetchAllManagers. cbn [Manual.fetchAllManagers_loop].
    rewrite (bind_Ret _ _ _ _ _ (manual_turn_run w leagueId [] 1 s)).
    unfold manual_turn_result. change Manual.headers with Cron.headers.
    rewrite Hiter, Htruthy, Hlast.
    destruct (results_of data); try contradiction; reflexivity.
Qed.

Lemma paginators_differ_on_non_list_results_witness :
  Cron.fetchAllManagers 1 Fixture.odd_league 7 initial
  = (Ret [], logged initial [EFetch (standings_url 7 1)])
  /\ Legacy.getAllManagersFromLeague 1 Fixture.odd_league 7 1 initial
     = (Ret [], logged initial [EFetch (standings_url 7 1)])
  /\ (truthy (has_next_of Fixture.odd_page) = false ->
      Manual.fetchAllManagers 1 Fixture.odd_league 7 initial
      = (Ret [results_of Fixture.odd_page],
         logged initial [EFetch (standings_url 7 1)])).
Proof.
  apply (paginators_differ_on_non_list_results Fixture.odd_league 7 0 initial
           Fixture.odd_page);
    [reflexivity | reflexivity | split; [reflexivity | exact I]].
Defined.

(* ===================================================================== *)
(** ** Which requests pass the secret check *)
(* ===================================================================== *)

Lemma prefix_app pat rest : prefix pat (pat ++ rest) = true.
Proof.
  induction pat as [|c pat IH]; cbn [append prefix].
  - destruct rest; reflexivity.
  - destruct (ascii_dec c c) as [_|Hne]; [exact IH | congruence].
Qed.

Lemma drop_chars_app pat rest : drop_chars (String.length pat) (pat ++ rest) = rest.
Proof.
  induction pat as [|c pat IH]; cbn [append String.length drop_chars];
    [destruct rest; reflexivity | exact IH].
Qed.

Lemma replace_first_prefix pat rest :
  replace_first pat EmptyString (pat ++ rest) = rest.
Proof.
  destruct (pat ++ rest) as [|c str] eqn:Happ.
  - cbn [replace_first]. destruct pat; [|discriminate].
    cbn in Happ. subst rest. reflexivity.
  - cbn [replace_first]. rewrite <- Happ, prefix_app, drop_chars_app.
    reflexivity.
Qed.

Lemma string_eqb_neq a b : a <> b -> String.eqb a b = false.
Proof. intros H. apply String.eqb_neq. exact H. Qed.

Lemma cron_past_the_check fuel w e req s :
  opt_strict_eq (Cron.cronSecret req) (CRON_SECRET e) = true ->
  past_the_check (fst (Cron.handler fuel w e req s)).
Proof.
  intros Hauth. pose proof (cron_handler_responses fuel w e req s Hauth) as H.
  unfold past_the_check.
  destruct (fst (Cron.handler fuel w e req s)) as [r| |]; auto.
  destruct H as [(gw & n & d & ->)|(msg & ->)]; cbn [status]; discriminate.
Qed.

Lemma cron_stopped_at_the_check fuel w e req s :
  opt_strict_eq (Cron.cronSecret req) (CRON_SECRET e) = false ->
  stopped_at_the_check (fst (Cron.handler fuel w e req s)).
Proof.
  intros Hauth. unfold stopped_at_the_check, Cron.handler.
  rewrite (bind_Ret _ _ _ _ _ (now_run w s)).
  rewrite (bind_Ret _ _ _ _ _ (now_run w _)).
  rewrite Hauth. reflexivity.
Qed.

(** X4. With [CRON_SECRET] set to a non-empty [secret], the scheduled
    trigger of [part_000] lets a request pass when its [x-vercel-cron-secret]
    header is the secret, whatever its [authorization] header, and when it
    has no such header (or an empty one) and its [authorization] header is
    ['Bearer ' + secret].  A non-empty [x-vercel-cron-secret] that differs
    from the secret is answered 401 even when the [authorization] header
    carries the right bearer token. *)
Theorem scheduled_secret_forms
    (fuel : nat) (w : world) (e : env) (s : state) (secret : string)
    (Hset : CRON_SECRET e = Some secret)
    (Hnonempty : secret <> EmptyString) :
  (forall auth,
      past_the_check
        (fst (Cron.handler fuel w e (mkRequest (Some secret) auth) s)))
  /\ (forall x,
        opt_truthy x = false ->
        past_the_check
          (fst (Cron.handler fuel w e
                  (mkRequest x (Some ("Bearer " ++ secret))) s)))
  /\ (forall other,
        other <> EmptyString -> other <> secret ->
        stopped_at_the_check
          (fst (Cron.handler fuel w e
                  (mkRequest (Some other) (Some ("Bearer " ++ secret))) s))).
Proof.
  split; [|split].
  - intros auth. apply cron_past_the_check.
    unfold Cron.cronSecret. cbn [x_vercel_cron_secret opt_truthy].
    rewrite (string_eqb_neq _ _ Hnonempty). cbn [negb].
    rewrite Hset. cbn [opt_strict_eq]. apply String.eqb_refl.
  - intros x Hx. apply cron_past_the_check.
    unfold Cron.cronSecret. cbn [x_vercel_cron_secret authorization].
    rewrite Hx. cbn [option_map]. rewrite replace_first_prefix, Hset.
    cbn [opt_strict_eq]. apply String.eqb_refl.
  - intros other Hne Hdiff. apply cron_stopped_at_the_check.
    unfold Cron.cronSecret. cbn [x_vercel_cron_secret opt_truthy].
    rewrite (string_eqb_neq _ _ Hne). cbn [negb].
    rewrite Hset. cbn [opt_strict_eq]. apply string_eqb_neq. exact Hdiff.
Qed.

Lemma scheduled_secret_forms_witness :
  (forall auth,
      past_the_check
        (fst (Cron.handler 5 Scenario.squad Scenario.configured
                (mkRequest (Some "s3cret") auth) initial)))
  /\ (forall x,
        opt_truthy x = false ->
        past_the_check
          (fst (Cron.handler 5 Scenario.squad Scenario.configured
                  (mkRequest x (Some ("Bearer " ++ "s3cret"))) initial)))
  /\ (forall other,
        other <> EmptyString -> other <> "s3cret" ->
        stopped_at_the_check
          (fst (Cron.handler 5 Scenario.squad Scenario.configured
                  (mkRequest (Some other) (Some ("Bearer " ++ "s3cret")))
                  initial))).
Proof.
  apply (scheduled_secret_forms 5 Scenario.squad Scenario.configured initial
           "s3cret"); [reflexivity | discriminate].
Defined.

(** X5. With [CRON_SECRET] unset, the scheduled trigger of [part_000] lets a
    request pass that carries no secret at all ([undefined !== undefined] is
    false), and the trigger of [src/api/cron/sync-fpl-data.js] lets exactly
    the header ['Bearer undefined'] pass. *)
Theorem unset_secret_is_matched
    (fuel : nat) (w : world) (e : env) (s : state)
    (Hunset : CRON_SECRET e = None) :
  (forall x,
      opt_truthy x = false ->
      past_the_check (fst (Cron.handler fuel w e (mkRequest x None) s)))
  /\ (forall x,
        past_the_check
          (fst (Legacy.handler fuel w e
                  (mkRequest x (Some "Bearer undefined")) s))
        /\ forall auth,
             auth <> Some "Bearer undefined" ->
             stopped_at_the_check
               (fst (Legacy.handler fuel w e (mkRequest x auth) s))).
Proof.
  split.
  - intros x Hx. apply cron_past_the_check.
    unfold Cron.cronSecret. cbn [x_vercel_cron_secret authorization].
    rewrite Hx, Hunset. reflexivity.
  - intros x. split.
    + unfold Legacy.handler. cbn [authorization]. rewrite Hunset.
      cbn [opt_to_string opt_strict_eq negb]. unfold past_the_check.
      replace (String.eqb "Bearer undefined" ("Bearer " ++ "undefined"))
        with true by reflexivity.
      cbn [negb]. unfold bind.
      destruct (Legacy.syncManagerData fuel w s) as [[v|ex|] s'] eqn:Hrun;
        cbn [fst]; [cbn; discriminate| |exact I].
      unfold Legacy.syncManagerData in Hrun.
      match type of Hrun with
      | try_catch ?m ?h ?s0 = _ =>
          destruct (try_catch_cases m h s0)
            as [(a & s1 & _ & Hc)|[(err & s1 & _ & Hc)|(s1 & _ & Hc)]]
      end; rewrite Hc in Hrun; discriminate.
    + intros auth Hauth. unfold stopped_at_the_check, Legacy.handler.
      cbn [authorization]. rewrite Hunset. cbn [opt_to_string].
      assert (Hne : opt_strict_eq auth (Some ("Bearer " ++ "undefined")) = false).
      { destruct auth as [a|]; [|reflexivity]. cbn [opt_strict_eq].
        apply string_eqb_neq. intros ->. apply Hauth. reflexivity. }
      rewrite Hne. reflexivity.
Qed.

Lemma unset_secret_is_matched_witness :
  (forall x,
      opt_truthy x = false ->
      past_the_check
        (fst (Cron.handler 5 Scenario.squad
                (mkEnv (Some "https://db.example") (Some "service-key") None)
                (mkRequest x None) initial)))
  /\ (forall x,
        past_the_check
          (fst (Legacy.handler 5 Scenario.squad
                  (mkEnv (Some "https://db.example") (Some "service-key") None)
                  (mkRequest x (Some "Bearer undefined")) initial))
        /\ forall auth,
             auth <> Some "Bearer undefined" ->
             stopped_at_the_check
               (fst (Legacy.handler 5 Scenario.squad
                       (mkEnv (Some "https://db.example") (Some "service-key")
                              None)
                       (mkRequest x auth) initial))).
Proof.
  apply (unset_secret_is_matched 5 Scenario.squad
           (mkEnv (Some "https://db.example") (Some "service-key") None)
           initial).
  reflexivity.
Defined.

(* ===================================================================== *)
(** ** How the answer of a trigger follows the store *)
(* ===================================================================== *)

Lemma silent_ret {A} (a : A) : silent (ret a).
Proof. intros s. split; [reflexivity|discriminate]. Qed.

Lemma silent_throw {A} (e : exn) : silent (@throw A e).
Proof. intros s. split; [reflexivity|discriminate]. Qed.

Lemma silent_now w : silent (now w).
Proof. intros s. split; [reflexivity|discriminate]. Qed.

Lemma silent_getprop v name : silent (getprop v name).
Proof.
  intros s. unfold getprop. destruct (nullish v); split;
    solve [reflexivity | discriminate].
Qed.

Lemma silent_bind {A B} (m : M A) (k : A -> M B) :
  silent m -> (forall a, silent (k a)) -> silent (bind m k).
Proof.
  intros Hm Hk s. unfold bind. destruct (Hm s) as [Ht Hd].
  destruct (m s) as [[a|e|] s']; cbn [fst snd] in *.
  - destruct (Hk a s') as [Ht' Hd']. split; [congruence|exact Hd'].
  - split; [exact Ht|discriminate].
  - congruence.
Qed.

Lemma silent_find_first pred items :
  (forall x, silent (pred x)) -> silent (find_first pred items).
Proof.
  intros Hp. induction items as [|x rest IH]; cbn [find_first].
  - apply silent_ret.
  - apply silent_bind; [apply Hp|].
    intros b. destruct (truthy b); [apply silent_ret | exact IH].
Qed.

Lemma silent_map_m {A B} (f : A -> M B) items :
  (forall x, silent (f x)) -> silent (map_m f items).
Proof.
  intros Hf. induction items as [|x rest IH]; cbn [map_m].
  - apply silent_ret.
  - apply silent_bind; [apply Hf|]. intros y.
    apply silent_bind; [exact IH|]. intros ys. apply silent_ret.
Qed.

Ltac silent_step :=
  first [ apply silent_bind; [|intro]
        | apply silent_find_first; intro
        | apply silent_map_m; intro
        | apply silent_ret | apply silent_throw | apply silent_now
        | apply silent_getprop ].

Lemma silent_cron_rows w gw classic :
  silent (map_m (Cron.managerRecord w gw) classic).
Proof. unfold Cron.managerRecord. repeat silent_step. Qed.

Lemma silent_manual_rows w gw classic lms h2h :
  silent (Manual.managerData w gw classic lms h2h).
Proof.
  unfold Manual.managerData, Manual.managerRecord, Manual.rank_in.
  repeat silent_step.
Qed.

Lemma map_m_Ret_inv {A B} (f : A -> M B) items :
  forall s rows s',
    map_m f items s = (Ret rows, s') ->
    Forall2 (fun x y => exists s1 s2, f x s1 = (Ret y, s2)) items rows.
Proof.
  induction items as [|x rest IH]; intros s rows s' H; cbn [map_m] in H.
  - injection H as <- _. constructor.
  - apply bind_Ret_inv in H. destruct H as (y & s1 & Hy & H).
    apply bind_Ret_inv in H. destruct H as (ys & s2 & Hys & H).
    injection H as <- _. constructor; [eauto | exact (IH _ _ _ Hys)].
Qed.

Lemma cron_record_gw w gw m s row s' :
  Cron.managerRecord w gw m s = (Ret row, s') -> field row "gw" = gw.
Proof.
  unfold Cron.managerRecord. intros H.
  repeat (apply bind_Ret_inv in H; destruct H as (? & ? & _ & H)).
  injection H as <- _. reflexivity.
Qed.

Lemma manual_record_gw w gw lms h2h m s row s' :
  Manual.managerRecord w gw lms h2h m s = (Ret row, s') -> field row "gw" = gw.
Proof.
  unfold Manual.managerRecord. intros H.
  repeat (apply bind_Ret_inv in H; destruct H as (? & ? & _ & H)).
  injection H as <- _. reflexivity.
Qed.

Lemma rows_gw {A} (f : A -> M value) gw items s rows s' :
  (forall x s1 row s2, f x s1 = (Ret row, s2) -> field row "gw" = gw) ->
  map_m f items s = (Ret rows, s') ->
  Forall (fun row => field row "gw" = gw) rows.
Proof.
  intros Hf H. apply map_m_Ret_inv in H.
  induction H as [|x y l l' (s1 & s2 & Hxy) _ IH]; constructor;
    [exact (Hf _ _ _ _ Hxy) | exact IH].
Qed.

(** The end of either handler, for any way [build] of making the rows that
    leaves the trace alone. *)
Lemma tail_ends_on_the_store w startTime gw (build : M (list value)) s :
  silent build ->
  (forall rows s', build s = (Ret rows, s') ->
                   Forall (fun row => field row "gw" = gw) rows) ->
  ends_on_the_store w gw
    (try_catch
       (rows <- build ;;
        emit (EUpsert "manager_data" (VArr rows) "manager_id,gw") ;;;
        match upsert w "manager_data" (VArr rows) "manager_id,gw" with
        | UpsertThrows ex => throw ex
        | UpsertResolved (Some msg) =>
            throw (Error ("Supabase insert failed: " ++ msg))
        | UpsertResolved None =>
            endTime <- now w ;;
            ret (Cron.success gw (List.length rows) (endTime - startTime))
        end)
       (fun error => ret (Cron.failure error)) s)
    s.
Proof.
  intros Hsilent Hgw. destruct (Hsilent s) as [Htrace Hd].
  destruct (build s) as [[rows|ex|] s1] eqn:Hbuild; cbn [fst snd] in *.
  - right. rewrite (try_catch_bind_Ret _ _ _ _ _ _ Hbuild).
    rewrite (try_catch_bind_Ret _ _ _ _ _ _ (emit_run _ _)).
    exists rows.
    destruct (upsert w "manager_data" (VArr rows) "manager_id,gw")
      as [[msg|]|ex] eqn:Hu.
    + exists 0. cbn. rewrite Htrace. repeat split. exact (Hgw _ _ eq_refl).
    + exists (clock w (tick s1) - startTime).
      cbn. rewrite Htrace. repeat split. exact (Hgw _ _ eq_refl).
    + exists 0. cbn. rewrite Htrace. repeat split. exact (Hgw _ _ eq_refl).
  - left. rewrite (try_catch_Throw _ _ _ _ _ (bind_Throw _ _ _ _ _ Hbuild)).
    cbn. split; [exact Htrace|]. eexists. split; [reflexivity|].
    eexists. reflexivity.
  - congruence.
Qed.

Lemma ends_to_answers w hdrs s pre run s4 :
  writes pre = [] ->
  trace s4 = (trace s ++ pre)%list ->
  ends_on_the_store w (period_of (fetch w bootstrap_url hdrs)) run s4 ->
  answers_by_the_store w hdrs s run.
Proof.
  intros Hw Hpre [[Htr (r & Hr & Hf)]|(rows & d & Htr & Hgw & Hr)];
    exists pre; (split; [exact Hw|]).
  - left. rewrite Htr, Hpre, Hr. auto.
  - right. exists rows, d. rewrite Htr, Hpre, <- app_assoc. auto.
Qed.

(** X6. Once the secret is accepted, a run of the scheduled trigger of
    [part_000] issues requests only until all three leagues are fetched and
    then at most one write.  When nothing is written the answer is never the
    success body; when the rows are written, every row carries the resolved
    period and the answer follows the store: success with [managersProcessed]
    equal to the number of rows written, or failure with ['Supabase insert
    failed: ' + message] when the store returns an error, or failure with the
    message of what the store call threw. *)
Theorem scheduled_answer_follows_store
    (fuel : nat) (w : world) (e : env) (req : request) (s : state)
    (Hauth : opt_strict_eq (Cron.cronSecret req) (CRON_SECRET e) = true) :
  answers_by_the_store w Cron.headers s (Cron.handler fuel w e req s).
Proof.
  unfold Cron.handler.
  rewrite (bind_Ret _ _ _ _ _ (now_run w s)).
  rewrite (bind_Ret _ _ _ _ _ (now_run w _)).
  rewrite Hauth. cbn [negb trace tick].
  set (s0 := mkState (trace s) (S (S (tick s)))).
  destruct (Cron.supabase w e); cbn [negb].
  2: { exists []. split; [reflexivity|]. left. cbn. rewrite app_nil_r.
       split; [reflexivity|]. eexists. reflexivity. }
  rewrite (try_catch_bind_Ret _ _ _ _ _ _ (ret_run tt s0)).
  rewrite (try_catch_bind_Ret _ _ _ _ _ _ (cron_getCurrentGW_run w s0)).
  set (gw := period_of (fetch w bootstrap_url Cron.headers)).
  set (s1 := logged s0 [EFetch bootstrap_url]).
  destruct (cron_leagues fuel w s1)
    as (oc & ol & oh & kc & kl & kh & later & _ & _ & _
        & (Hoc & Hol & Hoh) & _ & Hrun & Hperm).
  match type of Hperm with
  | Permutation ?ev _ => set (issued_pages := ev) in *
  end.
  assert (Hw : writes ([EFetch bootstrap_url] ++ issued_pages) = []).
  { rewrite writes_app. cbn [writes flat_map app].
    apply (perm_writes _ _ Hperm).
    rewrite !writes_app, !writes_page_requests. reflexivity. }
  destruct (settle_cases oc ol oh Hoc Hol Hoh)
    as [[Hs _]|(c & l & h & _ & _ & _ & Hs)]; rewrite Hs in Hrun.
  { rewrite (try_catch_bind_Diverge _ _ _ _ _ Hrun).
    exists ([EFetch bootstrap_url] ++ issued_pages)%list.
    split; [exact Hw|].
    left. split; [|exact I].
    unfold s1, s0, logged. cbn [snd trace]. rewrite <- !app_assoc.
    reflexivity. }
  rewrite (try_catch_bind_Ret _ _ _ _ _ _ Hrun). cbv beta iota.
  apply (ends_to_answers w Cron.headers s
           ([EFetch bootstrap_url] ++ issued_pages)%list _
           (logged s1 issued_pages)).
  - exact Hw.
  - unfold s1, s0, logged. cbn [trace]. rewrite <- !app_assoc.
    reflexivity.
  - apply tail_ends_on_the_store; [apply silent_cron_rows|].
    intros rows s' Hrows.
    exact (rows_gw _ gw c _ rows s' (cron_record_gw w gw) Hrows).
Qed.

Lemma scheduled_answer_follows_store_witness :
  answers_by_the_store Scenario.store_down Cron.headers initial
    (Cron.handler 5 Scenario.store_down Scenario.configured
       (Scenario.with_bearer "s3cret") initial).
Proof.
  apply (scheduled_answer_follows_store 5 Scenario.store_down
           Scenario.configured (Scenario.with_bearer "s3cret") initial).
  reflexivity.
Defined.

(** X7. The same holds for every run of the manual trigger of [part_001],
    which has no secret check: requests only and then at most one write,
    never the success body without the write, and an answer that follows the
    store's answer to that write. *)
Theorem manual_answer_follows_store
    (fuel : nat) (w : world) (e : env) (req : request) (s : state) :
  answers_by_the_store w Manual.headers s (Manual.handler fuel w e req s).
Proof.
  unfold Manual.handler.
  rewrite (bind_Ret _ _ _ _ _ (now_run w s)).
  rewrite (bind_Ret _ _ _ _ _ (now_run w _)).
  cbn [trace tick].
  set (s0 := mkState (trace s) (S (S (tick s)))).
  destruct (Manual.supabase w e); cbn [negb].
  2: { exists []. split; [reflexivity|]. left. cbn. rewrite app_nil_r.
       split; [reflexivity|]. eexists. reflexivity. }
  rewrite (try_catch_bind_Ret _ _ _ _ _ _ (ret_run tt s0)).
  change Manual.getCurrentGW with Cron.getCurrentGW.
  rewrite (try_catch_bind_Ret _ _ _ _ _ _ (cron_getCurrentGW_run w s0)).
  change Cron.headers with Manual.headers.
  set (gw := period_of (fetch w bootstrap_url Manual.headers)).
  set (s1 := logged s0 [EFetch bootstrap_url]).
  destruct (manual_leagues fuel w s1)
    as (oc & ol & oh & kc & kl & kh & later & _ & _ & _
        & (Hoc & Hol & Hoh) & _ & Hrun & Hperm).
  match type of Hperm with
  | Permutation ?ev _ => set (issued_pages := ev) in *
  end.
  assert (Hw : writes ([EFetch bootstrap_url] ++ issued_pages) = []).
  { rewrite writes_app. cbn [writes flat_map app].
    apply (perm_writes _ _ Hperm).
    rewrite !writes_app, !writes_page_requests. reflexivity. }
  change Cron.classicLeagueId with Manual.classicLeagueId in Hrun.
  change Cron.lmsLeagueId with Manual.lmsLeagueId in Hrun.
  change Cron.h2hLeagueId with Manual.h2hLeagueId in Hrun.
  destruct (settle_cases oc ol oh Hoc Hol Hoh)
    as [[Hs _]|(c & l & h & _ & _ & _ & Hs)]; rewrite Hs in Hrun.
  { rewrite (try_catch_bind_Diverge _ _ _ _ _ Hrun).
    exists ([EFetch bootstrap_url] ++ issued_pages)%list.
    split; [exact Hw|].
    left. split; [|exact I].
    unfold s1, s0, logged. cbn [snd trace]. rewrite <- !app_assoc.
    reflexivity. }
  rewrite (try_catch_bind_Ret _ _ _ _ _ _ Hrun). cbv beta iota.
  apply (ends_to_answers w Manual.headers s
           ([EFetch bootstrap_url] ++ issued_pages)%list _
           (logged s1 issued_pages)).
  - exact Hw.
  - unfold s1, s0, logged. cbn [trace]. rewrite <- !app_assoc.
    reflexivity.
  - change Manual.success with Cron.success.
    change Manual.failure with Cron.failure.
    apply tail_ends_on_the_store; [apply silent_manual_rows|].
    intros rows s' Hrows. unfold Manual.managerData in Hrows.
    exact (rows_gw _ gw c _ rows s' (manual_record_gw w gw l h) Hrows).
Qed.

(* ===================================================================== *)
(** ** Empty leagues *)
(* ===================================================================== *)

Lemma cron_classic_empty fuel w last s :
  (last < fuel)%nat ->
  zero_managers w Cron.headers Cron.classicLeagueId last ->
  exists k,
    Cron.fetchAllManagers fuel w Cron.classicLeagueId s
    = (Ret [], logged s (page_requests Cron.classicLeagueId 1 k))
    /\ Manual.fetchAllManagers fuel w Cron.classicLeagueId s
       = (Ret [], logged s (page_requests Cron.classicLeagueId 1 k)).
Proof.
  intros Hfuel [Hz Hl].
  pose proof (cron_loop_zero w _ Hz last fuel 1 [] s Hfuel Hl) as Hc.
  pose proof (manual_loop_zero w _ Hz last fuel 1 [] s Hfuel Hl) as Hm.
  destruct (cron_loop_requests w Cron.classicLeagueId fuel [] 1 s)
    as (k & Hk & _).
  destruct (manual_loop_requests w Cron.classicLeagueId fuel [] 1 s)
    as (k' & Hk' & _).
  assert (Hsame : Manual.fetchAllManagers_loop fuel w Cron.classicLeagueId [] 1 s
                  = Cron.fetchAllManagers_loop fuel w Cron.classicLeagueId [] 1 s).
  { apply loops_agree. intros page data Hp.
    destruct (Hz page data Hp) as [Hr|Hr]; [right|left; exact Hr].
    exists []. split; [exact Hr|]. split; [constructor | apply fits_nil]. }
  exists k. unfold Cron.fetchAllManagers, Manual.fetchAllManagers.
  rewrite Hsame.
  destruct (Cron.fetchAllManagers_loop fuel w Cron.classicLeagueId [] 1 s)
    as [o s']. cbn [fst snd] in *. subst o s'. auto.
Qed.

(** X8. When the classic league has no manager, the triggers of [part_000]
    and [part_001] still call the store, with an empty array of rows; when
    the store accepts that call they answer 200 with [managersProcessed: 0].
    (The two other leagues are fetched first, whatever they hold.) *)
Theorem empty_league_is_written_and_reported
    (fuel : nat) (w : world) (e : env) (req : request) (s : state)
    (last : nat)
    (Hauth : opt_strict_eq (Cron.cronSecret req) (CRON_SECRET e) = true)
    (Hclient : Cron.supabase w e = true)
    (Hfuel : (last < fuel)%nat)
    (Hzero : zero_managers w Cron.headers Cron.classicLeagueId last)
    (Hlms : answers_within fuel w Cron.lmsLeagueId)
    (Hh2h : answers_within fuel w Cron.h2hLeagueId)
    (Hstore : upsert w "manager_data" (VArr []) "manager_id,gw"
              = UpsertResolved None) :
  let gw := period_of (fetch w bootstrap_url Cron.headers) in
  (exists d s' ev,
      Cron.handler fuel w e req s = (Ret (Cron.success gw 0 d), s')
      /\ issued s s' ev
      /\ writes ev = [("manager_data", VArr [], "manager_id,gw")])
  /\ (exists d s' ev,
        Manual.handler fuel w e req s = (Ret (Manual.success gw 0 d), s')
        /\ issued s s' ev
        /\ writes ev = [("manager_data", VArr [], "manager_id,gw")]).
Proof.
  cbv zeta. unfold issued. split.
  - unfold Cron.handler.
    rewrite (bind_Ret _ _ _ _ _ (now_run w s)).
    rewrite (bind_Ret _ _ _ _ _ (now_run w _)).
    rewrite Hauth, Hclient. cbn [negb trace tick].
    set (s0 := mkState (trace s) (S (S (tick s)))).
    rewrite (try_catch_bind_Ret _ _ _ _ _ _ (ret_run tt s0)).
    rewrite (try_catch_bind_Ret _ _ _ _ _ _ (cron_getCurrentGW_run w s0)).
    set (s1 := logged s0 [EFetch bootstrap_url]).
    destruct (cron_leagues fuel w s1)
      as (oc & ol & oh & kc & kl & kh & later & Hc & Hl & Hh
          & (Hoc & Hol & Hoh) & _ & Hrun & Hperm).
    match type of Hperm with
    | Permutation ?ev _ => set (issued_pages := ev) in *
    end.
    assert (Hw : writes issued_pages = []).
    { apply (perm_writes _ _ Hperm).
      rewrite !writes_app, !writes_page_requests. reflexivity. }
    destruct (cron_classic_empty fuel w last s1 Hfuel Hzero) as (k1 & H1 & _).
    rewrite Hc in H1. injection H1 as -> _.
    pose proof (proj1 (Hlms s1)) as Hnl. rewrite Hl in Hnl. cbn [fst] in Hnl.
    pose proof (proj1 (Hh2h s1)) as Hnh. rewrite Hh in Hnh. cbn [fst] in Hnh.
    destruct (settle_cases (Ret []) ol oh Hoc Hol Hoh)
      as [[_ [H|[H|H]]]|(c & l & h & Hc0 & _ & _ & Hs)];
      [discriminate | congruence | congruence |].
    injection Hc0 as <-. rewrite Hs in Hrun.
    rewrite (try_catch_bind_Ret _ _ _ _ _ _ Hrun). cbv beta iota.
    rewrite (cron_tail_run w _ _ [] _ (Forall_nil _)).
    unfold finish. cbn [cron_rows List.length]. rewrite Hstore.
    cbn [finish_response].
    eexists _, _,
      ([EFetch bootstrap_url] ++ issued_pages
         ++ [EUpsert "manager_data" (VArr []) "manager_id,gw"])%list.
    split; [reflexivity|]. split.
    + unfold s1, s0, logged. cbn [trace]. rewrite <- !app_assoc.
      reflexivity.
    + rewrite (writes_app [_]), (writes_app issued_pages), Hw. reflexivity.
  - unfold Manual.handler.
    rewrite (bind_Ret _ _ _ _ _ (now_run w s)).
    rewrite (bind_Ret _ _ _ _ _ (now_run w _)).
    change (Manual.supabase w e) with (Cron.supabase w e).
    change Manual.getCurrentGW with Cron.getCurrentGW.
    change Manual.classicLeagueId with Cron.classicLeagueId.
    change Manual.lmsLeagueId with Cron.lmsLeagueId.
    change Manual.h2hLeagueId with Cron.h2hLeagueId.
    rewrite Hclient. cbn [negb trace tick].
    set (s0 := mkState (trace s) (S (S (tick s)))).
    rewrite (try_catch_bind_Ret _ _ _ _ _ _ (ret_run tt s0)).
    rewrite (try_catch_bind_Ret _ _ _ _ _ _ (cron_getCurrentGW_run w s0)).
    set (s1 := logged s0 [EFetch bootstrap_url]).
    destruct (manual_leagues fuel w s1)
      as (oc & ol & oh & kc & kl & kh & later & Hc & Hl & Hh
          & (Hoc & Hol & Hoh) & _ & Hrun & Hperm).
    match type of Hperm with
    | Permutation ?ev _ => set (issued_pages := ev) in *
    end.
    assert (Hw : writes issued_pages = []).
    { apply (perm_writes _ _ Hperm).
      rewrite !writes_app, !writes_page_requests. reflexivity. }
    destruct (cron_classic_empty fuel w last s1 Hfuel Hzero) as (k1 & _ & H1).
    rewrite Hc in H1. injection H1 as -> _.
    pose proof (proj2 (Hlms s1)) as Hnl. rewrite Hl in Hnl. cbn [fst] in Hnl.
    pose proof (proj2 (Hh2h s1)) as Hnh. rewrite Hh in Hnh. cbn [fst] in Hnh.
    destruct (settle_cases (Ret []) ol oh Hoc Hol Hoh)
      as [[_ [H|[H|H]]]|(c & l & h & Hc0 & _ & _ & Hs)];
      [discriminate | congruence | congruence |].
    injection Hc0 as <-. rewrite Hs in Hrun.
    rewrite (try_catch_bind_Ret _ _ _ _ _ _ Hrun). cbv beta iota.
    unfold Manual.managerData. cbn [map_m].
    rewrite (try_catch_bind_Ret _ _ _ _ _ _ (ret_run _ _)).
    rewrite (try_catch_bind_Ret _ _ _ _ _ _ (emit_run _ _)).
    rewrite Hstore.
    rewrite (try_catch_Ret _ _ _ _ _
               (bind_Ret _ _ _ _ _ (now_run w _))).
    eexists _, _,
      ([EFetch bootstrap_url] ++ issued_pages
         ++ [EUpsert "manager_data" (VArr []) "manager_id,gw"])%list.
    split; [reflexivity|]. split.
    + unfold s1, s0, logged. cbn [trace]. rewrite <- !app_assoc.
      reflexivity.
    + rewrite (writes_app [_]), (writes_app issued_pages), Hw. reflexivity.
Qed.

Lemma preseason_zero : zero_managers Fixture.preseason Cron.headers Cron.classicLeagueId 0.
Proof.
  split; [|reflexivity].
  intros page data. unfold Fixture.preseason, Scenario.serving.
  cbn [fetch Scenario.route].
  repeat match goal with
         | |- context [String.eqb ?a ?b] =>
             destruct (String.eqb a b); cbn [Scenario.ok page_of is_ok]
         end;
    cbn; try discriminate;
    intros H; injection H as <-; first [left; reflexivity | right; reflexivity].
Defined.

Lemma preseason_answers leagueId :
  leagueId = Cron.lmsLeagueId \/ leagueId = Cron.h2hLeagueId ->
  answers_within 5 Fixture.preseason leagueId.
Proof.
  intros [-> | ->] [tr n]; split; vm_compute; discriminate.
Defined.

Lemma empty_league_is_written_and_reported_witness :
  let gw := period_of (fetch Fixture.preseason bootstrap_url Cron.headers) in
  (exists d s' ev,
      Cron.handler 5 Fixture.preseason Scenario.configured
        (Scenario.with_bearer "s3cret") initial
      = (Ret (Cron.success gw 0 d), s')
      /\ issued initial s' ev
      /\ writes ev = [("manager_data", VArr [], "manager_id,gw")])
  /\ (exists d s' ev,
        Manual.handler 5 Fixture.preseason Scenario.configured
          (Scenario.with_bearer "s3cret") initial
        = (Ret (Manual.success gw 0 d), s')
        /\ issued initial s' ev
        /\ writes ev = [("manager_data", VArr [], "manager_id,gw")]).
Proof.
  apply (empty_league_is_written_and_reported 5 Fixture.preseason
           Scenario.configured (Scenario.with_bearer "s3cret") initial 0%nat).
  - reflexivity.
  - reflexivity.
  - lia.
  - exact preseason_zero.
  - apply preseason_answers. left. reflexivity.
  - apply preseason_answers. right. reflexivity.
  - reflexivity.
Defined.

(* ===================================================================== *)
(** ** Whole runs of the detail sync *)
(* ===================================================================== *)









(* ===================================================================== *)
(** ** Requests and writes of the detail sync *)
(* ===================================================================== *)

Lemma bounded_nil r n : bounded r n [].
Proof. repeat split; cbn; try lia. constructor. Qed.

Lemma bounded_app r1 n1 r2 n2 e1 e2 :
  bounded r1 n1 e1 -> bounded r2 n2 e2 ->
  bounded (r1 + r2) (n1 + n2) (e1 ++ e2).
Proof.
  intros (Hr1 & Hn1 & Hw1) (Hr2 & Hn2 & Hw2). unfold bounded.
  rewrite requests_app, writes_app, !length_app.
  repeat split; try lia. apply Forall_app. split; assumption.
Qed.

Lemma bounded_weaken r n r' n' ev :
  bounded r n ev -> (r <= r')%nat -> (n <= n')%nat -> bounded r' n' ev.
Proof. intros (Hr & Hn & Hw) Hr' Hn'. repeat split; try lia. exact Hw. Qed.

Lemma effects_silent {A} (m : M A) r n : silent m -> effects (bounded r n) m.
Proof.
  intros Hm s. destruct (Hm s) as [Ht Hd]. split; [exact Hd|].
  exists []. split; [unfold issued; rewrite Ht, app_nil_r; reflexivity|].
  apply bounded_nil.
Qed.

Lemma effects_weaken {A} (m : M A) r n r' n' :
  effects (bounded r n) m -> (r <= r')%nat -> (n <= n')%nat ->
  effects (bounded r' n') m.
Proof.
  intros Hm Hr Hn s. destruct (Hm s) as [Hd (ev & Hi & Hb)].
  split; [exact Hd|]. exists ev. split; [exact Hi|].
  exact (bounded_weaken _ _ _ _ _ Hb Hr Hn).
Qed.

Lemma effects_bind {A B} r1 n1 r2 n2 (m : M A) (k : A -> M B) :
  effects (bounded r1 n1) m ->
  (forall a, effects (bounded r2 n2) (k a)) ->
  effects (bounded (r1 + r2) (n1 + n2)) (bind m k).
Proof.
  intros Hm Hk s. unfold bind. destruct (Hm s) as [Hd (e1 & Hi1 & Hb1)].
  destruct (m s) as [[a|ex|] s1]; cbn [fst snd] in *.
  - destruct (Hk a s1) as [Hd2 (e2 & Hi2 & Hb2)]. split; [exact Hd2|].
    exists (e1 ++ e2)%list. split.
    + unfold issued in *. rewrite Hi2, Hi1, app_assoc. reflexivity.
    + apply bounded_app; assumption.
  - split; [discriminate|]. exists e1. split; [exact Hi1|].
    apply (bounded_weaken _ _ _ _ _ Hb1); lia.
  - congruence.
Qed.

Lemma effects_try_catch {A} r n (m : M A) (h : exn -> M A) :
  effects (bounded r n) m -> (forall e, silent (h e)) ->
  effects (bounded r n) (try_catch m h).
Proof.
  intros Hm Hh s. unfold try_catch. destruct (Hm s) as [Hd (ev & Hi & Hb)].
  destruct (m s) as [[a|ex|] s1]; cbn [fst snd] in *.
  - split; [discriminate|]. exists ev. auto.
  - destruct (Hh ex s1) as [Ht Hd']. split; [exact Hd'|].
    exists ev. split; [|exact Hb]. unfold issued in *. rewrite Ht. exact Hi.
  - congruence.
Qed.

Lemma effects_legacy_fetchFPL w endpoint :
  effects (bounded 1 0) (Legacy.fetchFPL w endpoint).
Proof.
  intros s. unfold Legacy.fetchFPL, bind. rewrite emit_run.
  assert (Hb : bounded 1 0 [EFetch (api_base ++ endpoint)])
    by (repeat split; cbn; try lia; constructor).
  destruct (fetch w (api_base ++ endpoint) []) as [e|st [data|]];
    [| destruct (negb (is_ok st)) | destruct (negb (is_ok st))];
    (split; [discriminate|]);
    exists [EFetch (api_base ++ endpoint)]; (split; [reflexivity|exact Hb]).
Qed.

Lemma effects_manager_upsert w row :
  effects (bounded 0 1)
    (Legacy.upsert_ignoring_result w "manager_data" row "manager_id").
Proof.
  intros s. unfold Legacy.upsert_ignoring_result, bind. rewrite emit_run.
  assert (Hb : bounded 0 1 [EUpsert "manager_data" row "manager_id"]).
  { repeat split; cbn; try lia. constructor; [split; reflexivity|constructor]. }
  destruct (upsert w "manager_data" row "manager_id") as [err|ex];
    (split; [discriminate|]);
    exists [EUpsert "manager_data" row "manager_id"];
    (split; [reflexivity|exact Hb]).
Qed.

Lemma silent_call_find v pred :
  (forall x, silent (pred x)) -> silent (call_find v pred).
Proof.
  intros Hp. destruct v; cbn [call_find]; try apply silent_throw.
  apply silent_find_first. exact Hp.
Qed.

Lemma silent_findCaptain picks : silent (Legacy.findCaptain picks).
Proof.
  unfold Legacy.findCaptain.
  destruct (nullish picks); [apply silent_ret|].
  destruct (nullish (field picks "picks")); [apply silent_ret|].
  apply silent_call_find. intros p. apply silent_getprop.
Qed.

Lemma silent_managerRow w manager details captainId :
  silent (Legacy.managerRow w manager details captainId).
Proof. unfold Legacy.managerRow. repeat silent_step. Qed.

Lemma effects_syncOneManager w gw manager :
  effects (bounded 2 1) (Legacy.syncOneManager w gw manager).
Proof.
  unfold Legacy.syncOneManager.
  apply effects_try_catch; [|intros e; repeat silent_step].
  apply (effects_bind 0 0 2 1); [apply effects_silent, silent_getprop|].
  intros entry.
  apply (effects_bind 1 0 1 1).
  { unfold Legacy.getManagerDetails.
    apply effects_try_catch; [apply effects_legacy_fetchFPL|].
    intros e. apply silent_ret. }
  intros details.
  destruct (negb (truthy details)); [apply effects_silent, silent_ret|].
  apply (effects_bind 0 0 1 1); [apply effects_silent, silent_getprop|].
  intros entry'.
  apply (effects_bind 1 0 0 1).
  { unfold Legacy.getManagerGWPicks.
    apply effects_try_catch; [apply effects_legacy_fetchFPL|].
    intros e. apply silent_ret. }
  intros picks.
  apply (effects_bind 0 0 0 1); [apply effects_silent, silent_findCaptain|].
  intros captain.
  apply (effects_bind 0 0 0 1); [apply effects_silent, silent_managerRow|].
  intros row. apply effects_manager_upsert.
Qed.

Lemma effects_syncEachManager w gw managers :
  effects (bounded (2 * List.length managers) (List.length managers))
    (Legacy.syncEachManager w gw managers).
Proof.
  induction managers as [|m rest IH]; cbn [Legacy.syncEachManager].
  - apply effects_silent, silent_ret.
  - apply (effects_weaken _ (2 + 2 * List.length rest) (1 + List.length rest));
      [|cbn [List.length]; lia..].
    apply effects_bind; [apply effects_syncOneManager|]. intros _. exact IH.
Qed.

(** X11. The per-manager loop of the detail sync issues, for a list of N
    managers and whatever the upstream and the store do, at most 2N requests
    and at most N writes; every write is one row for the table
    [manager_data] under the conflict key [manager_id]. *)
Theorem detail_loop_budget (w : world) (currentGW : value)
    (managers : list value) (s : state) :
  exists ev,
    issued s (snd (Legacy.syncEachManager w currentGW managers s)) ev
    /\ (List.length (requests ev) <= 2 * List.length managers)%nat
    /\ (List.length (writes ev) <= List.length managers)%nat
    /\ manager_writes (writes ev).
Proof.
  destruct (effects_syncEachManager w currentGW managers s)
    as [_ (ev & Hi & Hb)].
  exists ev. split; [exact Hi | exact Hb].
Qed.



(** The run on [Scenario.gap], where [null] stands for the second of three
    records: the row of manager 1 is written, the loop is left at the second
    entry, and neither the row of manager 3 nor the period marker follows. *)
Example detail_sync_leaves_loop_at_null :
  exists msg row,
    Legacy.syncManagerData 5 Scenario.gap initial
    = (Ret (VObj [("success", VBool false); ("error", VStr msg)]),
       mkState [EFetch bootstrap_url;
                EFetch (standings_url Legacy.classicLeagueId 1);
                EFetch (details_url (Scenario.manager 1 1 50));
                EFetch (picks_url (Scenario.manager 1 1 50) (VNum 12));
                EUpsert "manager_data" row "manager_id"] 1).
Proof. eexists _, _. vm_compute. reflexivity. Qed.

(* ===================================================================== *)
(** ** The passthrough proxy *)
(* ===================================================================== *)

Lemma cors_has_cors st body : has_cors (Proxy.mkReply st Proxy.cors body).
Proof. repeat split; discriminate. Qed.

Lemma cached_has_cors st body :
  has_cors (Proxy.mkReply st
              (Proxy.setHeader "Cache-Control" Proxy.cache_hint Proxy.cors) body).
Proof. repeat split; discriminate. Qed.

(** X13. The proxy answers every request, whatever the upstream and the
    decoding of the endpoint do: it never throws, it issues at most one
    upstream request and no store write, its status is 200, 400 or 500, the
    four cross-origin headers are on every reply, and the cache hint is on
    the reply exactly when an upstream body is relayed. *)
Theorem proxy_always_answers
    (w : world) (decode : string -> exn + string) (req : Proxy.request)
    (s : state) :
  exists r ev,
    Proxy.handler w decode req s = (Ret r, logged s ev)
    /\ (List.length ev <= 1)%nat
    /\ writes ev = []
    /\ (Proxy.reply_status r = 200 \/ Proxy.reply_status r = 400
        \/ Proxy.reply_status r = 500)
    /\ has_cors r
    /\ (relays r ->
        Proxy.getHeader "Cache-Control" (Proxy.reply_headers r)
        = Some Proxy.cache_hint)
    /\ (~ relays r ->
        Proxy.getHeader "Cache-Control" (Proxy.reply_headers r) = None).
Proof.
  assert (Hquiet : forall st body,
             (st = 200 -> body = None) ->
             (st = 200 \/ st = 400 \/ st = 500) ->
             forall ev s', (List.length ev <= 1)%nat -> writes ev = [] ->
             s' = logged s ev ->
             exists r ev',
               (Ret (Proxy.mkReply st Proxy.cors body), s')
               = (Ret r, logged s ev')
               /\ (List.length ev' <= 1)%nat
               /\ writes ev' = []
               /\ (Proxy.reply_status r = 200 \/ Proxy.reply_status r = 400
                   \/ Proxy.reply_status r = 500)
               /\ has_cors r
               /\ (relays r ->
                   Proxy.getHeader "Cache-Control" (Proxy.reply_headers r)
                   = Some Proxy.cache_hint)
               /\ (~ relays r ->
                   Proxy.getHeader "Cache-Control" (Proxy.reply_headers r)
                   = None)).
  { intros st body Hbody Hst ev s' Hlen Hw ->.
    exists (Proxy.mkReply st Proxy.cors body), ev.
    split; [reflexivity|]. split; [exact Hlen|]. split; [exact Hw|].
    split; [exact Hst|]. split; [apply cors_has_cors|]. split.
    - intros [H200 Hsome]. cbn in H200, Hsome. elim Hsome. auto.
    - intros _. reflexivity. }
  unfold Proxy.handler.
  destruct (String.eqb (Proxy.method req) "OPTIONS").
  { rewrite ret_run.
    refine (Hquiet _ _ _ _ [] _ _ _ _);
      [ intros H; first [reflexivity | discriminate H] | auto | cbn; lia
      | reflexivity | symmetry; apply logged_nil ]. }
  destruct (negb (opt_truthy (Proxy.endpoint req))).
  { rewrite (try_catch_Ret _ _ _ _ _ (ret_run _ _)).
    refine (Hquiet _ _ _ _ [] _ _ _ _);
      [ intros H; first [reflexivity | discriminate H] | auto | cbn; lia
      | reflexivity | symmetry; apply logged_nil ]. }
  destruct (decode (opt_to_string (Proxy.endpoint req))) as [ex|path].
  { rewrite (try_catch_Throw _ _ _ _ _ (bind_Throw _ _ _ _ _ (throw_run ex s))).
    rewrite ret_run.
    refine (Hquiet _ _ _ _ [] _ _ _ _);
      [ intros H; first [reflexivity | discriminate H] | auto | cbn; lia
      | reflexivity | symmetry; apply logged_nil ]. }
  rewrite (try_catch_bind_Ret _ _ _ _ _ _ (ret_run path s)).
  rewrite (try_catch_bind_Ret _ _ _ _ _ _ (emit_run _ s)).
  destruct (fetch w (api_base ++ path) Proxy.headers) as [ex|st [data|]].
  - rewrite (try_catch_Throw _ _ _ _ _ (throw_run _ _)), ret_run.
    refine (Hquiet _ _ _ _ [EFetch (api_base ++ path)] _ _ _ _);
      [ intros H; discriminate H | auto | cbn; lia | reflexivity
      | reflexivity ].
  - destruct (negb (is_ok st)).
    + rewrite (try_catch_Throw _ _ _ _ _ (throw_run _ _)), ret_run.
      refine (Hquiet _ _ _ _ [EFetch (api_base ++ path)] _ _ _ _);
      [ intros H; discriminate H | auto | cbn; lia | reflexivity
      | reflexivity ].
    + rewrite (try_catch_Ret _ _ _ _ _ (ret_run _ _)).
      eexists _, _. split; [reflexivity|]. cbn [List.length].
      split; [lia|]. split; [reflexivity|]. split; [left; reflexivity|].
      split; [apply cached_has_cors|]. split.
      * intros _. reflexivity.
      * intros Hn. elim Hn. split; [reflexivity|discriminate].
  - destruct (negb (is_ok st));
      (rewrite (try_catch_Throw _ _ _ _ _ (throw_run _ _)), ret_run;
       refine (Hquiet _ _ _ _ [EFetch (api_base ++ path)] _ _ _ _);
       [ intros H; discriminate H | auto | cbn; lia | reflexivity
       | reflexivity ]).
Qed.

(** X14. A preflight request (method [OPTIONS]) is answered 200 without a
    body, and any other request without an [endpoint] parameter (absent or
    empty) is answered 400 with [{error: 'Missing endpoint parameter'}]; in
    both cases nothing is requested upstream and the endpoint is not
    decoded. *)
Theorem proxy_answers_without_upstream
    (w : world) (decode : string -> exn + string) (req : Proxy.request)
    (s : state) :
  (Proxy.method req = "OPTIONS" ->
   Proxy.handler w decode req s = (Ret (Proxy.mkReply 200 Proxy.cors None), s))
  /\ (Proxy.method req <> "OPTIONS" ->
      opt_truthy (Proxy.endpoint req) = false ->
      Proxy.handler w decode req s
      = (Ret (Proxy.mkReply 400 Proxy.cors
                (Some (VObj [("error", VStr "Missing endpoint parameter")]))),
         s)).
Proof.
  unfold Proxy.handler. split.
  - intros ->. reflexivity.
  - intros Hm He. rewrite (string_eqb_neq _ _ Hm), He. reflexivity.
Qed.

Lemma proxy_answers_without_upstream_witness :
  Proxy.handler Scenario.squad Fixture.plain_decode
    (Proxy.mkRequest "OPTIONS" (Some "/bootstrap-static/")) initial
  = (Ret (Proxy.mkReply 200 Proxy.cors None), initial)
  /\ Proxy.handler Scenario.squad Fixture.plain_decode
       (Proxy.mkRequest "GET" None) initial
     = (Ret (Proxy.mkReply 400 Proxy.cors
               (Some (VObj [("error", VStr "Missing endpoint parameter")]))),
        initial).
Proof.
  split.
  - apply (proxy_answers_without_upstream Scenario.squad Fixture.plain_decode
             (Proxy.mkRequest "OPTIONS" (Some "/bootstrap-static/")) initial).
    reflexivity.
  - apply (proxy_answers_without_upstream Scenario.squad Fixture.plain_decode
             (Proxy.mkRequest "GET" None) initial);
      [discriminate | reflexivity].
Defined.

(** X15. For a request that is no preflight and names an endpoint, the proxy
    requests the upstream base URL followed by the decoded endpoint, once,
    with its own [User-Agent] and [Accept] headers; when the upstream answers
    with a success status and a JSON body, that body is relayed unchanged
    under status 200 with the cache hint. *)
Theorem proxy_relays_upstream_body
    (w : world) (decode : string -> exn + string) (req : Proxy.request)
    (s : state) (path : string) (st : Z) (data : value)
    (Hmethod : Proxy.method req <> "OPTIONS")
    (Hendpoint : opt_truthy (Proxy.endpoint req) = true)
    (Hdecode : decode (opt_to_string (Proxy.endpoint req)) = inr path)
    (Hfetch : fetch w (api_base ++ path) Proxy.headers
              = FetchResponse st (Some data))
    (Hok : is_ok st = true) :
  exists r,
    Proxy.handler w decode req s
    = (Ret r, logged s [EFetch (api_base ++ path)])
    /\ Proxy.reply_status r = 200
    /\ Proxy.reply_body r = Some data
    /\ Proxy.getHeader "Cache-Control" (Proxy.reply_headers r)
       = Some "public, s-maxage=30, stale-while-revalidate=60"
    /\ has_cors r.
Proof.
  unfold Proxy.handler.
  rewrite (string_eqb_neq _ _ Hmethod), Hendpoint, Hdecode. cbn [negb].
  rewrite (try_catch_bind_Ret _ _ _ _ _ _ (ret_run path s)).
  rewrite (try_catch_bind_Ret _ _ _ _ _ _ (emit_run _ s)).
  rewrite Hfetch, Hok. cbn [negb].
  rewrite (try_catch_Ret _ _ _ _ _ (ret_run _ _)).
  eexists. split; [reflexivity|]. repeat split; discriminate.
Qed.

Lemma proxy_relays_upstream_body_witness :
  exists r,
    Proxy.handler
      (mkWorld (fun url _ => Scenario.route
                               [(bootstrap_url,
                                 Scenario.ok (Scenario.bootstrap []))] url)
               (upsert Scenario.squad) (createClient Scenario.squad)
               (clock Scenario.squad) (toISOString Scenario.squad)
               (max_arguments Scenario.squad) (arrival Scenario.squad))
      Fixture.plain_decode
      (Proxy.mkRequest "GET" (Some "/bootstrap-static/")) initial
    = (Ret r, logged initial [EFetch (api_base ++ "/bootstrap-static/")])
    /\ Proxy.reply_status r = 200
    /\ Proxy.reply_body r = Some (Scenario.bootstrap [])
    /\ Proxy.getHeader "Cache-Control" (Proxy.reply_headers r)
       = Some "public, s-maxage=30, stale-while-revalidate=60"
    /\ has_cors r.
Proof.
  apply (proxy_relays_upstream_body _ Fixture.plain_decode
           (Proxy.mkRequest "GET" (Some "/bootstrap-static/")) initial
           "/bootstrap-static/" 200 (Scenario.bootstrap []));
    try reflexivity.
  discriminate.
Defined.

(** X16. When the decoding of the endpoint throws, or the upstream request
    fails, the proxy answers 500 with [{error: 'Failed to fetch FPL data',
    message}] and without the cache hint: [message] is the message of the
    decoding error (and nothing was requested), and for an upstream status
    outside 200..299 it is ['FPL API returned ' + status]. *)
Theorem proxy_reports_upstream_failure
    (w : world) (decode : string -> exn + string) (req : Proxy.request)
    (s : state)
    (Hmethod : Proxy.method req <> "OPTIONS")
    (Hendpoint : opt_truthy (Proxy.endpoint req) = true) :
  let failure msg :=
    Proxy.mkReply 500 Proxy.cors
      (Some (VObj [("error", VStr "Failed to fetch FPL data");
                   ("message", VStr msg)])) in
  (forall ex,
      decode (opt_to_string (Proxy.endpoint req)) = inl ex ->
      Proxy.handler w decode req s = (Ret (failure (message ex)), s))
  /\ (forall path,
        decode (opt_to_string (Proxy.endpoint req)) = inr path ->
        fails w Proxy.headers (api_base ++ path) ->
        exists msg,
          Proxy.handler w decode req s
          = (Ret (failure msg), logged s [EFetch (api_base ++ path)])
          /\ forall st body,
               fetch w (api_base ++ path) Proxy.headers = FetchResponse st body ->
               is_ok st = false ->
               msg = "FPL API returned " ++ Z_to_string st).
Proof.
  cbv zeta. unfold Proxy.handler.
  rewrite (string_eqb_neq _ _ Hmethod), Hendpoint. cbn [negb]. split.
  - intros ex ->.
    rewrite (try_catch_Throw _ _ _ _ _ (bind_Throw _ _ _ _ _ (throw_run ex s))).
    reflexivity.
  - intros path -> Hfails. unfold fails in Hfails.
    rewrite (try_catch_bind_Ret _ _ _ _ _ _ (ret_run path s)).
    rewrite (try_catch_bind_Ret _ _ _ _ _ _ (emit_run _ s)).
    destruct (fetch w (api_base ++ path) Proxy.headers) as [ex|st body].
    + rewrite (try_catch_Throw _ _ _ _ _ (throw_run _ _)).
      eexists. split; [reflexivity|]. intros st body H. discriminate H.
    + destruct (is_ok st) eqn:Hok; cbn [negb].
      * destruct Hfails as [Hf | ->]; [discriminate|].
        rewrite (try_catch_Throw _ _ _ _ _ (throw_run _ _)).
        eexists. split; [reflexivity|].
        intros st' body' H Hst'. injection H as <- _. congruence.
      * rewrite (try_catch_Throw _ _ _ _ _ (throw_run _ _)).
        eexists. split; [reflexivity|].
        intros st' body' H _. injection H as <- _. reflexivity.
Qed.

Lemma proxy_reports_upstream_failure_witness :
  Proxy.handler (Scenario.serving []) Fixture.failing_decode
    (Proxy.mkRequest "GET" (Some "/%")) initial
  = (Ret (Proxy.mkReply 500 Proxy.cors
            (Some (VObj [("error", VStr "Failed to fetch FPL data");
                         ("message", VStr "URI malformed")]))), initial)
  /\ exists msg,
       Proxy.handler (Scenario.serving []) Fixture.plain_decode
         (Proxy.mkRequest "GET" (Some "/entry/1/")) initial
       = (Ret (Proxy.mkReply 500 Proxy.cors
                 (Some (VObj [("error", VStr "Failed to fetch FPL data");
                              ("message", VStr msg)]))),
          logged initial [EFetch (api_base ++ "/entry/1/")])
       /\ forall st body,
            fetch (Scenario.serving []) (api_base ++ "/entry/1/") Proxy.headers
            = FetchResponse st body ->
            is_ok st = false ->
            msg = "FPL API returned " ++ Z_to_string st.
Proof.
  split.
  - refine (proj1 (proxy_reports_upstream_failure (Scenario.serving [])
                     Fixture.failing_decode
                     (Proxy.mkRequest "GET" (Some "/%")) initial _ _)
              (mkExn "URIError" "URI malformed") eq_refl);
      [discriminate | reflexivity].
  - refine (proj2 (proxy_reports_upstream_failure (Scenario.serving [])
                     Fixture.plain_decode
                     (Proxy.mkRequest "GET" (Some "/entry/1/")) initial _ _)
              "/entry/1/" eq_refl _);
      [discriminate | reflexivity | left; reflexivity].
Defined.

(* ===================================================================== *)
(** ** The diagnostic probe *)
(* ===================================================================== *)

Lemma lookup_assign_same name v d :
  lookup name (Diagnostic.assign name v d) = v.
Proof.
  induction d as [|[k old] rest IH]; cbn [Diagnostic.assign lookup].
  - rewrite String.eqb_refl. reflexivity.
  - destruct (String.eqb k name) eqn:E; cbn [lookup]; rewrite E;
      [reflexivity | exact IH].
Qed.

Lemma lookup_assign_other name name' v d :
  name <> name' ->
  lookup name' (Diagnostic.assign name v d) = lookup name' d.
Proof.
  intros Hne. induction d as [|[k old] rest IH]; cbn [Diagnostic.assign lookup].
  - rewrite (string_eqb_neq _ _ Hne). reflexivity.
  - destruct (String.eqb k name) eqn:E; cbn [lookup].
    + apply String.eqb_eq in E. subst k.
      rewrite (string_eqb_neq _ _ Hne). reflexivity.
    + rewrite IH. reflexivity.
Qed.

Lemma dbind_Ret {A B} (m : Diagnostic.D A) (k : A -> Diagnostic.D B) d s a d' s' :
  m d s = ((Ret a, d'), s') -> Diagnostic.dbind m k d s = k a d' s'.
Proof. intros H. unfold Diagnostic.dbind. rewrite H. reflexivity. Qed.

Lemma dbind_Throw {A B} (m : Diagnostic.D A) (k : A -> Diagnostic.D B)
    d s e d' s' :
  m d s = ((Throw e, d'), s') ->
  Diagnostic.dbind m k d s = ((Throw e, d'), s').
Proof. intros H. unfold Diagnostic.dbind. rewrite H. reflexivity. Qed.

(** *** The steps of the probe, one by one *)

Lemma env_check_run e d s :
  let d1 := Diagnostic.assign "step" (VStr "env_check") d in
  Diagnostic.env_check e d s
  = if opt_truthy (SUPABASE_URL e) && opt_truthy (SUPABASE_KEY e)
    then ((Ret tt,
           Diagnostic.assign "env"
             (VObj [("supabaseUrl", VStr "SET");
                    ("supabaseKey",
                     VStr ("SET (length: "
                             ++ Z_to_string
                                  (Z.of_nat (String.length
                                               (opt_to_string (SUPABASE_KEY e))))
                             ++ ")"))]) d1), s)
    else ((Throw (Error "Missing Supabase credentials. SUPABASE_URL or SUPABASE_KEY not set"),
           d1), s).
Proof.
  unfold Diagnostic.env_check, Diagnostic.dbind, Diagnostic.set,
    Diagnostic.lift, Diagnostic.dret.
  destruct (opt_truthy (SUPABASE_URL e)), (opt_truthy (SUPABASE_KEY e));
    reflexivity.
Qed.

Lemma supabase_init_run w e d s :
  let d1 := Diagnostic.assign "step" (VStr "supabase_init") d in
  Diagnostic.supabase_init w e d s
  = match createClient w (SUPABASE_URL e) (SUPABASE_KEY e) with
    | None =>
        ((Ret tt, Diagnostic.assign "supabase" (VStr "Client initialized") d1), s)
    | Some ex => ((Throw ex, d1), s)
    end.
Proof.
  unfold Diagnostic.supabase_init, Diagnostic.dbind, Diagnostic.set,
    Diagnostic.lift, Diagnostic.dret.
  destruct (createClient w (SUPABASE_URL e) (SUPABASE_KEY e)); reflexivity.
Qed.

Lemma fpl_api_test_run w d s :
  let d1 := Diagnostic.assign "step" (VStr "fpl_api_test") d in
  let s1 := logged s [EFetch bootstrap_url] in
  ((exists ex, Diagnostic.fpl_api_test w d s = ((Throw ex, d1), s1))
   \/ (exists gw,
         Diagnostic.fpl_api_test w d s
         = ((Ret tt,
             Diagnostic.assign "fpl"
               (VObj [("status", VStr "SUCCESS"); ("currentGW", gw)]) d1), s1)))
  /\ (fails w [] bootstrap_url ->
      exists ex, Diagnostic.fpl_api_test w d s = ((Throw ex, d1), s1))
  /\ (forall descriptors,
        serves_bootstrap w [] descriptors -> records descriptors ->
        exists gw,
          Diagnostic.fpl_api_test w d s
          = ((Ret tt,
              Diagnostic.assign "fpl"
                (VObj [("status", VStr "SUCCESS"); ("currentGW", gw)]) d1), s1)).
Proof.
  cbv zeta.
  remember (Diagnostic.fpl_api_test w d s) as run eqn:Hrun.
  unfold Diagnostic.fpl_api_test, Diagnostic.dbind, Diagnostic.set,
    Diagnostic.lift, Diagnostic.dret in Hrun.
  rewrite emit_run in Hrun.
  unfold fails, serves_bootstrap.
  destruct (fetch w bootstrap_url []) as [ex|st [data|]].
  - cbn in Hrun. subst run. split; [left; eexists; reflexivity|].
    split; [intros _; eexists; reflexivity|].
    intros l (st & data & H & _). discriminate H.
  - destruct (is_ok st) eqn:Hok; cbn [negb] in Hrun.
    2: { cbn in Hrun. subst run. split; [left; eexists; reflexivity|].
         split; [intros _; eexists; reflexivity|].
         intros l (st' & data' & H & Hok' & _). injection H as <- _.
         congruence. }
    rewrite ret_run in Hrun. unfold getprop at 1 in Hrun.
    destruct (nullish data) eqn:Hdata.
    { cbn in Hrun. subst run. split; [left; eexists; reflexivity|].
      split; [intros [H|H]; discriminate H|].
      intros l (st' & data' & H & _ & Hev). injection H as _ <-.
      destruct data; discriminate. }
    rewrite ret_run in Hrun.
    destruct (field data "events") as [| | | | |descriptors|] eqn:Hev;
      cbn [call_find] in Hrun;
      try (cbn in Hrun; subst run; split; [left; eexists; reflexivity|];
           split; [intros [H|H]; discriminate H|];
           intros l (st' & data' & H & _ & Hev'); injection H as _ <-;
           congruence).
    destruct (find_current_run descriptors (logged s [EFetch bootstrap_url]))
      as (r & Hfind & Hr).
    rewrite Hfind in Hrun.
    assert (Hrec : records descriptors ->
                   exists found, r = Ret found).
    { clear Hr Hev Hrun. intros Hd. revert r Hfind.
      induction Hd as [|x rest Hx Hrest IH]; intros r Hfind.
      - cbn in Hfind. injection Hfind as <-. eauto.
      - cbn [find_first] in Hfind. unfold bind at 1, getprop at 1 in Hfind.
        rewrite Hx in Hfind. cbn [ret] in Hfind.
        destruct (truthy (field x "is_current"));
          [injection Hfind as <-; eauto | exact (IH _ Hfind)]. }
    destruct r as [found|ex|]; [| |destruct Hr].
    + cbn in Hrun. subst run. split; [right; eexists; reflexivity|].
      split; [intros [H|H]; discriminate H|].
      intros _ _ _. eexists; reflexivity.
    + cbn in Hrun. subst run. split; [left; eexists; reflexivity|].
      split; [intros [H|H]; discriminate H|].
      intros l (st' & data' & H & _ & Hev') Hl. injection H as _ <-.
      rewrite Hev in Hev'. injection Hev' as <-.
      destruct (Hrec Hl) as [found Hf]. discriminate Hf.
  - destruct (negb (is_ok st)); cbn in Hrun; subst run;
      (split; [left; eexists; reflexivity|]);
      (split; [intros _; eexists; reflexivity|]);
      intros l (st' & data' & H & _); discriminate H.
Qed.

Lemma league_api_test_run w d s :
  let d1 := Diagnostic.assign "step" (VStr "league_api_test") d in
  let s1 := logged s [EFetch (standings_url 1229613 1)] in
  ((exists ex, Diagnostic.league_api_test w d s = ((Throw ex, d1), s1))
   \/ (exists info,
         Diagnostic.league_api_test w d s
         = ((Ret tt, Diagnostic.assign "league" info d1), s1)))
  /\ (fails w [] (standings_url 1229613 1) ->
      exists ex, Diagnostic.league_api_test w d s = ((Throw ex, d1), s1))
  /\ (forall st data,
        fetch w (standings_url 1229613 1) [] = FetchResponse st (Some data) ->
        is_ok st = true -> nullish data = false ->
        exists info,
          Diagnostic.league_api_test w d s
          = ((Ret tt, Diagnostic.assign "league" info d1), s1)).
Proof.
  cbv zeta.
  remember (Diagnostic.league_api_test w d s) as run eqn:Hrun.
  unfold Diagnostic.league_api_test, Diagnostic.dbind, Diagnostic.set,
    Diagnostic.lift, Diagnostic.dret in Hrun.
  cbv zeta in Hrun. rewrite emit_run in Hrun.
  unfold fails.
  destruct (fetch w (standings_url 1229613 1) []) as [ex|st [data|]].
  - cbn in Hrun. subst run. split; [left; eexists; reflexivity|].
    split; [intros _; eexists; reflexivity|].
    intros st data H. discriminate H.
  - destruct (is_ok st) eqn:Hok; cbn [negb] in Hrun.
    2: { cbn in Hrun. subst run. split; [left; eexists; reflexivity|].
         split; [intros _; eexists; reflexivity|].
         intros st' data' H Hok'. injection H as <- _. congruence. }
    rewrite ret_run in Hrun. unfold getprop in Hrun.
    destruct (nullish data) eqn:Hdata.
    + cbn in Hrun. subst run. split; [left; eexists; reflexivity|].
      split; [intros [H|H]; discriminate H|].
      intros st' data' H _ Hn. injection H as _ <-. congruence.
    + cbn in Hrun. subst run. split; [right; eexists; reflexivity|].
      split; [intros [H|H]; discriminate H|].
      intros _ _ _ _ _. eexists; reflexivity.
  - destruct (negb (is_ok st)); cbn in Hrun; subst run;
      (split; [left; eexists; reflexivity|]);
      (split; [intros _; eexists; reflexivity|]);
      intros st' data' H; discriminate H.
Qed.

Lemma supabase_insert_run w rt d s :
  nullish (lookup "fpl" d) = false ->
  let d1 := Diagnostic.assign "step" (VStr "supabase_insert") d in
  let row :=
    Diagnostic.testData w (field (lookup "fpl" d) "currentGW")
      (clock w (tick s)) in
  let s1 :=
    logged (mkState (trace s) (S (tick s)))
      [EUpsert "manager_data" row "manager_id,gw"] in
  let d2 := Diagnostic.assign "supabase_insert" (VStr "SUCCESS") d1 in
  let verified data :=
    ((Ret tt,
      Diagnostic.assign "supabase_verify"
        (VStr (if truthy data then "DATA FOUND" else "NO DATA")) d2), s1) in
  Diagnostic.supabase_insert w rt d s
  = match upsert w "manager_data" row "manager_id,gw" with
    | UpsertThrows ex => ((Throw ex, d1), s1)
    | UpsertResolved (Some msg) =>
        ((Throw (Error ("Supabase insert failed: " ++ msg)), d1), s1)
    | UpsertResolved None =>
        match Diagnostic.select_single rt "manager_data" "manager_id"
                (VNum 999999) with
        | Diagnostic.SelectThrows ex => ((Throw ex, d2), s1)
        | Diagnostic.SelectResolved data None => verified data
        | Diagnostic.SelectResolved data (Some (code, msg)) =>
            if String.eqb code "PGRST116" then verified data
            else ((Throw (Error ("Supabase query failed: " ++ msg)), d2), s1)
        end
    end.
Proof.
  intros Hfpl. cbv zeta.
  unfold Diagnostic.supabase_insert, Diagnostic.dbind, Diagnostic.set,
    Diagnostic.get, Diagnostic.lift, Diagnostic.dret.
  rewrite (lookup_assign_other "step" "fpl") by discriminate.
  unfold getprop. rewrite Hfpl. rewrite ret_run, now_run. cbv zeta.
  rewrite emit_run.
  destruct (upsert w "manager_data" _ "manager_id,gw") as [[msg|]|ex];
    try reflexivity.
  rewrite ret_run.
  destruct (Diagnostic.select_single rt "manager_data" "manager_id"
              (VNum 999999)) as [data [[code msg]|]|ex]; try reflexivity.
  destruct (String.eqb code "PGRST116"); reflexivity.
Qed.

(** *** The probe as a whole *)

Ltac probe_stops step ev :=
  eexists _, ev, step;
  split; [reflexivity|];
  split; [unfold issued, logged; cbn [snd trace];
          rewrite <- ?app_assoc, ?app_nil_r; reflexivity|].

Ltac probe_body :=
  first [ left; split; [reflexivity|]; unfold probe_success; cbn;
          repeat split; reflexivity
        | right; eexists; unfold probe_failure; cbn;
          repeat split; eexists; reflexivity ].

(** X17. Whatever the environment, the upstream and the store do, the
    diagnostic probe answers: 200 with the success body, or 500 with a body
    that names the step it stopped at and carries one error entry for that
    step.  The events of the run match that step: no request before
    [fpl_api_test], the bootstrap request, then the standings request, and
    the write of the test row 999999 only at [supabase_insert], which is the
    only step a success can follow. *)
Theorem probe_always_answers (w : world) (rt : Diagnostic.runtime) (e : env)
    (s : state) :
  probe_outcome s (Diagnostic.handler w rt e s).
Proof.
  unfold Diagnostic.handler, bind. rewrite now_run.
  set (s0 := mkState (trace s) (S (tick s))).
  set (d0 := [("timestamp", VStr (toISOString w (clock w (tick s))));
              ("step", VStr "init"); ("errors", VArr [])]).
  unfold Diagnostic.steps.
  pose proof (env_check_run e d0 s0) as E1. cbv zeta in E1.
  destruct (opt_truthy (SUPABASE_URL e) && opt_truthy (SUPABASE_KEY e)).
  2: { rewrite (dbind_Throw _ _ _ _ _ _ _ E1).
       probe_stops "env_check" (@nil event).
       split; [left; split; [left; reflexivity|reflexivity]|]. probe_body. }
  rewrite (dbind_Ret _ _ _ _ _ _ _ E1). clear E1.
  match goal with
  | |- context [Diagnostic.dbind (Diagnostic.supabase_init w e) _ ?d ?s1] =>
      pose proof (supabase_init_run w e d s1) as E2; cbv zeta in E2
  end.
  destruct (createClient w (SUPABASE_URL e) (SUPABASE_KEY e)) as [ex|].
  { rewrite (dbind_Throw _ _ _ _ _ _ _ E2).
    probe_stops "supabase_init" (@nil event).
    split; [left; split; [right; reflexivity|reflexivity]|]. probe_body. }
  rewrite (dbind_Ret _ _ _ _ _ _ _ E2). clear E2.
  match goal with
  | |- context [Diagnostic.dbind (Diagnostic.fpl_api_test w) _ ?d ?s1] =>
      destruct (fpl_api_test_run w d s1) as [[[ex E3]|[gw E3]] _]
  end.
  { rewrite (dbind_Throw _ _ _ _ _ _ _ E3).
    probe_stops "fpl_api_test" [EFetch bootstrap_url].
    split; [right; left; split; reflexivity|]. probe_body. }
  rewrite (dbind_Ret _ _ _ _ _ _ _ E3). clear E3.
  match goal with
  | |- context [Diagnostic.dbind (Diagnostic.league_api_test w) _ ?d ?s1] =>
      destruct (league_api_test_run w d s1) as [[[ex E4]|[info E4]] _]
  end.
  { rewrite (dbind_Throw _ _ _ _ _ _ _ E4).
    probe_stops "league_api_test"
      [EFetch bootstrap_url; EFetch (standings_url 1229613 1)].
    split; [right; right; left; split; reflexivity|]. probe_body. }
  rewrite (dbind_Ret _ _ _ _ _ _ _ E4). clear E4.
  match goal with
  | |- context [Diagnostic.dbind (Diagnostic.supabase_insert w rt) _ ?d ?s1] =>
      pose proof (supabase_insert_run w rt d s1 eq_refl) as E5; cbv zeta in E5
  end.
  match type of E5 with
  | _ = match upsert w _ ?row _ with _ => _ end => set (r5 := row) in *
  end.
  assert (Hat : events_at "supabase_insert"
                  [EFetch bootstrap_url; EFetch (standings_url 1229613 1);
                   EUpsert "manager_data" r5 "manager_id,gw"]).
  { right; right; right. split; [reflexivity|].
    exists r5. repeat split; reflexivity. }
  destruct (upsert w "manager_data" r5 "manager_id,gw") as [[msg|]|ex].
  - rewrite (dbind_Throw _ _ _ _ _ _ _ E5).
    probe_stops "supabase_insert"
      [EFetch bootstrap_url; EFetch (standings_url 1229613 1);
       EUpsert "manager_data" r5 "manager_id,gw"].
    split; [exact Hat|]. probe_body.
  - destruct (Diagnostic.select_single rt "manager_data" "manager_id"
                (VNum 999999)) as [data [[code m]|]|ex].
    + destruct (String.eqb code "PGRST116").
      * rewrite (dbind_Ret _ _ _ _ _ _ _ E5).
        probe_stops "supabase_insert"
          [EFetch bootstrap_url; EFetch (standings_url 1229613 1);
           EUpsert "manager_data" r5 "manager_id,gw"].
        split; [exact Hat|]. probe_body.
      * rewrite (dbind_Throw _ _ _ _ _ _ _ E5).
        probe_stops "supabase_insert"
          [EFetch bootstrap_url; EFetch (standings_url 1229613 1);
           EUpsert "manager_data" r5 "manager_id,gw"].
        split; [exact Hat|]. probe_body.
    + rewrite (dbind_Ret _ _ _ _ _ _ _ E5).
      probe_stops "supabase_insert"
        [EFetch bootstrap_url; EFetch (standings_url 1229613 1);
         EUpsert "manager_data" r5 "manager_id,gw"].
      split; [exact Hat|]. probe_body.
    + rewrite (dbind_Throw _ _ _ _ _ _ _ E5).
      probe_stops "supabase_insert"
        [EFetch bootstrap_url; EFetch (standings_url 1229613 1);
         EUpsert "manager_data" r5 "manager_id,gw"].
      split; [exact Hat|]. probe_body.
  - rewrite (dbind_Throw _ _ _ _ _ _ _ E5).
    probe_stops "supabase_insert"
      [EFetch bootstrap_url; EFetch (standings_url 1229613 1);
       EUpsert "manager_data" r5 "manager_id,gw"].
    split; [exact Hat|]. probe_body.
Qed.

Lemma first_current_run descriptors s :
  records descriptors ->
  find_first (fun e => getprop e "is_current") descriptors s
  = (Ret (first_current descriptors), s).
Proof.
  induction 1 as [|d rest Hd _ IH]; [reflexivity|].
  cbn [find_first first_current]. unfold bind at 1, getprop at 1.
  rewrite Hd. cbn [ret].
  destruct (truthy (field d "is_current")); [reflexivity | exact IH].
Qed.

Lemma first_current_unflagged descriptors :
  records descriptors ->
  (forall d, In d descriptors -> ~ flagged d) ->
  first_current descriptors = VUndefined.
Proof.
  induction 1 as [|d rest Hd _ IH]; intros Hnone; [reflexivity|].
  cbn [first_current].
  destruct (truthy (field d "is_current")) eqn:Ht.
  - destruct (Hnone d (or_introl eq_refl)). split; assumption.
  - apply IH. intros x Hx. apply Hnone. right. exact Hx.
Qed.

Lemma fpl_api_test_served w d s descriptors :
  serves_bootstrap w [] descriptors -> records descriptors ->
  Diagnostic.fpl_api_test w d s
  = ((Ret tt,
      Diagnostic.assign "fpl"
        (VObj [("status", VStr "SUCCESS");
               ("currentGW", probe_gw descriptors)])
        (Diagnostic.assign "step" (VStr "fpl_api_test") d)),
     logged s [EFetch bootstrap_url]).
Proof.
  intros (st & data & Hf & Hok & Hev) Hrec.
  unfold Diagnostic.fpl_api_test, Diagnostic.dbind, Diagnostic.set,
    Diagnostic.lift, Diagnostic.dret.
  rewrite emit_run, Hf, Hok. cbn [negb]. rewrite ret_run.
  assert (Hdata : nullish data = false)
    by (destruct data; try reflexivity; discriminate Hev).
  rewrite (getprop_defined data "events" _ Hdata), Hev.
  cbn [call_find]. rewrite (first_current_run _ _ Hrec). reflexivity.
Qed.

Lemma fpl_api_test_status w d s st body :
  fetch w bootstrap_url [] = FetchResponse st body -> is_ok st = false ->
  Diagnostic.fpl_api_test w d s
  = ((Throw (Error ("FPL API returned " ++ Z_to_string st)),
      Diagnostic.assign "step" (VStr "fpl_api_test") d),
     logged s [EFetch bootstrap_url]).
Proof.
  intros Hf Hok.
  unfold Diagnostic.fpl_api_test, Diagnostic.dbind, Diagnostic.set,
    Diagnostic.lift, Diagnostic.dret.
  rewrite emit_run, Hf, Hok. reflexivity.
Qed.

Lemma league_api_test_status w d s st body :
  fetch w (standings_url 1229613 1) [] = FetchResponse st body ->
  is_ok st = false ->
  Diagnostic.league_api_test w d s
  = ((Throw (Error ("League API returned " ++ Z_to_string st)),
      Diagnostic.assign "step" (VStr "league_api_test") d),
     logged s [EFetch (standings_url 1229613 1)]).
Proof.
  intros Hf Hok.
  unfold Diagnostic.league_api_test, Diagnostic.dbind, Diagnostic.set,
    Diagnostic.lift, Diagnostic.dret.
  cbv zeta. rewrite emit_run, Hf, Hok. reflexivity.
Qed.

Ltac probe_start :=
  unfold Diagnostic.handler, bind; rewrite now_run; unfold Diagnostic.steps.

Ltac pass_env Hu Hk :=
  erewrite dbind_Ret by (rewrite env_check_run, Hu, Hk; reflexivity).

Ltac pass_init Hc :=
  erewrite dbind_Ret by (rewrite supabase_init_run, Hc; reflexivity).

Ltac pass_fpl Hb Hrec :=
  erewrite dbind_Ret by (exact (fpl_api_test_served _ _ _ _ Hb Hrec)).

Ltac pass_league Hf Hok Hdata :=
  match goal with
  | |- context [Diagnostic.dbind (Diagnostic.league_api_test ?w) _ ?d ?s1] =>
      let info := fresh "info" in
      let E := fresh "E" in
      destruct (proj2 (proj2 (league_api_test_run w d s1)) _ _ Hf Hok Hdata)
        as [info E];
      rewrite (dbind_Ret _ _ _ _ _ _ _ E); clear E
  end.

Ltac probe_issued :=
  unfold issued, logged; cbn [snd trace];
  rewrite <- ?app_assoc, ?app_nil_r; reflexivity.

Ltac probe_failed :=
  unfold probe_failure; cbn; repeat split; eexists; reflexivity.

(** X18. Without SUPABASE_URL or SUPABASE_KEY the probe stops at its first
    step: it answers 500 with the message about missing credentials and the
    step [env_check], and it has sent no request and written nothing. *)
Theorem probe_missing_credentials (w : world) (rt : Diagnostic.runtime)
    (e : env) (s : state) :
  opt_truthy (SUPABASE_URL e) = false \/ opt_truthy (SUPABASE_KEY e) = false ->
  exists r,
    fst (Diagnostic.handler w rt e s) = Ret r
    /\ issued s (snd (Diagnostic.handler w rt e s)) []
    /\ probe_failure r "env_check"
         "Missing Supabase credentials. SUPABASE_URL or SUPABASE_KEY not set".
Proof.
  intros Hmiss. probe_start.
  erewrite dbind_Throw.
  2: { rewrite env_check_run.
       destruct Hmiss as [-> | ->]; rewrite ?andb_false_r; reflexivity. }
  eexists. split; [reflexivity|]. split; [probe_issued | probe_failed].
Qed.

Lemma probe_missing_credentials_witness :
  exists r,
    fst (Diagnostic.handler Scenario.squad Bench.row_absent
           Scenario.no_credentials (mkState [] 0)) = Ret r
    /\ issued (mkState [] 0)
         (snd (Diagnostic.handler Scenario.squad Bench.row_absent
                 Scenario.no_credentials (mkState [] 0))) []
    /\ probe_failure r "env_check"
         "Missing Supabase credentials. SUPABASE_URL or SUPABASE_KEY not set".
Proof.
  apply (probe_missing_credentials Scenario.squad Bench.row_absent
           Scenario.no_credentials (mkState [] 0)).
  left. reflexivity.
Defined.

(** X19. With credentials and a client, a bootstrap answer whose status is
    not a success status stops the probe at [fpl_api_test]: 500 with the
    message [FPL API returned <status>], after that one request, and
    nothing is written. *)
Theorem probe_reports_bootstrap_status (w : world) (rt : Diagnostic.runtime)
    (e : env) (s : state) (st : Z) (body : option value) :
  opt_truthy (SUPABASE_URL e) = true ->
  opt_truthy (SUPABASE_KEY e) = true ->
  createClient w (SUPABASE_URL e) (SUPABASE_KEY e) = None ->
  fetch w bootstrap_url [] = FetchResponse st body ->
  is_ok st = false ->
  exists r,
    fst (Diagnostic.handler w rt e s) = Ret r
    /\ issued s (snd (Diagnostic.handler w rt e s)) [EFetch bootstrap_url]
    /\ probe_failure r "fpl_api_test" ("FPL API returned " ++ Z_to_string st).
Proof.
  intros Hu Hk Hc Hf Hok. probe_start.
  pass_env Hu Hk. pass_init Hc.
  erewrite dbind_Throw by (exact (fpl_api_test_status _ _ _ _ _ Hf Hok)).
  eexists. split; [reflexivity|]. split; [probe_issued | probe_failed].
Qed.

Lemma probe_reports_bootstrap_status_witness :
  exists r,
    fst (Diagnostic.handler Scenario.empty_league Bench.row_absent
           Scenario.configured (mkState [] 0)) = Ret r
    /\ issued (mkState [] 0)
         (snd (Diagnostic.handler Scenario.empty_league Bench.row_absent
                 Scenario.configured (mkState [] 0)))
         [EFetch bootstrap_url]
    /\ probe_failure r "fpl_api_test" ("FPL API returned " ++ Z_to_string 503).
Proof.
  apply (probe_reports_bootstrap_status Scenario.empty_league Bench.row_absent
           Scenario.configured (mkState [] 0) 503 None); reflexivity.
Defined.

(** X20. When the bootstrap request is answered but the standings request
    comes back with a status that is not a success status, the probe stops
    at [league_api_test]: 500 with the message [League API returned
    <status>], after the two requests, and nothing is written.  The
    diagnostics of that answer carry the period found at the step before. *)
Theorem probe_reports_league_status (w : world) (rt : Diagnostic.runtime)
    (e : env) (s : state) (descriptors : list value) (st : Z)
    (body : option value) :
  opt_truthy (SUPABASE_URL e) = true ->
  opt_truthy (SUPABASE_KEY e) = true ->
  createClient w (SUPABASE_URL e) (SUPABASE_KEY e) = None ->
  serves_bootstrap w [] descriptors ->
  records descriptors ->
  fetch w (standings_url 1229613 1) [] = FetchResponse st body ->
  is_ok st = false ->
  exists r,
    fst (Diagnostic.handler w rt e s) = Ret r
    /\ issued s (snd (Diagnostic.handler w rt e s))
         [EFetch bootstrap_url; EFetch (standings_url 1229613 1)]
    /\ probe_failure r "league_api_test"
         ("League API returned " ++ Z_to_string st)
    /\ field (field (diagnostics_of r) "fpl") "currentGW"
       = probe_gw descriptors.
Proof.
  intros Hu Hk Hc Hb Hrec Hf Hok. probe_start.
  pass_env Hu Hk. pass_init Hc. pass_fpl Hb Hrec.
  erewrite dbind_Throw by (exact (league_api_test_status _ _ _ _ _ Hf Hok)).
  eexists. split; [reflexivity|]. split; [probe_issued|].
  split; [probe_failed | reflexivity].
Qed.

Lemma season_serves_periods :
  serves_bootstrap Scenario.season []
    [Scenario.period 10 false; Scenario.period 11 true].
Proof. eexists _, _. repeat split. Defined.

Lemma periods_are_records (a b : Z) (fa fb : bool) :
  records [Scenario.period a fa; Scenario.period b fb].
Proof. repeat constructor. Defined.

Lemma probe_reports_league_status_witness :
  exists r,
    fst (Diagnostic.handler Scenario.season Bench.row_absent
           Scenario.configured (mkState [] 0)) = Ret r
    /\ issued (mkState [] 0)
         (snd (Diagnostic.handler Scenario.season Bench.row_absent
                 Scenario.configured (mkState [] 0)))
         [EFetch bootstrap_url; EFetch (standings_url 1229613 1)]
    /\ probe_failure r "league_api_test"
         ("League API returned " ++ Z_to_string 503)
    /\ field (field (diagnostics_of r) "fpl") "currentGW"
       = probe_gw [Scenario.period 10 false; Scenario.period 11 true].
Proof.
  apply (probe_reports_league_status Scenario.season Bench.row_absent
           Scenario.configured (mkState [] 0)
           [Scenario.period 10 false; Scenario.period 11 true] 503 None);
    try reflexivity.
  - exact season_serves_periods.
  - apply periods_are_records.
Defined.

(** The run of the probe up to the store. *)
Ltac probe_to_store Hready :=
  let Hu := fresh "Hu" in
  let Hk := fresh "Hk" in
  let Hc := fresh "Hc" in
  let Hb := fresh "Hb" in
  let Hrec := fresh "Hrec" in
  let st := fresh "st" in
  let data := fresh "data" in
  let Hf := fresh "Hf" in
  let Hok := fresh "Hok" in
  let Hdata := fresh "Hdata" in
  destruct Hready as (Hu & Hk & Hc & Hb & Hrec & st & data & Hf & Hok & Hdata);
  probe_start; pass_env Hu Hk; pass_init Hc; pass_fpl Hb Hrec;
  pass_league Hf Hok Hdata.

Lemma squad_ready : probe_ready Scenario.squad Scenario.configured Bench.periods.
Proof.
  repeat split; try reflexivity.
  - eexists _, _. repeat split.
  - repeat constructor.
  - eexists _, _. repeat split.
Defined.

Lemma refusing_store_ready :
  probe_ready Fixture.refusing_store Scenario.configured Bench.periods.
Proof.
  repeat split; try reflexivity.
  - eexists _, _. repeat split.
  - repeat constructor.
  - eexists _, _. repeat split.
Defined.

Lemma between_seasons_ready :
  probe_ready Bench.between_seasons Scenario.configured
    [Scenario.period 37 false; Scenario.period 38 false].
Proof.
  repeat split; try reflexivity.
  - eexists _, _. repeat split.
  - repeat constructor.
  - eexists _, _. repeat split.
Defined.

(** X21. When nothing stands between the probe and the store, the probe
    writes, after its two requests, one row to [manager_data] under the
    conflict key [manager_id,gw]: the row of manager 999999, stamped with
    the second reading of the clock, whose [gw] is the identifier of the
    first period flagged current when that identifier is truthy.  When no
    period is flagged, that [gw] is the string [Unknown]. *)
Theorem probe_writes_test_row (w : world) (rt : Diagnostic.runtime) (e : env)
    (s : state) (descriptors : list value) :
  probe_ready w e descriptors ->
  issued s (snd (Diagnostic.handler w rt e s)) (probe_trace w descriptors s)
  /\ ((forall d, In d descriptors -> ~ flagged d) ->
      field (probe_row w descriptors s) "gw" = VStr "Unknown")
  /\ (forall before d after,
        descriptors = (before ++ d :: after)%list ->
        Forall (fun y => truthy (field y "is_current") = false) before ->
        flagged d ->
        truthy (field d "id") = true ->
        field (probe_row w descriptors s) "gw" = field d "id").
Proof.
  intros Hready. split; [|split].
  - probe_to_store Hready.
    match goal with
    | |- context [Diagnostic.dbind (Diagnostic.supabase_insert w rt) _ ?d ?s1] =>
        pose proof (supabase_insert_run w rt d s1 eq_refl) as E5;
        cbv zeta in E5
    end.
    change (upsert w "manager_data" _ "manager_id,gw")
      with (upsert w "manager_data" (probe_row w descriptors s) "manager_id,gw")
      in E5.
    destruct (upsert w "manager_data" (probe_row w descriptors s)
                "manager_id,gw") as [[msg|]|ex].
    + rewrite (dbind_Throw _ _ _ _ _ _ _ E5). probe_issued.
    + destruct (Diagnostic.select_single rt "manager_data" "manager_id"
                  (VNum 999999)) as [vd [[code m]|]|ex].
      * destruct (String.eqb code "PGRST116").
        -- rewrite (dbind_Ret _ _ _ _ _ _ _ E5). probe_issued.
        -- rewrite (dbind_Throw _ _ _ _ _ _ _ E5). probe_issued.
      * rewrite (dbind_Ret _ _ _ _ _ _ _ E5). probe_issued.
      * rewrite (dbind_Throw _ _ _ _ _ _ _ E5). probe_issued.
    + rewrite (dbind_Throw _ _ _ _ _ _ _ E5). probe_issued.
  - intros Hnone. destruct Hready as (_ & _ & _ & _ & Hrec & _).
    cbn. unfold probe_gw.
    rewrite (first_current_unflagged _ Hrec Hnone). reflexivity.
  - intros before d after -> Hbefore [Hd Hflag] Hid.
    cbn. unfold probe_gw.
    assert (Hfirst : first_current (before ++ d :: after) = d).
    { clear Hready.
      induction Hbefore as [|y rest Hy _ IH]; cbn [app first_current].
      - rewrite Hflag. reflexivity.
      - rewrite Hy. exact IH. }
    rewrite Hfirst, (optchain_defined _ _ Hd).
    unfold or_else. rewrite Hid. reflexivity.
Qed.

Lemma probe_writes_test_row_witness :
  issued (mkState [] 0)
    (snd (Diagnostic.handler Bench.between_seasons Bench.row_absent
            Scenario.configured (mkState [] 0)))
    (probe_trace Bench.between_seasons
       [Scenario.period 37 false; Scenario.period 38 false] (mkState [] 0))
  /\ field (probe_row Bench.between_seasons
              [Scenario.period 37 false; Scenario.period 38 false]
              (mkState [] 0)) "gw" = VStr "Unknown".
Proof.
  destruct (probe_writes_test_row Bench.between_seasons Bench.row_absent
              Scenario.configured (mkState [] 0)
              [Scenario.period 37 false; Scenario.period 38 false]
              between_seasons_ready) as (Hev & Hnone & _).
  split; [exact Hev|].
  apply Hnone. intros d [<- | [<- | []]] [_ H]; discriminate H.
Defined.

(** X22. When the store resolves the write of the test row with an error,
    the probe answers 500 with the message [Supabase insert failed:
    <message>] at the step [supabase_insert]; the row was sent, and the
    diagnostics carry no [supabase_insert] property. *)
Theorem probe_reports_refused_write (w : world) (rt : Diagnostic.runtime)
    (e : env) (s : state) (descriptors : list value) (msg : string) :
  probe_ready w e descriptors ->
  upsert w "manager_data" (probe_row w descriptors s) "manager_id,gw"
  = UpsertResolved (Some msg) ->
  exists r,
    Diagnostic.handler w rt e s
    = (Ret r,
       logged (mkState (trace s) (S (S (tick s)))) (probe_trace w descriptors s))
    /\ probe_failure r "supabase_insert" ("Supabase insert failed: " ++ msg)
    /\ field (diagnostics_of r) "supabase_insert" = VUndefined.
Proof.
  intros Hready Hup. probe_to_store Hready.
  erewrite dbind_Throw.
  2: { rewrite supabase_insert_run by reflexivity. cbv zeta.
       change (upsert w "manager_data" _ "manager_id,gw")
         with (upsert w "manager_data" (probe_row w descriptors s)
                 "manager_id,gw").
       rewrite Hup. reflexivity. }
  eexists. split.
  { apply f_equal2; [reflexivity|].
    unfold logged, probe_trace, probe_row. cbn [trace tick].
    rewrite <- !app_assoc. reflexivity. }
  split; [probe_failed | reflexivity].
Qed.

Lemma probe_reports_refused_write_witness :
  exists r,
    Diagnostic.handler Fixture.refusing_store Bench.row_absent
      Scenario.configured (mkState [] 0)
    = (Ret r,
       logged (mkState [] 2)
         (probe_trace Fixture.refusing_store Bench.periods (mkState [] 0)))
    /\ probe_failure r "supabase_insert"
         ("Supabase insert failed: " ++ "permission denied")
    /\ field (diagnostics_of r) "supabase_insert" = VUndefined.
Proof.
  apply (probe_reports_refused_write Fixture.refusing_store Bench.row_absent
           Scenario.configured (mkState [] 0) Bench.periods
           "permission denied" refusing_store_ready).
  reflexivity.
Defined.

(** X23. After an accepted write, an error of the read is tolerated when
    its code is PGRST116: the probe then answers 200 with the success body
    and [supabase_verify] set by the truthiness of the data read.  With any
    other code it answers 500 with [Supabase query failed: <message>],
    still at the step [supabase_insert], in diagnostics that already record
    the write as a success. *)
Theorem probe_tolerates_absent_row (w : world) (rt : Diagnostic.runtime)
    (e : env) (s : state) (descriptors : list value) (data : value)
    (code msg : string) :
  probe_ready w e descriptors ->
  upsert w "manager_data" (probe_row w descriptors s) "manager_id,gw"
  = UpsertResolved None ->
  Diagnostic.select_single rt "manager_data" "manager_id" (VNum 999999)
  = Diagnostic.SelectResolved data (Some (code, msg)) ->
  exists r,
    Diagnostic.handler w rt e s
    = (Ret r,
       logged (mkState (trace s) (S (S (tick s)))) (probe_trace w descriptors s))
    /\ field (diagnostics_of r) "supabase_insert" = VStr "SUCCESS"
    /\ if String.eqb code "PGRST116"
       then probe_success r
            /\ field (diagnostics_of r) "supabase_verify"
               = VStr (if truthy data then "DATA FOUND" else "NO DATA")
       else probe_failure r "supabase_insert"
              ("Supabase query failed: " ++ msg)
            /\ field (diagnostics_of r) "supabase_verify" = VUndefined.
Proof.
  intros Hready Hup Hsel. probe_to_store Hready.
  match goal with
  | |- context [Diagnostic.dbind (Diagnostic.supabase_insert w rt) _ ?d ?s1] =>
      pose proof (supabase_insert_run w rt d s1 eq_refl) as E5;
      cbv zeta in E5
  end.
  change (upsert w "manager_data" _ "manager_id,gw")
    with (upsert w "manager_data" (probe_row w descriptors s) "manager_id,gw")
    in E5.
  rewrite Hup, Hsel in E5.
  destruct (String.eqb code "PGRST116").
  - rewrite (dbind_Ret _ _ _ _ _ _ _ E5).
    eexists. split.
    { apply f_equal2; [reflexivity|].
      unfold logged, probe_trace, probe_row. cbn [trace tick].
      rewrite <- !app_assoc. reflexivity. }
    split; [reflexivity|]. split; [|reflexivity].
    unfold probe_success. cbn. repeat split; reflexivity.
  - rewrite (dbind_Throw _ _ _ _ _ _ _ E5).
    eexists. split.
    { apply f_equal2; [reflexivity|].
      unfold logged, probe_trace, probe_row. cbn [trace tick].
      rewrite <- !app_assoc. reflexivity. }
    split; [reflexivity|]. split; [probe_failed | reflexivity].
Qed.

Lemma probe_tolerates_absent_row_witness :
  exists r,
    Diagnostic.handler Scenario.squad Bench.row_absent Scenario.configured
      (mkState [] 0)
    = (Ret r,
       logged (mkState [] 2)
         (probe_trace Scenario.squad Bench.periods (mkState [] 0)))
    /\ field (diagnostics_of r) "supabase_insert" = VStr "SUCCESS"
    /\ probe_success r
    /\ field (diagnostics_of r) "supabase_verify" = VStr "NO DATA".
Proof.
  destruct (probe_tolerates_absent_row Scenario.squad Bench.row_absent
              Scenario.configured (mkState [] 0) Bench.periods VNull
              "PGRST116" "0 rows" squad_ready eq_refl eq_refl)
    as (r & Hrun & Hins & Hrest).
  exists r. split; [exact Hrun|]. split; [exact Hins | exact Hrest].
Defined.
